(** * tutorial_udpsink.c: the native streaming bridge

    A shallow embedding of [app/src/main/cpp/tutorial_udpsink.c].  The C code
    drives an external media engine (GStreamer) and a controller (the Java
    activity) only through calls; the embedding keeps the C globals as a
    record, records every call that leaves the program in a log, and takes
    the engine's answers from an oracle, one per native command.

    - A C function is a state-passing command over the globals and the
      log; [g_assert] on a [NULL] pointer ends the process.
    - The engine decides which factories exist, which links and state
      changes it accepts and which pads fit; nothing is assumed of these
      answers except where a statement says so.
    - The state of a pipeline is the state last requested of it, which is
      the target state the engine keeps for an element.
    - String literals are kept as they are written in the C source, so the
      two characters backslash-n stand for the newline of the C literal,
      and a [GST_DEBUG] line that prints a pointer is kept with its [%p].
    - A call on the controller is one entry of the log.  The lookup of
      the JNI environment ([get_jni_env], [attach_current_thread]) and the
      exception checks after a Java call are written out apart, in
      [Jni], and related to the log there. *)

From Stdlib Require Import ZArith List String Ascii Bool Lia DecimalString
  Permutation.
Import ListNotations.
Open Scope string_scope.
Open Scope Z_scope.

(** ** The engine interface *)

(** [GstState], in the order of gstelement.h. *)
Inductive GstState : Type :=
| GST_STATE_VOID_PENDING
| GST_STATE_NULL
| GST_STATE_READY
| GST_STATE_PAUSED
| GST_STATE_PLAYING.

(** [GstStateChangeReturn]; [GST_STATE_CHANGE_FAILURE] is 0, so the C test
    [if (gst_element_set_state (...))] takes every other answer as success. *)
Inductive GstStateChangeReturn : Type :=
| GST_STATE_CHANGE_FAILURE
| GST_STATE_CHANGE_SUCCESS
| GST_STATE_CHANGE_ASYNC
| GST_STATE_CHANGE_NO_PREROLL.

Definition state_change_code (r : GstStateChangeReturn) : Z :=
  match r with
  | GST_STATE_CHANGE_FAILURE => 0
  | GST_STATE_CHANGE_SUCCESS => 1
  | GST_STATE_CHANGE_ASYNC => 2
  | GST_STATE_CHANGE_NO_PREROLL => 3
  end.

(** [GstPadLinkReturn]; only [GST_PAD_LINK_OK] connects the two pads. *)
Inductive GstPadLinkReturn : Type :=
| GST_PAD_LINK_OK
| GST_PAD_LINK_WRONG_HIERARCHY
| GST_PAD_LINK_WAS_LINKED
| GST_PAD_LINK_WRONG_DIRECTION
| GST_PAD_LINK_NOFORMAT
| GST_PAD_LINK_NOSCHED
| GST_PAD_LINK_REFUSED.

(** A non-null [GstElement *] is the number the engine gave the object when
    it was created; a C pointer that may be [NULL] is an [option]. *)
Definition GstElement : Type := nat.

(** A pad is known by its element and its name. *)
Definition GstPad : Type := (GstElement * string)%type.

(** Values passed to [g_object_set]. *)
Inductive gvalue : Type :=
| VInt (z : Z)
| VString (s : string)
| VCaps (media : string) (fields : list (string * Z)).

(** Everything the native code asks of the engine, of GLib, of the thread
    library and of the Java runtime, writes to its logs, or calls on the
    controller ([ESetMessage] is [setMessage], [EOnInitialized] is
    [onGStreamerInitialized]). *)
Inductive event : Type :=
| EFactoryMake (factory : string) (name : option string) (res : option GstElement)
| EObjectSet (obj : option GstElement) (prop : string) (v : gvalue)
| EBinAddMany (bin : option GstElement) (els : list (option GstElement))
| ELink (src dst : option GstElement) (res : bool)
| ESetState (el : option GstElement) (st : GstState) (res : GstStateChangeReturn)
| EGetStaticPad (el : option GstElement) (name : string) (res : option GstPad)
| EPadLink (src : GstPad) (sink : option GstPad) (res : GstPadLinkReturn)
| EUnref (pad : option GstPad)
| EPrint (s : string)
| EDebug (s : string)
| EAssertFailed (expr : string)
| ESetMessage (s : string)
| EOnInitialized
| EParseLaunch (description : string) (res : option GstElement)
    (error : option string)
| EBusWatch (el : option GstElement)
| ESignalConnect (el : option GstElement) (signal : string)
| EMainLoopNew
| EMainLoopRun
| EMainLoopQuit
| EMainLoopUnref
| ENewGlobalRef
| EThreadCreate
| EThreadJoin
| EDeleteGlobalRef
| EFree
| ESetCustomData (null : bool).

(** The engine's answers during one native command. *)
Record Engine : Type := {
  factory_available : string -> bool;
  link_accepts : GstElement -> GstElement -> bool;
  state_change : GstElement -> GstState -> GstStateChangeReturn;
  has_static_pad : GstElement -> string -> bool;
  pads_compatible : GstPad -> GstPad -> GstPadLinkReturn
}.

(** ** The C globals *)

(** The [GstElement *] globals of lines 203-204 and 317-318. *)
Inductive gvar : Type :=
| pipeline | camera | queue | capsfilter | videoconvert | encoder | udpsink
| pipeline_audio | audiosource | audioconvert | speexenc | audioudpsink.

Definition gvar_eqb (x y : gvar) : bool :=
  match x, y with
  | pipeline, pipeline | camera, camera | queue, queue
  | capsfilter, capsfilter | videoconvert, videoconvert
  | encoder, encoder | udpsink, udpsink
  | pipeline_audio, pipeline_audio | audiosource, audiosource
  | audioconvert, audioconvert | speexenc, speexenc
  | audioudpsink, audioudpsink => true
  | _, _ => false
  end.

Record world : Type := mkWorld {
  first_time_video : bool;
  first_time_audio : bool;
  video_running : bool;
  var : gvar -> option GstElement;
  next_element : nat;
  (** pads that have a peer, as [(src, sink)], newest first *)
  peers : list (GstPad * GstPad);
  (** the calls so far, newest first *)
  log : list event
}.

(** The state at library load: the initialisers of lines 192 and 205-206,
    every pointer [NULL]. *)
Definition initial_world : world :=
  mkWorld true true false (fun _ => None) 0%nat [] [].

Definition set_first_time_video (b : bool) (w : world) : world :=
  mkWorld b (first_time_audio w) (video_running w) (var w)
          (next_element w) (peers w) (log w).

Definition set_first_time_audio (b : bool) (w : world) : world :=
  mkWorld (first_time_video w) b (video_running w) (var w)
          (next_element w) (peers w) (log w).

Definition set_video_running (b : bool) (w : world) : world :=
  mkWorld (first_time_video w) (first_time_audio w) b (var w)
          (next_element w) (peers w) (log w).

Definition set_var (x : gvar) (v : option GstElement) (w : world) : world :=
  mkWorld (first_time_video w) (first_time_audio w) (video_running w)
          (fun y => if gvar_eqb x y then v else var w y)
          (next_element w) (peers w) (log w).

Definition emit (e : event) (w : world) : world :=
  mkWorld (first_time_video w) (first_time_audio w) (video_running w) (var w)
          (next_element w) (peers w) (e :: log w).

Definition alloc (w : world) : world :=
  mkWorld (first_time_video w) (first_time_audio w) (video_running w) (var w)
          (S (next_element w)) (peers w) (log w).

Definition add_peer (p : GstPad * GstPad) (w : world) : world :=
  mkWorld (first_time_video w) (first_time_audio w) (video_running w) (var w)
          (next_element w) (p :: peers w) (log w).

(** ** Commands: state passing, with [g_assert] able to end the process *)

Inductive result (A : Type) : Type :=
| Ret (a : A) (w : world)
| Abort (w : world).
Arguments Ret {A} a w.
Arguments Abort {A} w.

Definition M (A : Type) : Type := world -> result A.

Definition ret {A} (a : A) : M A := fun w => Ret a w.

Definition bind {A B} (c : M A) (k : A -> M B) : M B :=
  fun w => match c w with
           | Ret a w' => k a w'
           | Abort w' => Abort w'
           end.

Notation "x <- c ;; k" := (bind c (fun x => k))
  (at level 61, c at next level, right associativity).
Notation "c ;; k" := (bind c (fun _ => k))
  (at level 61, right associativity).

Definition world_of {A} (r : result A) : world :=
  match r with Ret _ w => w | Abort w => w end.

(** The calls [evs] made one after the other, oldest first. *)
Definition emits (evs : list event) (w : world) : world :=
  fold_left (fun w' e => emit e w') evs w.

Definition do_emit (e : event) : M unit := fun w => Ret tt (emit e w).
Definition read (x : gvar) : M (option GstElement) := fun w => Ret (var w x) w.
Definition assign (x : gvar) (v : option GstElement) : M unit :=
  fun w => Ret tt (set_var x v w).

Definition g_print (s : string) : M unit := do_emit (EPrint s).
Definition GST_DEBUG (s : string) : M unit := do_emit (EDebug s).

(** [g_assert (expr)]: the process is aborted when the pointer is [NULL]. *)
Definition g_assert (expr : string) (p : option GstElement) : M unit :=
  fun w => match p with
           | Some _ => Ret tt w
           | None => Abort (emit (EAssertFailed expr) w)
           end.

(** [gst_element_factory_make (factory, name)]: a fresh element, or [NULL]
    when the engine has no such factory. *)
Definition gst_element_factory_make (eng : Engine) (factory : string)
    (name : option string) : M (option GstElement) :=
  fun w =>
    if factory_available eng factory
    then let h := next_element w in
         Ret (Some h) (emit (EFactoryMake factory name (Some h)) (alloc w))
    else Ret None (emit (EFactoryMake factory name None) w).

(** [gst_pipeline_new (name)] is [gst_element_factory_make ("pipeline", name)]
    (gstpipeline.c). *)
Definition gst_pipeline_new (eng : Engine) (name : string)
    : M (option GstElement) :=
  gst_element_factory_make eng "pipeline" (Some name).

Definition g_object_set (obj : option GstElement) (prop : string) (v : gvalue)
    : M unit :=
  do_emit (EObjectSet obj prop v).

Definition gst_bin_add_many (bin : option GstElement)
    (els : list (option GstElement)) : M unit :=
  do_emit (EBinAddMany bin els).

(** [gst_element_link (src, dest)]; [FALSE] on a [NULL] argument. *)
Definition gst_element_link (eng : Engine) (src dst : option GstElement)
    : M bool :=
  fun w =>
    let res := match src, dst with
               | Some a, Some b => link_accepts eng a b
               | _, _ => false
               end in
    Ret res (emit (ELink src dst res) w).

(** The answer to [gst_element_set_state (element, state)]:
    [GST_STATE_CHANGE_FAILURE] on a [NULL] element. *)
Definition state_answer (eng : Engine) (el : option GstElement)
    (st : GstState) : GstStateChangeReturn :=
  match el with
  | Some e => state_change eng e st
  | None => GST_STATE_CHANGE_FAILURE
  end.

Definition gst_element_set_state (eng : Engine) (el : option GstElement)
    (st : GstState) : M GstStateChangeReturn :=
  fun w =>
    let res := state_answer eng el st in
    Ret res (emit (ESetState el st res) w).

(** The C test [!p] of a pointer. *)
Definition is_null (p : option GstElement) : bool :=
  match p with Some _ => false | None => true end.

(** The C test [p == h] of a pointer against a non-null one. *)
Definition opt_is (o : option GstElement) (h : GstElement) : bool :=
  match o with Some x => Nat.eqb x h | None => false end.

(** The C truth value of a [GstStateChangeReturn]. *)
Definition truthy (r : GstStateChangeReturn) : bool :=
  negb (state_change_code r =? 0).

(** ** Formatting *)

(** [%d] of an [int]. *)
Definition fmt_d (z : Z) : string := NilZero.string_of_int (Z.to_int z).

(** The value stored in an [unsigned char] from an [int]. *)
Definition to_uchar (z : Z) : Z := z mod 256.

(** A byte of memory read through an lvalue of plain [char] and promoted to
    [int]: the byte itself where plain [char] is unsigned, its two's
    complement reading where it is signed. *)
Definition read_char (char_signed : bool) (byte : Z) : Z :=
  if char_signed then (byte + 128) mod 256 - 128 else byte mod 256.

(** Four bytes of an address, [ip[0]] first. *)
Definition bytes4 : Type := (Z * Z * Z * Z)%type.

(** ["%d.%d.%d.%d"] of four [int]s. *)
Definition fmt_dotted (a : bytes4) : string :=
  let '(a0, a1, a2, a3) := a in
  fmt_d a0 ++ "." ++ fmt_d a1 ++ "." ++ fmt_d a2 ++ "." ++ fmt_d a3.

Definition map4 (f : Z -> Z) (a : bytes4) : bytes4 :=
  let '(a0, a1, a2, a3) := a in (f a0, f a1, f a2, f a3).

(** ** The pipelines (lines 191-405) *)

Section Pipelines.

(** Whether plain [char] is signed on the target ABI; it decides how
    [sprintf] reads [char arg[]]. *)
Variable char_signed : bool.

(** The first-time block of [video_start], lines 215-298.  [Some r] is
    the [return r] taken inside the block, [None] falls through. *)
Definition video_build (eng : Engine) : M (option Z) :=
  c <- gst_element_factory_make eng "ahcsrc" (Some "ahcsrc") ;;
  assign camera c ;;
  (if is_null c then GST_DEBUG "NOGO: camera is null!" else ret tt) ;;
  g_assert "camera" c ;;
  p <- gst_pipeline_new eng "pipeline" ;;
  assign pipeline p ;;
  g_assert "pipeline" p ;;
  q <- gst_element_factory_make eng "queue" (Some "srcqueue") ;;
  assign queue q ;;
  g_assert "queue" q ;;
  f <- gst_element_factory_make eng "capsfilter" None ;;
  assign capsfilter f ;;
  (if is_null f then GST_DEBUG "capsfilter is null: NOGO!" else ret tt) ;;
  g_assert "capsfilter" f ;;
  g_object_set f "caps"
    (VCaps "video/x-raw" [("width", 320); ("height", 240)]) ;;
  v <- gst_element_factory_make eng "videoconvert" None ;;
  assign videoconvert v ;;
  (if is_null v then GST_DEBUG "videoconvert is null: NOGO!" else ret tt) ;;
  g_assert "videoconvert" v ;;
  e <- gst_element_factory_make eng "openh264enc" (Some "encoder") ;;
  assign encoder e ;;
  (if is_null e then GST_DEBUG "encoder is null: NOGO!" else ret tt) ;;
  g_assert "encoder" e ;;
  u <- gst_element_factory_make eng "udpsink" (Some "sink") ;;
  assign udpsink u ;;
  (if is_null u then GST_DEBUG "UDP sink is null: NOGO!" else ret tt) ;;
  g_assert "udpsink" u ;;
  gst_bin_add_many p [c; q; f; v; e; u] ;;
  l1 <- gst_element_link eng c q ;;
  if negb l1 then
    GST_DEBUG "Failed to link ahcsrc camera with queue!\n" ;;
    ret (Some (-1))
  else
  g_print "Linked ahcsrc camera with queue: OK\n" ;;
  l2 <- gst_element_link eng q f ;;
  if negb l2 then
    GST_DEBUG "Failed to link queue with capsfilter!\n" ;;
    ret (Some (-1))
  else
  g_print "Linked queue with capsfilter: OK\n" ;;
  l3 <- gst_element_link eng f v ;;
  if negb l3 then
    GST_DEBUG "Failed to link capsfilter with converter!\n" ;;
    ret (Some (-1))
  else
  g_print "Linked capsfilter with converter: OK\n" ;;
  l4 <- gst_element_link eng v e ;;
  if negb l4 then
    GST_DEBUG "Failed to link converter with encoder!\n" ;;
    ret (Some (-1))
  else
  g_print "Linked converter with encoder: OK\n" ;;
  l5 <- gst_element_link eng e u ;;
  if negb l5 then
    GST_DEBUG "Failed to link encoder with UDP sink!\n" ;;
    ret (Some (-1))
  else
  g_print "Linked encoder with UDP sink: OK\n" ;;
  (fun w => Ret None (set_first_time_video false w)).

(** [int video_start (char arg[])], lines 208-314. *)
Definition video_start (eng : Engine) (arg : bytes4) : M Z :=
  let remote_IP_string := fmt_dotted (map4 (read_char char_signed) arg) in
  early <- (fun w => if first_time_video w then video_build eng w
                     else Ret None w) ;;
  match early with
  | Some r => ret r
  | None =>
      u <- read udpsink ;;
      g_object_set u "port" (VInt 5000) ;;
      g_object_set u "host" (VString remote_IP_string) ;;
      p <- read pipeline ;;
      st <- gst_element_set_state eng p GST_STATE_PLAYING ;;
      if truthy st then
        g_print "Video pipeline state set to playing: OK\n" ;;
        (fun w => Ret 0 (set_video_running true w))
      else
        GST_DEBUG "Failed to start up video pipeline!\n" ;;
        ret (-1)
  end.

(** The first-time block of [audio_start], lines 323-376. *)
Definition audio_build (eng : Engine) : M (option Z) :=
  p <- gst_pipeline_new eng "pipeline-audio" ;;
  assign pipeline_audio p ;;
  s <- gst_element_factory_make eng "openslessrc" (Some "audiosource") ;;
  assign audiosource s ;;
  c <- gst_element_factory_make eng "audioconvert" (Some "audio-convert") ;;
  assign audioconvert c ;;
  e <- gst_element_factory_make eng "speexenc" (Some "audio-encoder") ;;
  assign speexenc e ;;
  u <- gst_element_factory_make eng "udpsink" (Some "sink") ;;
  assign audioudpsink u ;;
  (if is_null u then GST_DEBUG "audio UDP sink is null: NOGO!" else ret tt) ;;
  g_assert "audioudpsink" u ;;
  (* failover *)
  s <- (match s with
        | None =>
            s' <- gst_element_factory_make eng "audiotestsrc" None ;;
            assign audiosource s' ;;
            ret s'
        | Some _ => ret s
        end) ;;
  g_assert "pipeline_audio != NULL" p ;;
  g_assert "audiosource != NULL" s ;;
  g_assert "audioconvert != NULL" c ;;
  g_assert "speexenc != NULL" e ;;
  g_assert "audioudpsink != NULL" u ;;
  gst_bin_add_many p [s; c; e; u] ;;
  l1 <- gst_element_link eng s c ;;
  if negb l1 then
    GST_DEBUG "Failed to link audio source with audioconvert!\n" ;;
    ret (Some (-1))
  else
  g_print "Linked audio source with audioconvert: OK\n" ;;
  l2 <- gst_element_link eng c e ;;
  if negb l2 then
    GST_DEBUG "Failed to link audioconvert with speexenc!\n" ;;
    ret (Some (-1))
  else
  g_print "Linked audioconvert with speexenc: OK\n" ;;
  l3 <- gst_element_link eng e u ;;
  if negb l3 then
    GST_DEBUG "Failed to link speexenc with audioudpsink!\n" ;;
    ret (Some (-1))
  else
  g_print "Linked speexenc with audioudpsink: OK\n" ;;
  (fun w => Ret None (set_first_time_audio false w)).

(** [int audio_start (char arg[])], lines 320-388. *)
Definition audio_start (eng : Engine) (arg : bytes4) : M Z :=
  let remote_IP_string := fmt_dotted (map4 (read_char char_signed) arg) in
  early <- (fun w => if first_time_audio w then audio_build eng w
                     else Ret None w) ;;
  match early with
  | Some r => ret r
  | None =>
      u <- read audioudpsink ;;
      g_object_set u "host" (VString remote_IP_string) ;;
      g_object_set u "port" (VInt 5001) ;;
      p <- read pipeline_audio ;;
      st <- gst_element_set_state eng p GST_STATE_PLAYING ;;
      if truthy st then
        g_print "GO: Audio pipeline state set to playing.\n" ;;
        ret 1
      else
        g_print "NOGO: Failed to start up audio pipeline!\n" ;;
        ret (-1)
  end.

(** [int video_stop ()], lines 390-397. *)
Definition video_stop (eng : Engine) : M Z :=
  p <- read pipeline ;;
  gst_element_set_state eng p GST_STATE_PAUSED ;;
  g_print "Video pipeline: paused\n" ;;
  p <- read pipeline ;;
  gst_element_set_state eng p GST_STATE_NULL ;;
  g_print "Video pipeline: null\n" ;;
  (fun w => Ret 1 (set_video_running false w)).

(** [int audio_stop ()], lines 399-405. *)
Definition audio_stop (eng : Engine) : M Z :=
  p <- read pipeline_audio ;;
  gst_element_set_state eng p GST_STATE_PAUSED ;;
  g_print "Audio pipeline: paused\n" ;;
  p <- read pipeline_audio ;;
  gst_element_set_state eng p GST_STATE_NULL ;;
  g_print "Audio pipeline: null\n" ;;
  ret 1.

(** [gst_native_stream_start], lines 440-452.  The four arguments are the
    bytes as transmitted; [ip] is an [unsigned char] array. *)
Definition gst_native_stream_start (eng : Engine)
    (byte0 byte1 byte2 byte3 : Z) : M unit :=
  let ip : bytes4 :=
    (to_uchar (byte0 + 128), to_uchar (byte1 + 128),
     to_uchar (byte2 + 128), to_uchar (byte3 + 128)) in
  g_print ("receiver IP: " ++ fmt_dotted ip ++ "\n") ;;
  r <- video_start eng ip ;;
  g_print ("stream_start: " ++ (if 0 <? r then "OK" else "NOT OK") ++ "\n") ;;
  GST_DEBUG "my pipeline streaming started".

(** [gst_native_stream_stop], lines 455-464. *)
Definition gst_native_stream_stop (eng : Engine) : M unit :=
  r <- video_stop eng ;;
  g_print ("stream_stop: " ++ (if 0 <? r then "OK" else "NOT OK") ++ "\n") ;;
  GST_DEBUG "my pipeline streaming stopped".

End Pipelines.

(** ** The dynamic-link handler (lines 194-201) *)

Definition pad_eqb (a b : GstPad) : bool :=
  Nat.eqb (fst a) (fst b) && String.eqb (snd a) (snd b).

(** The pad is one end of a link made pad by pad.  The pads that
    [gst_element_link] picks are not entered in [peers]; the engine can
    only refuse more pad links than this says. *)
Definition has_peer (w : world) (p : GstPad) : bool :=
  existsb (fun pr => pad_eqb (fst pr) p || pad_eqb (snd pr) p) (peers w).

(** [gst_element_get_static_pad (element, name)]. *)
Definition gst_element_get_static_pad (eng : Engine)
    (el : option GstElement) (name : string) : M (option GstPad) :=
  fun w =>
    let res := match el with
               | Some e => if has_static_pad eng e name then Some (e, name)
                           else None
               | None => None
               end in
    Ret res (emit (EGetStaticPad el name res) w).

(** The engine's answer to [gst_pad_link (srcpad, sinkpad)]:
    [GST_PAD_LINK_REFUSED] on a [NULL] pad, [GST_PAD_LINK_WAS_LINKED] when
    one of the pads already has a peer (a pad has at most one), and
    otherwise what the pads allow. *)
Definition pad_link_answer (eng : Engine) (w : world) (src : GstPad)
    (sink : option GstPad) : GstPadLinkReturn :=
  match sink with
  | None => GST_PAD_LINK_REFUSED
  | Some k =>
      if has_peer w src || has_peer w k then GST_PAD_LINK_WAS_LINKED
      else pads_compatible eng src k
  end.

Definition gst_pad_link (eng : Engine) (src : GstPad) (sink : option GstPad)
    : M GstPadLinkReturn :=
  fun w =>
    let res := pad_link_answer eng w src sink in
    let w1 := match res, sink with
              | GST_PAD_LINK_OK, Some k => add_peer (src, k) w
              | _, _ => w
              end in
    Ret res (emit (EPadLink src sink res) w1).

Definition gst_object_unref (pad : option GstPad) : M unit :=
  do_emit (EUnref pad).

(** [on_pad_added (element, pad, data)]; [data] is the encoder. *)
Definition on_pad_added (eng : Engine) (element : GstElement) (pad : GstPad)
    (data : option GstElement) : M unit :=
  g_print "Dynamic pad created, linking\n" ;;
  sinkpad <- gst_element_get_static_pad eng data "sink" ;;
  gst_pad_link eng pad sinkpad ;;
  gst_object_unref sinkpad.

(** The accepted pad links onto [sink] in a trace. *)
Definition is_connection_to (sink : GstPad) (e : event) : bool :=
  match e with
  | EPadLink _ (Some k) GST_PAD_LINK_OK => pad_eqb k sink
  | _ => false
  end.

Definition is_report (e : event) : bool :=
  match e with
  | ESetMessage _ | EDebug _ | EAssertFailed _ => true
  | _ => false
  end.


(** ** The session: callbacks and the application thread (lines 24-189) *)

Module CustomData.
(** [struct CustomData]; pointers other than the pipeline are kept as
    null or not. *)
Record t : Type := mk {
  app : bool;
  pipeline : option GstElement;
  context : bool;
  main_loop : bool;
  initialized : bool
}.
End CustomData.

(** [g_new0 (CustomData, 1)]. *)
Definition g_new0_CustomData : CustomData.t :=
  CustomData.mk false None false false false.

Definition set_initialized (b : bool) (d : CustomData.t) : CustomData.t :=
  CustomData.mk (CustomData.app d) (CustomData.pipeline d)
    (CustomData.context d) (CustomData.main_loop d) b.

Definition set_main_loop (b : bool) (d : CustomData.t) : CustomData.t :=
  CustomData.mk (CustomData.app d) (CustomData.pipeline d)
    (CustomData.context d) b (CustomData.initialized d).

(** [set_ui_message], lines 82-92, on a thread that has its JNI
    environment: the controller's [setMessage] is called.  With the
    lookup of the environment and its fault it is [Jni.set_ui_message]. *)
Definition set_ui_message (message : string) (data : CustomData.t) : M unit :=
  GST_DEBUG ("Setting message to: " ++ message) ;;
  do_emit (ESetMessage message).

Definition gst_element_state_get_name (st : GstState) : string :=
  match st with
  | GST_STATE_VOID_PENDING => "VOID_PENDING"
  | GST_STATE_NULL => "NULL"
  | GST_STATE_READY => "READY"
  | GST_STATE_PAUSED => "PAUSED"
  | GST_STATE_PLAYING => "PLAYING"
  end.

(** What the engine posts on a bus. *)
Inductive bus_message : Type :=
| MsgError (src : GstElement) (src_name : string) (err_message : string)
| MsgStateChanged (src : GstElement) (old_state new_state pending : GstState)
| MsgOther (src : GstElement).

(** [error_cb], lines 95-108. *)
Definition error_cb (eng : Engine) (src_name err_message : string)
    (data : CustomData.t) : M unit :=
  let message_string :=
    "Error received from element " ++ src_name ++ ": " ++ err_message in
  set_ui_message message_string data ;;
  gst_element_set_state eng (CustomData.pipeline data) GST_STATE_NULL ;;
  ret tt.

(** [state_changed_cb], lines 111-121. *)
Definition state_changed_cb (src : GstElement) (new_state : GstState)
    (data : CustomData.t) : M unit :=
  if opt_is (CustomData.pipeline data) src
  then set_ui_message
         ("State changed to " ++ gst_element_state_get_name new_state) data
  else ret tt.

(** [check_initialization_complete], lines 125-136. *)
Definition check_initialization_complete (data : CustomData.t)
    : M CustomData.t :=
  if negb (CustomData.initialized data) && CustomData.main_loop data
  then
    GST_DEBUG "Initialization complete, notifying application. main_loop:%p" ;;
    do_emit EOnInitialized ;;
    ret (set_initialized true data)
  else ret data.

(** [app_function] up to line 171: the context, the pipeline of
    [gst_parse_launch], and on success the bus watch with the two signal
    handlers.  [launched] and [error] are the engine's answer; the result
    tells whether the thread goes on ([false] is the [return NULL] of line
    160). *)
Definition app_build (launched : bool) (error : option string)
    (data : CustomData.t) : M (CustomData.t * bool) :=
  fun w =>
    let desc := "audiotestsrc ! audioconvert ! audioresample ! autoaudiosink" in
    let p := if launched then Some (next_element w) else None in
    let w1 := emit (EParseLaunch desc p error)
                (emit (EDebug "Creating pipeline in CustomData at %p")
                   (if launched then alloc w else w)) in
    let data1 := CustomData.mk (CustomData.app data) p true
                   (CustomData.main_loop data)
                   (CustomData.initialized data) in
    match error with
    | Some err_message =>
        (set_ui_message ("Unable to build pipeline: " ++ err_message) data1 ;;
         ret (data1, false)) w1
    | None =>
        (do_emit (EBusWatch p) ;;
         do_emit (ESignalConnect p "message::error") ;;
         do_emit (ESignalConnect p "message::state-changed") ;;
         ret (data1, true)) w1
    end.

(** Lines 178-188, after [g_main_loop_run] has returned. *)
Definition app_leave (eng : Engine) (data : CustomData.t)
    : M CustomData.t :=
  GST_DEBUG "Exited main loop" ;;
  do_emit EMainLoopUnref ;;
  gst_element_set_state eng (CustomData.pipeline data) GST_STATE_NULL ;;
  ret (set_main_loop false data).

(** One message taken from a bus by the main loop.  The only bus with a
    watch and handlers is the one of [watch], set up at lines 164-170;
    messages on any other bus reach no handler. *)
Definition dispatch (eng : Engine) (watch : option GstElement)
    (bus : GstElement) (msg : bus_message) (data : CustomData.t) : M unit :=
  if opt_is watch bus then
    match msg with
    | MsgError _ src_name err_message => error_cb eng src_name err_message data
    | MsgStateChanged src _ new_state _ => state_changed_cb src new_state data
    | MsgOther _ => ret tt
    end
  else ret tt.

(** ** The process: the application thread and the native commands

    The application thread runs [app_function]; the controller's threads
    call the native commands and [gst_native_finalize].  A state of the
    process says where the application thread and the finalizer are, and
    an action is the next piece of one of them, taken as a whole.  The
    commands touch the pipeline globals and the engine, the callbacks the
    controller and the session's own pipeline, so nothing is lost by
    taking each piece as one step.

    [process] is the life of one session: [gst_native_init] is called
    once, [gst_native_finalize] once, and the thread is attached to the
    VM, so that its callbacks return.  The C code asks for none of this;
    [system], further down, is the process with any number of sessions
    and of calls of [gst_native_finalize], with the callbacks at the
    level of their JNI calls. *)

Inductive command : Type :=
| StreamStart (byte0 byte1 byte2 byte3 : Z)
| StreamStop.

(** Where the application thread is in [app_function]. *)
Inductive thread_pc : Type :=
| AppNotStarted   (* no [gst_native_init] yet *)
| AppEntered      (* created by [pthread_create], line 146 *)
| AppBuilt        (* past line 171 *)
| AppLoopNew      (* past line 175 *)
| AppNotified     (* past line 176 *)
| AppRunning      (* inside [g_main_loop_run], line 177 *)
| AppFailed       (* returned at line 160 *)
| AppExited.      (* returned at line 188 *)

(** Where the caller of [gst_native_finalize] is. *)
Inductive finalize_pc : Type :=
| FinNotCalled
| FinQuit         (* past line 428 *)
| FinJoined       (* past line 430 *)
| FinRefDeleted   (* past line 432 *)
| FinFreed        (* past line 434 *)
| FinReturned.    (* past line 435 *)

Record process : Type := mkProcess {
  proc_world : world;
  proc_data : CustomData.t;
  (** the pipeline whose bus is watched by the main loop *)
  proc_watch : option GstElement;
  (** [is_running] of the [GMainLoop] *)
  loop_running : bool;
  app_pc : thread_pc;
  fin_pc : finalize_pc
}.

Definition process_start : process :=
  mkProcess initial_world g_new0_CustomData None false AppNotStarted
    FinNotCalled.

(** What one of the threads does next. *)
Inductive action : Type :=
| ANativeInit
| AAppBuild (launched : bool) (error : option string)
| AAppLoopNew
| AAppNotify
| AAppRun
| AAppDispatch (eng : Engine) (bus : GstElement) (msg : bus_message)
| AAppLeave (eng : Engine)
| ACommand (eng : Engine) (c : command)
| AFinalizeQuit
| AFinalizeJoin
| AFinalizeDeleteRef
| AFinalizeFree
| AFinalizeClear.

Definition thread_ended (pc : thread_pc) : bool :=
  match pc with AppFailed | AppExited => true | _ => false end.

Section Process.

Variable char_signed : bool.

Definition run_command (eng : Engine) (c : command) : M unit :=
  match c with
  | StreamStart b0 b1 b2 b3 =>
      gst_native_stream_start char_signed eng b0 b1 b2 b3
  | StreamStop => gst_native_stream_stop eng
  end.

(** The state after the action, or [None] when the action cannot be
    taken there: it is not that thread's turn, [pthread_join] is still
    waiting, or a [g_assert] has ended the process. *)
Definition perform (a : action) (s : process) : option process :=
  let w := proc_world s in
  let d := proc_data s in
  match a, app_pc s, fin_pc s with
  | ANativeInit, AppNotStarted, FinNotCalled =>
      (* lines 412-421 *)
      Some (mkProcess
              (emits [ESetCustomData false;
                      EDebug "Created CustomData at %p";
                      ENewGlobalRef;
                      EDebug "Created GlobalRef for app object at %p";
                      EThreadCreate] w)
              (CustomData.mk true None false false false)
              (proc_watch s) (loop_running s) AppEntered FinNotCalled)
  | AAppBuild launched error, AppEntered, f =>
      match app_build launched error d w with
      | Ret (d', true) w' =>
          Some (mkProcess w' d' (CustomData.pipeline d') (loop_running s)
                  AppBuilt f)
      | Ret (d', false) w' =>
          Some (mkProcess w' d' (proc_watch s) (loop_running s) AppFailed f)
      | Abort _ => None
      end
  | AAppLoopNew, AppBuilt, f =>
      Some (mkProcess
              (emits [EDebug "Entering main loop... (CustomData:%p)";
                      EMainLoopNew] w)
              (set_main_loop true d) (proc_watch s) false AppLoopNew f)
  | AAppNotify, AppLoopNew, f =>
      match check_initialization_complete d w with
      | Ret d' w' =>
          Some (mkProcess w' d' (proc_watch s) (loop_running s)
                  AppNotified f)
      | Abort _ => None
      end
  | AAppRun, AppNotified, f =>
      Some (mkProcess (emit EMainLoopRun w) d (proc_watch s) true
              AppRunning f)
  | AAppDispatch eng bus msg, AppRunning, f =>
      if loop_running s then
        match dispatch eng (proc_watch s) bus msg d w with
        | Ret _ w' =>
            Some (mkProcess w' d (proc_watch s) (loop_running s)
                    AppRunning f)
        | Abort _ => None
        end
      else None
  | AAppLeave eng, AppRunning, f =>
      if loop_running s then None
      else
        match app_leave eng d w with
        | Ret d' w' =>
            Some (mkProcess w' d' (proc_watch s) (loop_running s)
                    AppExited f)
        | Abort _ => None
        end
  | ACommand eng c, pc, f =>
      match run_command eng c w with
      | Ret _ w' =>
          Some (mkProcess w' d (proc_watch s) (loop_running s) pc f)
      | Abort _ => None
      end
  | AFinalizeQuit, pc, FinNotCalled =>
      (* lines 425-428; without a session the command returns at once *)
      match pc with
      | AppNotStarted => None
      | _ =>
          Some (mkProcess
                  (emits [EDebug "Quitting main loop...";
                          EMainLoopQuit;
                          EDebug "Waiting for thread to finish..."] w)
                  d (proc_watch s)
                  (if CustomData.main_loop d then false
                   else loop_running s)
                  pc FinQuit)
      end
  | AFinalizeJoin, pc, FinQuit =>
      (* line 430: [pthread_join] returns once the thread has ended *)
      if thread_ended pc
      then Some (mkProcess (emit EThreadJoin w) d (proc_watch s)
                   (loop_running s) pc FinJoined)
      else None
  | AFinalizeDeleteRef, pc, FinJoined =>
      (* lines 431-432 *)
      Some (mkProcess
              (emits [EDebug "Deleting GlobalRef for app object at %p";
                      EDeleteGlobalRef] w)
              (CustomData.mk false (CustomData.pipeline d)
                 (CustomData.context d) (CustomData.main_loop d)
                 (CustomData.initialized d))
              (proc_watch s) (loop_running s) pc FinRefDeleted)
  | AFinalizeFree, pc, FinRefDeleted =>
      (* lines 433-434 *)
      Some (mkProcess
              (emits [EDebug "Freeing CustomData at %p"; EFree] w)
              d (proc_watch s) (loop_running s) pc FinFreed)
  | AFinalizeClear, pc, FinFreed =>
      (* lines 435-436 *)
      Some (mkProcess
              (emits [ESetCustomData true; EDebug "Done finalizing"] w)
              d (proc_watch s) (loop_running s) pc FinReturned)
  | _, _, _ => None
  end.

Definition step (s s' : process) : Prop :=
  exists a, perform a s = Some s'.

(** Any number of steps. *)
Inductive steps : process -> process -> Prop :=
| steps_refl (s : process) : steps s s
| steps_step (s1 s2 s3 : process) :
    steps s1 s2 -> step s2 s3 -> steps s1 s3.

Definition reachable (s : process) : Prop := steps process_start s.

(** The actions one after the other. *)
Fixpoint perform_all (acts : list action) (s : process) : option process :=
  match acts with
  | [] => Some s
  | a :: rest =>
      match perform a s with
      | Some s' => perform_all rest s'
      | None => None
      end
  end.

End Process.

(** ** Reading the log *)

(** A call on the controller. *)
Definition is_callback (e : event) : bool :=
  match e with ESetMessage _ | EOnInitialized => true | _ => false end.

Definition is_notification (e : event) : bool :=
  match e with EOnInitialized => true | _ => false end.

(** One of the five calls [gst_native_finalize] makes for a session. *)
Definition is_finalize_call (e : event) : bool :=
  match e with
  | EMainLoopQuit | EThreadJoin | EDeleteGlobalRef | EFree
  | ESetCustomData true => true
  | _ => false
  end.

(** A stage is instantiated or added to a pipeline. *)
Definition is_creation (e : event) : bool :=
  match e with
  | EFactoryMake _ _ _ | EBinAddMany _ _ => true
  | _ => false
  end.

Definition is_link (e : event) : bool :=
  match e with ELink _ _ _ => true | _ => false end.

Definition is_state_request (e : event) : bool :=
  match e with ESetState _ _ _ => true | _ => false end.

Definition is_assert_failure (e : event) : bool :=
  match e with EAssertFailed _ => true | _ => false end.

(** The value last given to property [prop] of object [obj]. *)
Fixpoint property (l : list event) (obj : GstElement) (prop : string)
    : option gvalue :=
  match l with
  | [] => None
  | EObjectSet o p v :: l' =>
      if opt_is o obj && String.eqb p prop then Some v
      else property l' obj prop
  | _ :: l' => property l' obj prop
  end.

(** The state last requested of element [el] (the engine's target state). *)
Fixpoint requested_state (l : list event) (el : GstElement)
    : option GstState :=
  match l with
  | [] => None
  | ESetState o st _ :: l' =>
      if opt_is o el then Some st else requested_state l' el
  | _ :: l' => requested_state l' el
  end.

(** The destination of the sink held in global [sink]: host and port as
    last set, if both were. *)
Definition destination (sink : gvar) (w : world) : option (gvalue * gvalue) :=
  match var w sink with
  | Some u =>
      match property (log w) u "host", property (log w) u "port" with
      | Some h, Some p => Some (h, p)
      | _, _ => None
      end
  | None => None
  end.

(** The stages put into bin [b]. *)
Fixpoint stages (l : list event) (b : GstElement) : list (option GstElement) :=
  match l with
  | [] => []
  | EBinAddMany o els :: l' =>
      if opt_is o b then stages l' b ++ els else stages l' b
  | _ :: l' => stages l' b
  end.

(** The factories asked for in a trace, in order. *)
Fixpoint factories_requested (tr : list event) : list string :=
  match tr with
  | [] => []
  | EFactoryMake f _ _ :: tr' => f :: factories_requested tr'
  | _ :: tr' => factories_requested tr'
  end.

Fixpoint distinct (l : list string) : bool :=
  match l with
  | [] => true
  | x :: r => negb (existsb (String.eqb x) r) && distinct r
  end.

(** [w'] continues [w] by the calls [tr], oldest first. *)
Definition emitted (w w' : world) (tr : list event) : Prop :=
  log w' = (rev tr ++ log w)%list.

(** The calls made since [w], oldest first. *)
Definition since (w w' : world) : list event :=
  rev (firstn (List.length (log w') - List.length (log w)) (log w')).

(** Going back from the newest call to the latest [pthread_join] (or to the
    start), no call on the controller is met. *)
Fixpoint quiet_since_join (l : list event) : bool :=
  match l with
  | [] => true
  | EThreadJoin :: _ => true
  | e :: l' => negb (is_callback e) && quiet_since_join l'
  end.

(** ** The two pipeline kinds side by side *)

Inductive kind : Type := video | audio.

Definition start (char_signed : bool) (k : kind)
    : Engine -> bytes4 -> M Z :=
  match k with
  | video => video_start char_signed
  | audio => audio_start char_signed
  end.

Definition stop (k : kind) : Engine -> M Z :=
  match k with video => video_stop | audio => audio_stop end.

Definition first_time (k : kind) (w : world) : bool :=
  match k with
  | video => first_time_video w
  | audio => first_time_audio w
  end.

Definition pipeline_var (k : kind) : gvar :=
  match k with video => pipeline | audio => pipeline_audio end.

(** Start calls of one kind, one after the other. *)
Fixpoint run_starts (char_signed : bool) (k : kind)
    (calls : list (Engine * bytes4)) : M unit :=
  match calls with
  | [] => ret tt
  | (eng, arg) :: cs =>
      start char_signed k eng arg ;; run_starts char_signed k cs
  end.

Definition stage_count (k : kind) (w : world) : nat :=
  match var w (pipeline_var k) with
  | Some p => List.length (stages (log w) p)
  | None => 0%nat
  end.

(** ** The declared link sequences *)

Record planned_link : Type := {
  link_src : gvar;
  link_dst : gvar;
  link_ok_line : string;
  link_diagnostic : string
}.

(** The links of each pipeline in their declared order, with the line
    printed on success and the diagnostic of a failure. *)
Definition link_plan (k : kind) : list planned_link :=
  match k with
  | video =>
      [ {| link_src := camera; link_dst := queue;
           link_ok_line := "Linked ahcsrc camera with queue: OK\n";
           link_diagnostic := "Failed to link ahcsrc camera with queue!\n" |};
        {| link_src := queue; link_dst := capsfilter;
           link_ok_line := "Linked queue with capsfilter: OK\n";
           link_diagnostic := "Failed to link queue with capsfilter!\n" |};
        {| link_src := capsfilter; link_dst := videoconvert;
           link_ok_line := "Linked capsfilter with converter: OK\n";
           link_diagnostic := "Failed to link capsfilter with converter!\n" |};
        {| link_src := videoconvert; link_dst := encoder;
           link_ok_line := "Linked converter with encoder: OK\n";
           link_diagnostic := "Failed to link converter with encoder!\n" |};
        {| link_src := encoder; link_dst := udpsink;
           link_ok_line := "Linked encoder with UDP sink: OK\n";
           link_diagnostic := "Failed to link encoder with UDP sink!\n" |} ]
  | audio =>
      [ {| link_src := audiosource; link_dst := audioconvert;
           link_ok_line := "Linked audio source with audioconvert: OK\n";
           link_diagnostic :=
             "Failed to link audio source with audioconvert!\n" |};
        {| link_src := audioconvert; link_dst := speexenc;
           link_ok_line := "Linked audioconvert with speexenc: OK\n";
           link_diagnostic := "Failed to link audioconvert with speexenc!\n" |};
        {| link_src := speexenc; link_dst := audioudpsink;
           link_ok_line := "Linked speexenc with audioudpsink: OK\n";
           link_diagnostic :=
             "Failed to link speexenc with audioudpsink!\n" |} ]
  end.

(** The engine's answer to the link [l] between the stages held in [w]. *)
Definition link_answer (eng : Engine) (w : world) (l : planned_link) : bool :=
  match var w (link_src l), var w (link_dst l) with
  | Some a, Some b => link_accepts eng a b
  | _, _ => false
  end.

Definition link_attempt (eng : Engine) (w : world) (l : planned_link)
    : event :=
  ELink (var w (link_src l)) (var w (link_dst l)) (link_answer eng w l).

(** The calls of links that are accepted one after the other. *)
Definition accepted_links (eng : Engine) (w : world)
    (plan : list planned_link) : list event :=
  flat_map (fun l => [link_attempt eng w l; EPrint (link_ok_line l)]) plan.

(** The linking the specification describes: the links of the plan are
    attempted in order; the first one refused is followed by its diagnostic
    and nothing else.  The flag tells whether every link was accepted. *)
Fixpoint links_until_refused (eng : Engine) (w : world)
    (plan : list planned_link) : list event * bool :=
  match plan with
  | [] => ([], true)
  | l :: rest =>
      if link_answer eng w l
      then let '(evs, all) := links_until_refused eng w rest in
           (link_attempt eng w l :: EPrint (link_ok_line l) :: evs, all)
      else ([link_attempt eng w l; EDebug (link_diagnostic l)], false)
  end.

(** ** What the statements about the pipelines speak of *)

Definition video_factories : list string :=
  ["ahcsrc"; "pipeline"; "queue"; "capsfilter"; "videoconvert";
   "openh264enc"; "udpsink"].

(** The audio stages other than the capture source. *)
Definition audio_other_factories : list string :=
  ["pipeline"; "audioconvert"; "speexenc"; "udpsink"].

(** The pairs of elements a first-time video block links, when the next
    free element number is [n]. *)
Definition video_link_pairs (n : nat) : list (GstElement * GstElement) :=
  [ (n, (2 + n)%nat); ((2 + n)%nat, (3 + n)%nat); ((3 + n)%nat, (4 + n)%nat);
    ((4 + n)%nat, (5 + n)%nat); ((5 + n)%nat, (6 + n)%nat) ].

(** In state [w] the engine instantiates every video stage and accepts
    every link of the first-time block. *)
Definition builds_video (eng : Engine) (w : world) : Prop :=
  forallb (factory_available eng) video_factories = true /\
  forallb (fun ab => link_accepts eng (fst ab) (snd ab))
    (video_link_pairs (next_element w)) = true.

(** The video pipeline has been built: flag cleared, handles in place. *)
Definition video_built (w : world) : Prop :=
  first_time_video w = false /\
  (exists p, var w pipeline = Some p) /\ (exists u, var w udpsink = Some u).

(** What holds of the video globals in every state the commands reach. *)
Definition video_inv (w : world) : Prop :=
  first_time_video w = false -> video_built w.

(** The call gets past the first-time block. *)
Definition passes_video_build (eng : Engine) (w : world) : Prop :=
  first_time_video w = false \/ builds_video eng w.

(** The engine has a factory for every stage the pipeline needs; for the
    audio source, the primary one or the fallback. *)
Definition stages_instantiate (k : kind) (eng : Engine) : Prop :=
  match k with
  | video => forallb (factory_available eng) video_factories = true
  | audio =>
      forallb (factory_available eng) audio_other_factories = true /\
      (factory_available eng "openslessrc"
       || factory_available eng "audiotestsrc") = true
  end.

(** The calls of a first-time video block in which nothing fails, oldest
    first, when the next free element number is [n]. *)
Definition video_build_trace (n : nat) : list event :=
  [ EFactoryMake "ahcsrc" (Some "ahcsrc") (Some n);
    EFactoryMake "pipeline" (Some "pipeline") (Some (1 + n)%nat);
    EFactoryMake "queue" (Some "srcqueue") (Some (2 + n)%nat);
    EFactoryMake "capsfilter" None (Some (3 + n)%nat);
    EObjectSet (Some (3 + n)%nat) "caps"
      (VCaps "video/x-raw" [("width", 320); ("height", 240)]);
    EFactoryMake "videoconvert" None (Some (4 + n)%nat);
    EFactoryMake "openh264enc" (Some "encoder") (Some (5 + n)%nat);
    EFactoryMake "udpsink" (Some "sink") (Some (6 + n)%nat);
    EBinAddMany (Some (1 + n)%nat)
      [Some n; Some (2 + n)%nat; Some (3 + n)%nat; Some (4 + n)%nat;
       Some (5 + n)%nat; Some (6 + n)%nat];
    ELink (Some n) (Some (2 + n)%nat) true;
    EPrint "Linked ahcsrc camera with queue: OK\n";
    ELink (Some (2 + n)%nat) (Some (3 + n)%nat) true;
    EPrint "Linked queue with capsfilter: OK\n";
    ELink (Some (3 + n)%nat) (Some (4 + n)%nat) true;
    EPrint "Linked capsfilter with converter: OK\n";
    ELink (Some (4 + n)%nat) (Some (5 + n)%nat) true;
    EPrint "Linked converter with encoder: OK\n";
    ELink (Some (5 + n)%nat) (Some (6 + n)%nat) true;
    EPrint "Linked encoder with UDP sink: OK\n" ].

(** The calls that instantiate the audio stages and add them to the
    pipeline when no [g_assert] fails, oldest first; [primary] tells whether
    the engine has the capture source "openslessrc". *)
Definition audio_stage_trace (primary : bool) (n : nat) : list event :=
  if primary then
    [ EFactoryMake "pipeline" (Some "pipeline-audio") (Some n);
      EFactoryMake "openslessrc" (Some "audiosource") (Some (1 + n)%nat);
      EFactoryMake "audioconvert" (Some "audio-convert") (Some (2 + n)%nat);
      EFactoryMake "speexenc" (Some "audio-encoder") (Some (3 + n)%nat);
      EFactoryMake "udpsink" (Some "sink") (Some (4 + n)%nat);
      EBinAddMany (Some n)
        [Some (1 + n)%nat; Some (2 + n)%nat; Some (3 + n)%nat;
         Some (4 + n)%nat] ]
  else
    [ EFactoryMake "pipeline" (Some "pipeline-audio") (Some n);
      EFactoryMake "openslessrc" (Some "audiosource") None;
      EFactoryMake "audioconvert" (Some "audio-convert") (Some (1 + n)%nat);
      EFactoryMake "speexenc" (Some "audio-encoder") (Some (2 + n)%nat);
      EFactoryMake "udpsink" (Some "sink") (Some (3 + n)%nat);
      EFactoryMake "audiotestsrc" None (Some (4 + n)%nat);
      EBinAddMany (Some n)
        [Some (4 + n)%nat; Some (1 + n)%nat; Some (2 + n)%nat;
         Some (3 + n)%nat] ].

(** The address a [streamStart] call stands for. *)
Definition decoded (b0 b1 b2 b3 : Z) : bytes4 :=
  ((b0 + 128) mod 256, (b1 + 128) mod 256,
   (b2 + 128) mod 256, (b3 + 128) mod 256).

Definition octets_below_128 (a : bytes4) : Prop :=
  let '(a0, a1, a2, a3) := a in a0 < 128 /\ a1 < 128 /\ a2 < 128 /\ a3 < 128.

(** One [streamStart] call: the engine's answers during the call and the
    four bytes as transmitted. *)
Record start_call : Type := {
  call_engine : Engine;
  call_b0 : Z; call_b1 : Z; call_b2 : Z; call_b3 : Z
}.

Definition call_address (c : start_call) : bytes4 :=
  decoded (call_b0 c) (call_b1 c) (call_b2 c) (call_b3 c).

Definition run_start_call (char_signed : bool) (c : start_call) : M unit :=
  gst_native_stream_start char_signed (call_engine c)
    (call_b0 c) (call_b1 c) (call_b2 c) (call_b3 c).

(** Between [w] and [w'] the sink's port was set to 5000 and its host to the
    dotted quad of [addr], then the pipeline was asked to play, with no
    other state request around them; and [w'] has that destination. *)
Definition start_applied (w w' : world) (addr : bytes4) : Prop :=
  exists u p st pre post,
    var w' udpsink = Some u /\ var w' pipeline = Some p /\
    log w' =
      (rev (pre ++ [EObjectSet (Some u) "port" (VInt 5000);
                    EObjectSet (Some u) "host" (VString (fmt_dotted addr));
                    ESetState (Some p) GST_STATE_PLAYING st] ++ post)
       ++ log w)%list /\
    existsb is_state_request pre = false /\
    existsb is_state_request post = false /\
    destination udpsink w' = Some (VString (fmt_dotted addr), VInt 5000).

(** Every call of the sequence returns, and applies its own address. *)
Fixpoint starts_applied (char_signed : bool) (calls : list start_call)
    (w : world) : Prop :=
  match calls with
  | [] => True
  | c :: cs =>
      exists w', run_start_call char_signed c w = Ret tt w' /\
                 start_applied w w' (call_address c) /\
                 starts_applied char_signed cs w'
  end.

(** ** What the statements about the process speak of *)

(** The calls of [gst_native_finalize] for a session, in source order. *)
Definition finalize_calls : list event :=
  [EMainLoopQuit; EThreadJoin; EDeleteGlobalRef; EFree; ESetCustomData true].

Definition finalize_progress (pc : finalize_pc) : nat :=
  match pc with
  | FinNotCalled => 0
  | FinQuit => 1
  | FinJoined => 2
  | FinRefDeleted => 3
  | FinFreed => 4
  | FinReturned => 5
  end.

(** The calls of the process so far, oldest first. *)
Definition trace (s : process) : list event := rev (log (proc_world s)).

(** The thread has gone past the notification of line 176. *)
Definition past_notification (pc : thread_pc) : bool :=
  match pc with
  | AppNotified | AppRunning | AppExited => true
  | _ => false
  end.

(** What holds in every state of the process; logs are newest first. *)
Definition process_inv (s : process) : Prop :=
  filter is_finalize_call (log (proc_world s))
    = rev (firstn (finalize_progress (fin_pc s)) finalize_calls) /\
  ((2 <= finalize_progress (fin_pc s))%nat ->
   thread_ended (app_pc s) = true /\
   quiet_since_join (log (proc_world s)) = true) /\
  List.length (filter is_notification (log (proc_world s)))
    = (if past_notification (app_pc s) then 1 else 0)%nat /\
  CustomData.initialized (proc_data s) = past_notification (app_pc s) /\
  (app_pc s = AppLoopNew -> CustomData.main_loop (proc_data s) = true) /\
  video_inv (proc_world s).

(** ** Engines, calls and runs used as examples *)

(** An engine that grants everything. *)
Definition eng_ok : Engine :=
  {| factory_available := fun _ => true;
     link_accepts := fun _ _ => true;
     state_change := fun _ _ => GST_STATE_CHANGE_ASYNC;
     has_static_pad := fun _ _ => true;
     pads_compatible := fun _ _ => GST_PAD_LINK_OK |}.

(** An engine that refuses the first video link of a process that has
    created nothing yet: camera (element 0) to queue (element 2). *)
Definition eng_no_camera_link : Engine :=
  {| factory_available := fun _ => true;
     link_accepts := fun a b => negb (Nat.eqb a 0 && Nat.eqb b 2);
     state_change := fun _ _ => GST_STATE_CHANGE_ASYNC;
     has_static_pad := fun _ _ => true;
     pads_compatible := fun _ _ => GST_PAD_LINK_OK |}.

(** An engine without the audio capture source. *)
Definition eng_no_capture : Engine :=
  {| factory_available := fun f => negb (String.eqb f "openslessrc");
     link_accepts := fun _ _ => true;
     state_change := fun _ _ => GST_STATE_CHANGE_ASYNC;
     has_static_pad := fun _ _ => true;
     pads_compatible := fun _ _ => GST_PAD_LINK_OK |}.

(** The address 192.168.1.100, which is transmitted as 64, 40, 129, 228. *)
Definition scenario_address : bytes4 := (192, 168, 1, 100).

(** [streamStart] for that address, once with an engine that grants
    everything and once with one that refuses the first link; and for
    10.0.0.7. *)
Definition call_granted : start_call :=
  {| call_engine := eng_ok;
     call_b0 := 64; call_b1 := 40; call_b2 := 129; call_b3 := 228 |}.

Definition call_link_refused : start_call :=
  {| call_engine := eng_no_camera_link;
     call_b0 := 64; call_b1 := 40; call_b2 := 129; call_b3 := 228 |}.

Definition call_other_address : start_call :=
  {| call_engine := eng_ok;
     call_b0 := 138; call_b1 := 128; call_b2 := 128; call_b3 := 135 |}.

(** The state after a first [streamStart] whose first link is refused. *)
Definition after_link_refused : world :=
  world_of (run_start_call false call_link_refused initial_world).

(** Two video starts in a row, the first with its first link refused; and
    one video start that succeeds. *)
Definition after_refused_start : world :=
  world_of (start false video eng_no_camera_link scenario_address
              initial_world).

Definition after_second_start : world :=
  world_of (start false video eng_ok scenario_address after_refused_start).

Definition after_granted_start : world :=
  world_of (start false video eng_ok scenario_address initial_world).

(** A session up to the running main loop, then a video start. *)
Definition session_actions : list action :=
  [ANativeInit; AAppBuild true None; AAppLoopNew; AAppNotify; AAppRun].

Definition streaming_actions : list action :=
  (session_actions ++ [ACommand eng_ok (StreamStart 64 40 129 228)])%list.

Definition finalize_actions : list action :=
  [AFinalizeQuit; AAppLeave eng_ok; AFinalizeJoin; AFinalizeDeleteRef;
   AFinalizeFree; AFinalizeClear].

Definition after_actions (acts : list action) : process :=
  match perform_all false acts process_start with
  | Some s => s
  | None => process_start
  end.

Definition streaming_process : process := after_actions streaming_actions.

Definition finished_process : process :=
  after_actions (streaming_actions ++ finalize_actions)%list.

(** An error of the camera, posted on the bus of the video pipeline. *)
Definition camera_error : bus_message :=
  MsgError 1%nat "ahcsrc" "Could not open camera".

(** ** The JNI environment of the application thread (lines 45-92, 125-136)

    The callbacks once more, with their JNI calls written out.  The
    thread has its value of the key [current_jni_env] and may have a Java
    exception pending; the VM answers through an oracle, one per routine.
    Dereferencing a [NULL] environment is a fault. *)

Module Jni.

Definition JNIEnv : Type := nat.

(** What the thread calls, the lines of the GStreamer log included. *)
Inductive call : Type :=
| GstDebug (s : string)
| GstError (s : string)
| AttachCurrentThread (code : Z)
| DetachCurrentThread
| NewStringUTF (s : string)
| CallVoidMethod (method : string) (arg : option string)
| ExceptionCheck (pending : bool)
| ExceptionClear
| DeleteLocalRef.

(** The answers of the VM during one routine: the code of
    [AttachCurrentThread] with the environment it stores, and whether the
    Java method throws. *)
Record JavaVM : Type := {
  attach_code : Z;
  attach_env : JNIEnv;
  method_throws : bool
}.

Record thread : Type := mkThread {
  (** [pthread_getspecific (current_jni_env)] *)
  current_jni_env : option JNIEnv;
  exception_pending : bool;
  (** the calls so far, newest first *)
  calls : list call
}.

Definition new_thread : thread := mkThread None false [].

Inductive outcome (A : Type) : Type :=
| Done (a : A) (t : thread)
| Fault (t : thread).
Arguments Done {A} a t.
Arguments Fault {A} t.

Definition thread_of {A} (o : outcome A) : thread :=
  match o with Done _ t => t | Fault t => t end.

Definition record (c : call) (t : thread) : thread :=
  mkThread (current_jni_env t) (exception_pending t) (c :: calls t).

Definition pthread_setspecific (env : option JNIEnv) (t : thread) : thread :=
  mkThread env (exception_pending t) (calls t).

Definition set_pending (b : bool) (t : thread) : thread :=
  mkThread (current_jni_env t) b (calls t).

(** [attach_current_thread], lines 46-61. *)
Definition attach_current_thread (vm : JavaVM) (t : thread)
    : option JNIEnv * thread :=
  let t1 := record (GstDebug "Attaching thread %p") t in
  let t2 := record (AttachCurrentThread (attach_code vm)) t1 in
  if attach_code vm <? 0
  then (None, record (GstError "Failed to attach current thread") t2)
  else (Some (attach_env vm), t2).

(** [detach_current_thread], lines 64-67. *)
Definition detach_current_thread (t : thread) : thread :=
  record DetachCurrentThread (record (GstDebug "Detaching thread %p") t).

(** [get_jni_env], lines 70-79. *)
Definition get_jni_env (vm : JavaVM) (t : thread) : option JNIEnv * thread :=
  match current_jni_env t with
  | Some env => (Some env, t)
  | None =>
      let (env, t1) := attach_current_thread vm t in
      (env, pthread_setspecific env t1)
  end.

(** [set_ui_message], lines 82-92. *)
Definition set_ui_message (vm : JavaVM) (message : string)
    (data : CustomData.t) (t : thread) : outcome unit :=
  let (env, t1) := get_jni_env vm t in
  let t2 := record (GstDebug ("Setting message to: " ++ message)) t1 in
  match env with
  | None => Fault t2
  | Some _ =>
      let t3 := record (NewStringUTF message) t2 in
      let t4 := record (CallVoidMethod "setMessage" (Some message)) t3 in
      let t5 := set_pending (exception_pending t4 || method_throws vm) t4 in
      let t6 := record (ExceptionCheck (exception_pending t5)) t5 in
      let t7 := if exception_pending t5
                then set_pending false
                       (record ExceptionClear
                          (record (GstError "Failed to call Java method") t6))
                else t6 in
      Done tt (record DeleteLocalRef t7)
  end.

(** [check_initialization_complete], lines 125-136. *)
Definition check_initialization_complete (vm : JavaVM) (data : CustomData.t)
    (t : thread) : outcome CustomData.t :=
  let (env, t1) := get_jni_env vm t in
  if negb (CustomData.initialized data) && CustomData.main_loop data then
    let t2 :=
      record
        (GstDebug
           "Initialization complete, notifying application. main_loop:%p")
        t1 in
    match env with
    | None => Fault t2
    | Some _ =>
        let t3 := record (CallVoidMethod "onGStreamerInitialized" None) t2 in
        let t4 := set_pending (exception_pending t3 || method_throws vm) t3 in
        let t5 := record (ExceptionCheck (exception_pending t4)) t4 in
        let t6 := if exception_pending t4
                  then set_pending false
                         (record ExceptionClear
                            (record (GstError "Failed to call Java method")
                               t5))
                  else t5 in
        Done (set_initialized true data) t6
    end
  else Done data t1.

(** The end of the thread: the destructor given to [pthread_key_create]
    on line 507 is run on a value of the key that is not [NULL], after the
    value has been reset. *)
Definition thread_exit (t : thread) : thread :=
  match current_jni_env t with
  | Some _ => detach_current_thread (pthread_setspecific None t)
  | None => t
  end.

(** One use of the environment by the application thread. *)
Inductive use : Type :=
| UseMessage (vm : JavaVM) (message : string) (data : CustomData.t)
| UseNotify (vm : JavaVM) (data : CustomData.t).

(** The uses one after the other, up to a fault. *)
Fixpoint run_uses (us : list use) (t : thread) : outcome unit :=
  match us with
  | [] => Done tt t
  | UseMessage vm message data :: rest =>
      match set_ui_message vm message data t with
      | Done _ t' => run_uses rest t'
      | Fault t' => Fault t'
      end
  | UseNotify vm data :: rest =>
      match check_initialization_complete vm data t with
      | Done _ t' => run_uses rest t'
      | Fault t' => Fault t'
      end
  end.

(** An [AttachCurrentThread] that succeeded. *)
Definition attached (c : call) : bool :=
  match c with AttachCurrentThread code => negb (code <? 0) | _ => false end.

Definition is_detach (c : call) : bool :=
  match c with DetachCurrentThread => true | _ => false end.

Definition makes_ref (c : call) : bool :=
  match c with NewStringUTF _ => true | _ => false end.

Definition drops_ref (c : call) : bool :=
  match c with DeleteLocalRef => true | _ => false end.

Definition count (f : call -> bool) (t : thread) : nat :=
  List.length (filter f (calls t)).

End Jni.

(** The calls on the controller among the JNI calls, as entries of the
    log. *)
Definition controller_call (c : Jni.call) : list event :=
  match c with
  | Jni.CallVoidMethod method arg =>
      if String.eqb method "setMessage" then
        match arg with Some message => [ESetMessage message] | None => [] end
      else if String.eqb method "onGStreamerInitialized" then [EOnInitialized]
      else []
  | _ => []
  end.

Definition controller_calls (l : list Jni.call) : list event :=
  flat_map controller_call l.

(** The same use in the embedding above, where a call on the controller
    is one entry of the log. *)
Definition logged_use (u : Jni.use) : M unit :=
  match u with
  | Jni.UseMessage _ message data => set_ui_message message data
  | Jni.UseNotify _ data => check_initialization_complete data ;; ret tt
  end.

Fixpoint logged_uses (us : list Jni.use) : M unit :=
  match us with
  | [] => ret tt
  | u :: rest => logged_use u ;; logged_uses rest
  end.

(** What holds of the application thread between two uses. *)
Definition jni_inv (t : Jni.thread) : Prop :=
  Jni.exception_pending t = false /\
  Jni.count Jni.makes_ref t = Jni.count Jni.drops_ref t /\
  Jni.count Jni.is_detach t = 0%nat /\
  Jni.count Jni.attached t
    = match Jni.current_jni_env t with Some _ => 1%nat | None => 0%nat end.

(** A VM that attaches the thread, one whose Java methods throw, and one
    that refuses to attach. *)
Definition vm_ok : Jni.JavaVM :=
  {| Jni.attach_code := 0; Jni.attach_env := 7%nat;
     Jni.method_throws := false |}.

Definition vm_throwing : Jni.JavaVM :=
  {| Jni.attach_code := 0; Jni.attach_env := 7%nat;
     Jni.method_throws := true |}.

Definition vm_refusing : Jni.JavaVM :=
  {| Jni.attach_code := -1; Jni.attach_env := 0%nat;
     Jni.method_throws := false |}.

(** A thread that is refused at first while it has nothing to say, is
    attached for its notification, and reports two state changes. *)
Definition sample_uses : list Jni.use :=
  [ Jni.UseNotify vm_refusing g_new0_CustomData;
    Jni.UseNotify vm_throwing (set_main_loop true g_new0_CustomData);
    Jni.UseMessage vm_ok "State changed to READY" g_new0_CustomData;
    Jni.UseMessage vm_throwing "State changed to PAUSED" g_new0_CustomData ].

(** ** What the further statements speak of *)

(** An octet as [sprintf] prints it where plain [char] is signed. *)
Definition signed_view (a : Z) : Z := if a <? 128 then a else a - 256.

(** The pipeline kind a global belongs to. *)
Definition var_kind (x : gvar) : kind :=
  match x with
  | pipeline | camera | queue | capsfilter | videoconvert | encoder
  | udpsink => video
  | pipeline_audio | audiosource | audioconvert | speexenc
  | audioudpsink => audio
  end.

Definition other (k : kind) : kind :=
  match k with video => audio | audio => video end.

(** The global holding the transport sink of a kind, and its fixed port. *)
Definition sink_var (k : kind) : gvar :=
  match k with video => udpsink | audio => audioudpsink end.

Definition sink_port (k : kind) : Z :=
  match k with video => 5000 | audio => 5001 end.

(** The stages of a kind in the order of the globals, source first. *)
Definition stage_vars (k : kind) : list gvar :=
  match k with
  | video => [camera; queue; capsfilter; videoconvert; encoder; udpsink]
  | audio => [audiosource; audioconvert; speexenc; audioudpsink]
  end.

(** The two ends of the link attempts of a trace, in order. *)
Fixpoint link_ends (tr : list event)
    : list (option GstElement * option GstElement) :=
  match tr with
  | [] => []
  | ELink a b _ :: tr' => (a, b) :: link_ends tr'
  | _ :: tr' => link_ends tr'
  end.

(** Each element of a list with its successor. *)
Definition chain {A} (l : list A) : list (A * A) := combine l (tl l).

(** The stage lists handed to [gst_bin_add_many] in a trace. *)
Fixpoint bins_filled (tr : list event)
    : list (option GstElement * list (option GstElement)) :=
  match tr with
  | [] => []
  | EBinAddMany b els :: tr' => (b, els) :: bins_filled tr'
  | _ :: tr' => bins_filled tr'
  end.

(** The pipeline of a kind is built: flag cleared, pipeline and sink in
    place. *)
Definition built (k : kind) (w : world) : Prop :=
  first_time k w = false /\
  (exists p, var w (pipeline_var k) = Some p) /\
  (exists u, var w (sink_var k) = Some u).

(** The state after an audio start in which everything is granted. *)
Definition after_audio_start : world :=
  world_of (start false audio eng_ok scenario_address initial_world).

(** An engine that rejects every state change. *)
Definition eng_rejects_states : Engine :=
  {| factory_available := fun _ => true;
     link_accepts := fun _ _ => true;
     state_change := fun _ _ => GST_STATE_CHANGE_FAILURE;
     has_static_pad := fun _ _ => true;
     pads_compatible := fun _ _ => GST_PAD_LINK_OK |}.

(** ** What the statements about the element handles speak of *)

(** The thread has not yet called [gst_parse_launch]. *)
Definition before_launch (pc : thread_pc) : bool :=
  match pc with AppNotStarted | AppEntered => true | _ => false end.

(** The thread is between [g_main_loop_new] and the return of
    [g_main_loop_run]. *)
Definition has_loop (pc : thread_pc) : bool :=
  match pc with AppLoopNew | AppNotified | AppRunning => true | _ => false end.

(** Nothing but NULL was last requested of element [h]. *)
Definition only_null_requested (l : list event) (h : GstElement) : Prop :=
  requested_state l h = None \/ requested_state l h = Some GST_STATE_NULL.

(** The globals hold elements that exist, and nothing was requested of
    an element that does not exist yet. *)
Definition handles_bounded (w : world) : Prop :=
  (forall x h, var w x = Some h -> (h < next_element w)%nat) /\
  (forall h, (next_element w <= h)%nat -> requested_state (log w) h = None).

Definition running_is_playing (w : world) : Prop :=
  video_running w = true ->
  first_time_video w = false /\
  exists p, var w pipeline = Some p /\
            requested_state (log w) p = Some GST_STATE_PLAYING.

(** What holds of the elements in every state of the process: the
    pipeline of [CustomData] is none of the globals' elements, only its
    bus is watched, and the main loop exists while the thread is at it. *)
Definition handles_inv (s : process) : Prop :=
  let w := proc_world s in
  let d := proc_data s in
  handles_bounded w /\
  running_is_playing w /\
  (forall h, CustomData.pipeline d = Some h ->
     (h < next_element w)%nat /\ (forall x, var w x <> Some h) /\
     only_null_requested (log w) h) /\
  (forall h, proc_watch s = Some h -> CustomData.pipeline d = Some h) /\
  (before_launch (app_pc s) = true ->
     CustomData.pipeline d = None /\ proc_watch s = None) /\
  (has_loop (app_pc s) = true -> CustomData.main_loop d = true) /\
  (app_pc s = AppRunning -> fin_pc s = FinNotCalled ->
     loop_running s = true).

(** The thread has launched its pipeline and is not yet inside
    [g_main_loop_run]. *)
Definition early_quit (pc : thread_pc) : bool :=
  match pc with
  | AppBuilt | AppLoopNew | AppNotified => true
  | _ => false
  end.


(** The command came back, no [g_assert] failed. *)
Definition returned {A} (r : result A) : bool :=
  match r with Ret _ _ => true | Abort _ => false end.

(** What the controller is told about a message on the watched bus of
    pipeline [session]. *)
Definition ui_text (session : GstElement) (msg : bus_message) : list string :=
  match msg with
  | MsgError _ src_name err_message =>
      ["Error received from element " ++ src_name ++ ": " ++ err_message]
  | MsgStateChanged src _ new_state _ =>
      if Nat.eqb session src
      then ["State changed to " ++ gst_element_state_get_name new_state]
      else []
  | MsgOther _ => []
  end.

(** The main loop taking the messages of [traffic] from the bus of
    [session], one after the other. *)
Definition deliveries (session : GstElement)
    (traffic : list (Engine * bus_message)) : list action :=
  map (fun em => AAppDispatch (fst em) session (snd em)) traffic.

(** A state change of a child, one of the pipeline, another message, and
    an error of a child. *)
Definition sample_traffic : list (Engine * bus_message) :=
  [ (eng_ok, MsgStateChanged 5%nat GST_STATE_NULL GST_STATE_READY
               GST_STATE_VOID_PENDING);
    (eng_ok, MsgStateChanged 0%nat GST_STATE_NULL GST_STATE_READY
               GST_STATE_VOID_PENDING);
    (eng_ok, MsgOther 0%nat);
    (eng_ok, MsgError 5%nat "autoaudiosink0" "Could not open audio device") ].

(** A bus gets a watch, or a handler is connected to a signal. *)
Definition is_connection (e : event) : bool :=
  match e with
  | EBusWatch _ | ESignalConnect _ _ => true
  | _ => false
  end.

(** The thread has got past the launch of its pipeline. *)
Definition watching (pc : thread_pc) : bool :=
  match pc with
  | AppBuilt | AppLoopNew | AppNotified | AppRunning | AppExited => true
  | _ => false
  end.

(** Lines 165-170 for pipeline [p]. *)
Definition session_connections (p : option GstElement) : list event :=
  [ EBusWatch p;
    ESignalConnect p "message::error";
    ESignalConnect p "message::state-changed" ].

(** What holds of the connections and of the audio globals in every state
    of the process. *)
Definition wiring_inv (s : process) : Prop :=
  filter is_connection (log (proc_world s))
    = (if watching (app_pc s)
       then rev (session_connections (CustomData.pipeline (proc_data s)))
       else []) /\
  first_time_audio (proc_world s) = true /\
  forall x, var_kind x = audio -> var (proc_world s) x = None.

(** The host or the port of an object is set. *)
Definition is_destination_set (e : event) : bool :=
  match e with
  | EObjectSet _ prop _ => String.eqb prop "host" || String.eqb prop "port"
  | _ => false
  end.

Definition is_refused_link (e : event) : bool :=
  match e with ELink _ _ false => true | _ => false end.

(** ** The process with all its sessions *)

(** A Session Context: the [CustomData] of one [gst_native_init] and the
    thread created for it. *)
Record session : Type := mkSession {
  sess_data : CustomData.t;
  (** [g_free (data)] has been called *)
  sess_freed : bool;
  (** the pipeline whose bus the thread's main loop watches *)
  sess_watch : option GstElement;
  sess_loop_running : bool;
  sess_pc : thread_pc;
  sess_jni : Jni.thread
}.

Definition new_session : session :=
  mkSession (CustomData.mk true None false false false) false None false
    AppEntered Jni.new_thread.

(** What an application thread does next. *)
Inductive thread_action : Type :=
| TBuild (launched : bool) (error : option string) (vm : Jni.JavaVM)
| TLoopNew
| TNotify (vm : Jni.JavaVM)
| TRun
| TDispatch (eng : Engine) (vm : Jni.JavaVM) (bus : GstElement)
    (msg : bus_message)
| TLeave (eng : Engine).

Inductive thread_outcome : Type :=
| Stepped (sess : session) (w : world)
| Faulted (sess : session) (w : world)
| Waiting.

Definition with_jni (t : Jni.thread) (sess : session) : session :=
  mkSession (sess_data sess) (sess_freed sess) (sess_watch sess)
    (sess_loop_running sess) (sess_pc sess) t.

(** A callback's [set_ui_message (message, data)] on the thread of
    [sess], followed by [rest]. *)
Definition tell_controller (vm : Jni.JavaVM) (message : string)
    (sess : session) (w : world) (rest : world -> world) : thread_outcome :=
  match Jni.set_ui_message vm message (sess_data sess) (sess_jni sess) with
  | Jni.Done _ t => Stepped (with_jni t sess) (rest w)
  | Jni.Fault t => Faulted (with_jni t sess) w
  end.

(** A piece of [app_function] (lines 139-189) run by the thread of [sess],
    with the callbacks of lines 95-136 at the level of their JNI calls. *)
Definition thread_step (a : thread_action) (sess : session) (w : world)
    : thread_outcome :=
  let d := sess_data sess in
  match a, sess_pc sess with
  | TBuild launched error vm, AppEntered =>
      (* lines 146-171 *)
      let desc :=
        "audiotestsrc ! audioconvert ! audioresample ! autoaudiosink" in
      let p := if launched then Some (next_element w) else None in
      let w1 := emit (EParseLaunch desc p error)
                  (emit (EDebug "Creating pipeline in CustomData at %p")
                     (if launched then alloc w else w)) in
      let d1 := CustomData.mk (CustomData.app d) p true
                  (CustomData.main_loop d) (CustomData.initialized d) in
      match error with
      | Some err_message =>
          match Jni.set_ui_message vm
                  ("Unable to build pipeline: " ++ err_message) d1
                  (sess_jni sess) with
          | Jni.Done _ t =>
              Stepped (mkSession d1 (sess_freed sess) (sess_watch sess)
                         (sess_loop_running sess) AppFailed
                         (Jni.thread_exit t)) w1
          | Jni.Fault t =>
              Faulted (mkSession d1 (sess_freed sess) (sess_watch sess)
                         (sess_loop_running sess) AppEntered t) w1
          end
      | None =>
          Stepped (mkSession d1 (sess_freed sess) p (sess_loop_running sess)
                     AppBuilt (sess_jni sess))
            (emits [EBusWatch p;
                    ESignalConnect p "message::error";
                    ESignalConnect p "message::state-changed"] w1)
      end
  | TLoopNew, AppBuilt =>
      (* lines 174-175 *)
      Stepped (mkSession (set_main_loop true d) (sess_freed sess)
                 (sess_watch sess) false AppLoopNew (sess_jni sess))
        (emits [EDebug "Entering main loop... (CustomData:%p)";
                EMainLoopNew] w)
  | TNotify vm, AppLoopNew =>
      (* line 176 *)
      match Jni.check_initialization_complete vm d (sess_jni sess) with
      | Jni.Done d' t =>
          Stepped (mkSession d' (sess_freed sess) (sess_watch sess)
                     (sess_loop_running sess) AppNotified t) w
      | Jni.Fault t => Faulted (with_jni t sess) w
      end
  | TRun, AppNotified =>
      (* line 177: [g_main_loop_run] marks the loop as running *)
      Stepped (mkSession d (sess_freed sess) (sess_watch sess) true
                 AppRunning (sess_jni sess))
        (emit EMainLoopRun w)
  | TDispatch eng vm bus msg, AppRunning =>
      (* one message taken from a bus inside [g_main_loop_run] *)
      if sess_loop_running sess then
        if opt_is (sess_watch sess) bus then
          match msg with
          | MsgError _ src_name err_message =>
              (* [error_cb], lines 95-108 *)
              tell_controller vm
                ("Error received from element " ++ src_name ++ ": "
                 ++ err_message) sess w
                (emit (ESetState (CustomData.pipeline d) GST_STATE_NULL
                         (state_answer eng (CustomData.pipeline d)
                            GST_STATE_NULL)))
          | MsgStateChanged src _ new_state _ =>
              (* [state_changed_cb], lines 111-121 *)
              if opt_is (CustomData.pipeline d) src
              then tell_controller vm
                     ("State changed to "
                      ++ gst_element_state_get_name new_state) sess w
                     (fun w0 => w0)
              else Stepped sess w
          | MsgOther _ => Stepped sess w
          end
        else Stepped sess w
      else Waiting
  | TLeave eng, AppRunning =>
      (* lines 178-188, once the loop has been quit; the thread ends *)
      if sess_loop_running sess then Waiting
      else
        Stepped (mkSession (set_main_loop false d) (sess_freed sess)
                   (sess_watch sess) (sess_loop_running sess) AppExited
                   (Jni.thread_exit (sess_jni sess)))
          (emit (ESetState (CustomData.pipeline d) GST_STATE_NULL
                   (state_answer eng (CustomData.pipeline d) GST_STATE_NULL))
             (emits [EDebug "Exited main loop"; EMainLoopUnref] w))
  | _, _ => Waiting
  end.

(** A call of the dynamic-link handler: the lookup, the link or the
    release of a pad. *)
Definition is_pad_call (e : event) : bool :=
  match e with
  | EGetStaticPad _ _ _ | EPadLink _ _ _ | EUnref _ => true
  | _ => false
  end.

(** A handler has been connected to [signal] of element [el]. *)
Definition connected (l : list event) (el : GstElement) (signal : string)
    : bool :=
  existsb (fun e => match e with
                    | ESignalConnect o sig =>
                        opt_is o el && String.eqb sig signal
                    | _ => false
                    end) l.

(** The engine announces a new pad of [element]: the handlers connected
    to its "pad-added" signal are called.  [on_pad_added] is the one
    function of the program with the signature of such a handler; its
    data would be the encoder. *)
Definition pad_added (eng : Engine) (element : GstElement) (pad : GstPad)
    : M unit :=
  fun w =>
    if connected (log w) element "pad-added"
    then on_pad_added eng element pad (var w encoder) w
    else Ret tt w.

(** One call of [gst_native_finalize] that has found a session. *)
Record finalizer : Type := mkFinalizer {
  (** the controller object of the call *)
  fin_thiz : nat;
  (** [data], read from its native field on line 425 *)
  fin_data : nat;
  (** [gst_app_thread], as handed to [pthread_join] on line 430 *)
  fin_thread : nat;
  fin_at : finalize_pc
}.

(** The process: the globals and the log, the sessions in the order of
    their creation (a session is named by its place), the native field of
    every controller object, [gst_app_thread], and the calls of
    [gst_native_finalize] in the order of their arrival. *)
Record system : Type := mkSystem {
  sys_world : world;
  sys_sessions : list session;
  sys_field : nat -> option nat;
  sys_app_thread : option nat;
  sys_finalizers : list finalizer;
  (** a [NULL] environment was dereferenced or a [g_assert] failed *)
  sys_crashed : bool
}.

Definition sys_start : system :=
  mkSystem initial_world [] (fun _ => None) None [] false.

Inductive sys_action : Type :=
| SInit (thiz : nat)
| SThread (i : nat) (a : thread_action)
| SCommand (eng : Engine) (c : command)
| SPadAdded (eng : Engine) (element : GstElement) (pad : GstPad)
| SFinalize (thiz : nat)
| SFinalizer (k : nat).

Fixpoint update_nth {A} (i : nat) (x : A) (l : list A) : list A :=
  match l, i with
  | [], _ => []
  | _ :: r, O => x :: r
  | y :: r, S j => y :: update_nth j x r
  end.

Definition set_field (thiz : nat) (v : option nat)
    (field : nat -> option nat) : nat -> option nat :=
  fun o => if Nat.eqb o thiz then v else field o.

(** [g_main_loop_quit (data->main_loop)]; nothing happens on a [NULL]
    loop. *)
Definition quit_loop (sess : session) : session :=
  mkSession (sess_data sess) (sess_freed sess) (sess_watch sess)
    (if CustomData.main_loop (sess_data sess) then false
     else sess_loop_running sess)
    (sess_pc sess) (sess_jni sess).

Definition free_session (sess : session) : session :=
  mkSession (sess_data sess) true (sess_watch sess) (sess_loop_running sess)
    (sess_pc sess) (sess_jni sess).

Definition at_pc (pc : finalize_pc) (f : finalizer) : finalizer :=
  mkFinalizer (fin_thiz f) (fin_data f) (fin_thread f) pc.

Section System.

Variable char_signed : bool.

(** The state after the action, or [None] when the action cannot be taken
    there: the process is dead, it is not that thread's turn, or
    [pthread_join] is still waiting. *)
Definition sys_perform (a : sys_action) (s : system) : option system :=
  let w := sys_world s in
  if sys_crashed s then None else
  match a with
  | SInit thiz =>
      (* [gst_native_init], lines 412-421 *)
      let n := List.length (sys_sessions s) in
      Some (mkSystem
              (emits [ESetCustomData false;
                      EDebug "Created CustomData at %p";
                      ENewGlobalRef;
                      EDebug "Created GlobalRef for app object at %p";
                      EThreadCreate] w)
              (sys_sessions s ++ [new_session])
              (set_field thiz (Some n) (sys_field s))
              (Some n) (sys_finalizers s) false)
  | SThread i a =>
      match nth_error (sys_sessions s) i with
      | Some sess =>
          match thread_step a sess w with
          | Stepped sess' w' =>
              Some (mkSystem w' (update_nth i sess' (sys_sessions s))
                      (sys_field s) (sys_app_thread s) (sys_finalizers s)
                      false)
          | Faulted sess' w' =>
              Some (mkSystem w' (update_nth i sess' (sys_sessions s))
                      (sys_field s) (sys_app_thread s) (sys_finalizers s)
                      true)
          | Waiting => None
          end
      | None => None
      end
  | SCommand eng c =>
      match run_command char_signed eng c w with
      | Ret _ w' =>
          Some (mkSystem w' (sys_sessions s) (sys_field s)
                  (sys_app_thread s) (sys_finalizers s) false)
      | Abort w' =>
          Some (mkSystem w' (sys_sessions s) (sys_field s)
                  (sys_app_thread s) (sys_finalizers s) true)
      end
  | SPadAdded eng element pad =>
      (* an element of some pipeline gets a new pad *)
      match pad_added eng element pad w with
      | Ret _ w' =>
          Some (mkSystem w' (sys_sessions s) (sys_field s)
                  (sys_app_thread s) (sys_finalizers s) false)
      | Abort w' =>
          Some (mkSystem w' (sys_sessions s) (sys_field s)
                  (sys_app_thread s) (sys_finalizers s) true)
      end
  | SFinalize thiz =>
      (* [gst_native_finalize] up to its call of [pthread_join],
         lines 424-430; without a session the call returns at once *)
      match sys_field s thiz with
      | None => Some s
      | Some i =>
          match nth_error (sys_sessions s) i, sys_app_thread s with
          | Some sess, Some t =>
              Some (mkSystem
                      (emits [EDebug "Quitting main loop...";
                              EMainLoopQuit;
                              EDebug "Waiting for thread to finish..."] w)
                      (update_nth i (quit_loop sess) (sys_sessions s))
                      (sys_field s) (sys_app_thread s)
                      (sys_finalizers s ++ [mkFinalizer thiz i t FinQuit])
                      false)
          | _, _ => None
          end
      end
  | SFinalizer k =>
      match nth_error (sys_finalizers s) k with
      | Some f =>
          match fin_at f with
          | FinQuit =>
              (* line 430: [pthread_join] returns once that thread has
                 ended *)
              match nth_error (sys_sessions s) (fin_thread f) with
              | Some joined =>
                  if thread_ended (sess_pc joined)
                  then Some (mkSystem (emit EThreadJoin w) (sys_sessions s)
                               (sys_field s) (sys_app_thread s)
                               (update_nth k (at_pc FinJoined f)
                                  (sys_finalizers s))
                               false)
                  else None
              | None => None
              end
          | FinJoined =>
              (* lines 431-432 *)
              Some (mkSystem
                      (emits [EDebug "Deleting GlobalRef for app object at %p";
                              EDeleteGlobalRef] w)
                      (sys_sessions s) (sys_field s) (sys_app_thread s)
                      (update_nth k (at_pc FinRefDeleted f) (sys_finalizers s))
                      false)
          | FinRefDeleted =>
              (* lines 433-434 *)
              match nth_error (sys_sessions s) (fin_data f) with
              | Some sess =>
                  Some (mkSystem
                          (emits [EDebug "Freeing CustomData at %p"; EFree] w)
                          (update_nth (fin_data f) (free_session sess)
                             (sys_sessions s))
                          (sys_field s) (sys_app_thread s)
                          (update_nth k (at_pc FinFreed f) (sys_finalizers s))
                          false)
              | None => None
              end
          | FinFreed =>
              (* lines 435-436 *)
              Some (mkSystem
                      (emits [ESetCustomData true; EDebug "Done finalizing"] w)
                      (sys_sessions s)
                      (set_field (fin_thiz f) None (sys_field s))
                      (sys_app_thread s)
                      (update_nth k (at_pc FinReturned f) (sys_finalizers s))
                      false)
          | _ => None
          end
      | None => None
      end
  end.

(** Any number of steps whose actions pass [allowed]. *)
Inductive sys_run (allowed : sys_action -> bool) : system -> system -> Prop :=
| sys_run_refl (s : system) : sys_run allowed s s
| sys_run_step (s1 s2 s3 : system) (a : sys_action) :
    sys_run allowed s1 s2 -> allowed a = true ->
    sys_perform a s2 = Some s3 -> sys_run allowed s1 s3.

Definition sys_steps : system -> system -> Prop := sys_run (fun _ => true).

Definition sys_reachable (s : system) : Prop := sys_steps sys_start s.

Fixpoint sys_perform_all (acts : list sys_action) (s : system)
    : option system :=
  match acts with
  | [] => Some s
  | a :: rest =>
      match sys_perform a s with
      | Some s' => sys_perform_all rest s'
      | None => None
      end
  end.

End System.

Definition sys_after (acts : list sys_action) : system :=
  match sys_perform_all false acts sys_start with
  | Some s => s
  | None => sys_start
  end.

(** The notifications a session's thread has made. *)
Definition is_notify_call (c : Jni.call) : bool :=
  match c with
  | Jni.CallVoidMethod method _ => String.eqb method "onGStreamerInitialized"
  | _ => false
  end.

Definition is_controller_call (c : Jni.call) : bool :=
  match c with Jni.CallVoidMethod _ _ => true | _ => false end.

Definition notifications (sess : session) : nat :=
  Jni.count is_notify_call (sess_jni sess).

(** The sessions whose launch has succeeded. *)
Definition has_launched (sess : session) : bool :=
  watching (sess_pc sess).

(** The connections a session has made: the three of lines 165-170 on
    its own pipeline once its launch has succeeded. *)
Definition connections_of (sess : session) : list event :=
  if has_launched sess
  then session_connections (CustomData.pipeline (sess_data sess))
  else [].

(** One session from its start to the return of its finalize call, with
    a [streamStart] and a new pad of the camera on the way. *)
Definition one_session : list sys_action :=
  [ SInit 0; SThread 0 (TBuild true None vm_ok); SThread 0 TLoopNew;
    SThread 0 (TNotify vm_ok); SThread 0 TRun;
    SCommand eng_ok (StreamStart 64 40 129 228);
    SPadAdded eng_ok 1 (1, "src_0");
    SFinalize 0; SThread 0 (TLeave eng_ok);
    SFinalizer 0; SFinalizer 0; SFinalizer 0; SFinalizer 0 ]%nat.

(** The same controller object starts a second session. *)
Definition second_session : list sys_action :=
  [ SInit 0; SThread 1 (TBuild true None vm_ok) ]%nat.

Definition two_sessions : list sys_action :=
  (one_session ++ second_session)%list.

(** A session whose launch fails, finalized. *)
Definition failed_launch : list sys_action :=
  [ SInit 0;
    SThread 0 (TBuild false (Some "no element audiotestsrc") vm_ok);
    SFinalize 0;
    SFinalizer 0; SFinalizer 0; SFinalizer 0; SFinalizer 0 ]%nat.

(** How the session at place [i] can differ after action [a]. *)
Inductive session_change (a : sys_action) (i : nat) (w : world)
    (sess sess' : session) : Prop :=
| change_none : sess' = sess -> session_change a i w sess sess'
| change_quit (thiz : nat) :
    a = SFinalize thiz -> sess' = quit_loop sess ->
    session_change a i w sess sess'
| change_free (k : nat) :
    a = SFinalizer k -> sess' = free_session sess ->
    session_change a i w sess sess'
| change_step (ta : thread_action) (w' : world) :
    a = SThread i ta -> thread_step ta sess w = Stepped sess' w' ->
    session_change a i w sess sess'
| change_fault (ta : thread_action) (w' : world) :
    a = SThread i ta -> thread_step ta sess w = Faulted sess' w' ->
    session_change a i w sess sess'.

Definition session_ok (sess : session) : Prop :=
  notifications sess
    = (if past_notification (sess_pc sess) then 1 else 0)%nat /\
  CustomData.initialized (sess_data sess) = past_notification (sess_pc sess) /\
  (sess_pc sess = AppLoopNew ->
   CustomData.main_loop (sess_data sess) = true).

(** The thread that a call of [gst_native_finalize] has joined has ended. *)
Definition joined_inv (s : system) : Prop :=
  forall k f,
    nth_error (sys_finalizers s) k = Some f ->
    (2 <= finalize_progress (fin_at f))%nat ->
    exists sess,
      nth_error (sys_sessions s) (fin_thread f) = Some sess /\
      thread_ended (sess_pc sess) = true.

(** Two controller objects.  The session of object 0 has launched its
    pipeline; then object 1 starts a session whose launch fails, so that
    its thread ends; then object 0 is finalized. *)
Definition overlapping_sessions : list sys_action :=
  [ SInit 0; SThread 0 (TBuild true None vm_ok);
    SInit 1;
    SThread 1 (TBuild false (Some "no element audiotestsrc") vm_ok);
    SFinalize 0;
    SFinalizer 0; SFinalizer 0; SFinalizer 0; SFinalizer 0 ]%nat.

(** What the thread of the first session does after that. *)
Definition freed_session_goes_on : list sys_action :=
  [ SThread 0 TLoopNew; SThread 0 (TNotify vm_ok); SThread 0 TRun;
    SThread 0
      (TDispatch eng_ok vm_ok 0
         (MsgStateChanged 0 GST_STATE_NULL GST_STATE_READY
            GST_STATE_VOID_PENDING)) ]%nat.

Definition controller_calls_of (s : system) (i : nat) : list Jni.call :=
  match nth_error (sys_sessions s) i with
  | Some sess => rev (filter is_controller_call (Jni.calls (sess_jni sess)))
  | None => []
  end.

Definition not_finalize_call (a : sys_action) : bool :=
  match a with SFinalize _ => false | _ => true end.

(** The call [k] of [gst_native_finalize] is at its [pthread_join] for
    the thread of session [i], which is on its way into the main loop, or
    in it with the loop running. *)
Definition join_waits (k i : nat) (s : system) : Prop :=
  exists f sess,
    nth_error (sys_finalizers s) k = Some f /\
    fin_at f = FinQuit /\ fin_thread f = i /\
    nth_error (sys_sessions s) i = Some sess /\
    (early_quit (sess_pc sess) = true \/
     (sess_pc sess = AppRunning /\ sess_loop_running sess = true)).

Definition early_finalize : list sys_action :=
  [SInit 0; SThread 0 (TBuild true None vm_ok)]%nat.

Definition thread_goes_on : list sys_action :=
  [ SThread 0 TLoopNew; SThread 0 (TNotify vm_ok); SThread 0 TRun;
    SCommand eng_ok (StreamStart 64 40 129 228) ]%nat.

Definition early_finalized : system :=
  sys_after (early_finalize ++ [SFinalize 0%nat]).

Definition early_finalized_later : system :=
  sys_after (early_finalize ++ [SFinalize 0%nat] ++ thread_goes_on).

(** What the log says of the connections and of the handler for new
    pads. *)
Definition connections_inv (s : system) : Prop :=
  existsb is_pad_call (log (sys_world s)) = false /\
  Permutation (filter is_connection (log (sys_world s)))
              (flat_map connections_of (sys_sessions s)).

(** * Properties *)

Lemma read_char_unsigned (b : Z) :
  0 <= b < 256 -> read_char false b = b.
Proof. intros H. unfold read_char. apply Z.mod_small. exact H. Qed.

Lemma read_char_low (sgn : bool) (b : Z) :
  0 <= b < 128 -> read_char sgn b = b.
Proof.
  intros H. unfold read_char. destruct sgn.
  - rewrite Z.mod_small by lia. lia.
  - apply Z.mod_small. lia.
Qed.

Lemma read_char_decoded (sgn : bool) (b0 b1 b2 b3 : Z) :
  sgn = false \/ octets_below_128 (decoded b0 b1 b2 b3) ->
  map4 (read_char sgn) (decoded b0 b1 b2 b3) = decoded b0 b1 b2 b3.
Proof.
  intros H. unfold decoded in *. cbn [map4 octets_below_128] in *.
  assert (B : forall b, 0 <= (b + 128) mod 256 < 256)
    by (intros b; apply Z.mod_pos_bound; lia).
  destruct H as [-> | (H0 & H1 & H2 & H3)].
  - rewrite !read_char_unsigned by apply B. reflexivity.
  - pose proof (B b0). pose proof (B b1). pose proof (B b2). pose proof (B b3).
    rewrite !read_char_low by lia. reflexivity.
Qed.

Ltac open_world w :=
  destruct w as [ftv fta vr vars nxt prs lg].

Ltac run :=
  cbv [video_start video_build audio_start audio_build video_stop audio_stop
       gst_native_stream_start gst_native_stream_stop
       bind ret read assign do_emit g_print GST_DEBUG g_assert g_object_set
       gst_bin_add_many gst_element_link gst_element_set_state state_answer
       gst_pipeline_new gst_element_factory_make is_null
       set_var set_first_time_video set_first_time_audio set_video_running
       emit alloc
       first_time_video first_time_audio video_running var next_element
       peers log gvar_eqb].

(** Follow every path of a command: split on each answer of the engine. *)
Ltac split_answers :=
  repeat match goal with
         | |- context [if negb ?b then _ else _] =>
             destruct b eqn:?; cbn [negb]; cbv beta iota
         | |- context [if ?b then _ else _] =>
             destruct b eqn:?; cbv beta iota
         end.

Ltac paths := run; split_answers.

(** Rewrite with the answers of the engine that are known. *)
Ltac use_answers :=
  repeat match goal with
         | H : link_accepts _ _ _ = _ |- _ => rewrite H
         | H : factory_available _ _ = _ |- _ => rewrite H
         end.

Lemma video_build_ok (eng : Engine) (w : world) :
  builds_video eng w ->
  exists w',
    video_build eng w = Ret None w' /\
    first_time_video w' = false /\
    var w' pipeline = Some (1 + next_element w)%nat /\
    var w' udpsink = Some (6 + next_element w)%nat /\
    log w' = (rev (video_build_trace (next_element w)) ++ log w)%list.
Proof.
  intros [Hf Hl]. open_world w.
  cbn [forallb video_factories] in Hf.
  cbn [forallb video_link_pairs next_element fst snd Nat.add] in Hl.
  repeat (apply andb_prop in Hf; destruct Hf as [? Hf]).
  repeat (apply andb_prop in Hl; destruct Hl as [? Hl]).
  eexists. split.
  - run. use_answers. cbn [negb]. cbv beta iota. reflexivity.
  - cbv [first_time_video var log next_element gvar_eqb video_build_trace
         Nat.add rev app].
    repeat (match goal with |- _ /\ _ => split end); reflexivity.
Qed.

Lemma video_start_built (sgn : bool) (eng : Engine) (arg : bytes4)
    (w : world) (u p : GstElement) :
  first_time_video w = false ->
  var w udpsink = Some u ->
  var w pipeline = Some p ->
  video_start sgn eng arg w =
    let st := state_change eng p GST_STATE_PLAYING in
    let host := VString (fmt_dotted (map4 (read_char sgn) arg)) in
    let w1 := emit (ESetState (Some p) GST_STATE_PLAYING st)
               (emit (EObjectSet (Some u) "host" host)
                 (emit (EObjectSet (Some u) "port" (VInt 5000)) w)) in
    if truthy st
    then Ret 0 (set_video_running true
                 (emit (EPrint "Video pipeline state set to playing: OK\n") w1))
    else Ret (-1) (emit (EDebug "Failed to start up video pipeline!\n") w1).
Proof.
  intros Hf Hu Hp. open_world w. cbn in Hf, Hu, Hp. subst ftv.
  run. rewrite Hu, Hp. cbn.
  destruct (state_change eng p GST_STATE_PLAYING); reflexivity.
Qed.

Lemma video_start_first_time (sgn : bool) (eng : Engine) (arg : bytes4)
    (w w1 : world) :
  first_time_video w = true ->
  video_build eng w = Ret None w1 ->
  first_time_video w1 = false ->
  video_start sgn eng arg w = video_start sgn eng arg w1.
Proof.
  intros Hf Hb Hf1. unfold video_start, bind. rewrite Hf, Hb, Hf1.
  reflexivity.
Qed.

Lemma stream_start_unfold (sgn : bool) (eng : Engine) (b0 b1 b2 b3 : Z)
    (w : world) :
  gst_native_stream_start sgn eng b0 b1 b2 b3 w =
    match video_start sgn eng (decoded b0 b1 b2 b3)
            (emit (EPrint ("receiver IP: "
                           ++ fmt_dotted (decoded b0 b1 b2 b3) ++ "\n")) w) with
    | Ret r w1 =>
        Ret tt (emit (EDebug "my pipeline streaming started")
                 (emit (EPrint ("stream_start: "
                                ++ (if 0 <? r then "OK" else "NOT OK")
                                ++ "\n")) w1))
    | Abort w1 => Abort w1
    end.
Proof.
  unfold gst_native_stream_start, bind, g_print, GST_DEBUG, do_emit, decoded,
    to_uchar.
  destruct (video_start _ _ _ _); reflexivity.
Qed.

(** The video start routine returns 0 or -1, never a positive value. *)
Lemma video_start_result (sgn : bool) (eng : Engine) (arg : bytes4)
    (w w' : world) (r : Z) :
  video_start sgn eng arg w = Ret r w' -> r = 0 \/ r = -1.
Proof.
  open_world w. paths; intros [= <- <-]; auto.
Qed.

(** A call that gets past the first-time block runs the rest of
    [video_start] in a state where the pipeline is built; the block adds no
    state request. *)
Lemma video_start_gate (sgn : bool) (eng : Engine) (arg : bytes4) (w : world) :
  video_inv w -> passes_video_build eng w ->
  exists w1 u p tr,
    first_time_video w1 = false /\
    var w1 udpsink = Some u /\ var w1 pipeline = Some p /\
    log w1 = (rev tr ++ log w)%list /\
    existsb is_state_request tr = false /\
    video_start sgn eng arg w = video_start sgn eng arg w1.
Proof.
  intros Hinv Hpass. destruct (first_time_video w) eqn:Hf.
  - destruct Hpass as [Hc | Hb]; [congruence|].
    destruct (video_build_ok eng w Hb) as (w1 & Eb & Hf1 & Hp & Hu & Hl).
    exists w1, (6 + next_element w)%nat, (1 + next_element w)%nat,
      (video_build_trace (next_element w)).
    repeat split; auto.
    apply video_start_first_time; assumption.
  - destruct (Hinv Hf) as (_ & (p & Hp) & (u & Hu)).
    exists w, u, p, []. repeat split; auto.
Qed.

Lemma property_skip (e : event) (l : list event) (u : GstElement)
    (k : string) :
  (forall o p v, e <> EObjectSet o p v) ->
  property (e :: l) u k = property l u k.
Proof.
  intros H. destruct e; try reflexivity. exfalso. eapply H. reflexivity.
Qed.

Lemma property_past (post l : list event) (u : GstElement) (k : string) :
  (forall e, In e post -> forall o p v, e <> EObjectSet o p v) ->
  property (post ++ l) u k = property l u k.
Proof.
  induction post as [|e post IH]; intros H; [reflexivity|].
  rewrite <- app_comm_cons, property_skip.
  - apply IH. intros e' He'. apply H. right. exact He'.
  - apply H. left. reflexivity.
Qed.

Lemma start_applied_intro (w w1 w' : world) (u p : GstElement)
    (st : GstStateChangeReturn) (addr : bytes4) (recv : event)
    (tr post : list event) :
  var w' udpsink = Some u -> var w' pipeline = Some p ->
  log w1 = (rev tr ++ recv :: log w)%list ->
  is_state_request recv = false ->
  existsb is_state_request tr = false ->
  existsb is_state_request post = false ->
  (forall e, In e post -> forall o k v, e <> EObjectSet o k v) ->
  log w' = (rev post
            ++ ESetState (Some p) GST_STATE_PLAYING st
            :: EObjectSet (Some u) "host" (VString (fmt_dotted addr))
            :: EObjectSet (Some u) "port" (VInt 5000) :: log w1)%list ->
  start_applied w w' addr.
Proof.
  intros Hu Hp Hl Hr Htr Hpost Hset Hl'.
  exists u, p, st, (recv :: tr), post. repeat split; try assumption.
  - rewrite Hl', Hl. cbn [rev app].
    rewrite ?rev_app_distr. cbn [rev app].
    rewrite <- ?app_assoc. cbn [app]. reflexivity.
  - cbn [existsb]. rewrite Hr, Htr. reflexivity.
  - unfold destination. rewrite Hu, Hl'.
    rewrite !property_past
      by (intros e He; apply Hset; apply in_rev; exact He).
    cbn [property opt_is]. rewrite Nat.eqb_refl. reflexivity.
Qed.

Lemma stream_start_applies (sgn : bool) (eng : Engine) (b0 b1 b2 b3 : Z)
    (w : world) :
  video_inv w -> passes_video_build eng w ->
  sgn = false \/ octets_below_128 (decoded b0 b1 b2 b3) ->
  exists w',
    gst_native_stream_start sgn eng b0 b1 b2 b3 w = Ret tt w' /\
    start_applied w w' (decoded b0 b1 b2 b3) /\
    video_built w'.
Proof.
  intros Hinv Hpass Hchar.
  set (recv := EPrint ("receiver IP: "
                       ++ fmt_dotted (decoded b0 b1 b2 b3) ++ "\n")).
  destruct (video_start_gate sgn eng (decoded b0 b1 b2 b3) (emit recv w))
    as (w1 & u & p & tr & Hf1 & Hu & Hp & Hl & Hno & E).
  { exact Hinv. } { exact Hpass. }
  rewrite stream_start_unfold. fold recv. rewrite E.
  rewrite (video_start_built sgn eng _ w1 u p Hf1 Hu Hp).
  rewrite (read_char_decoded sgn b0 b1 b2 b3 Hchar).
  cbv zeta.
  set (st := state_change eng p GST_STATE_PLAYING).
  destruct (truthy st); cbn [Z.ltb Z.compare]; eexists; (split; [reflexivity|]);
    (split; [| repeat split; eauto]).
  - eapply start_applied_intro
      with (recv := recv) (tr := tr) (st := st)
           (post := [EPrint "Video pipeline state set to playing: OK\n";
                     EPrint "stream_start: NOT OK\n";
                     EDebug "my pipeline streaming started"]);
      try eassumption; try reflexivity.
    intros e He o k v. cbn in He.
    repeat (destruct He as [<- | He]; [discriminate|]). destruct He.
  - eapply start_applied_intro
      with (recv := recv) (tr := tr) (st := st)
           (post := [EDebug "Failed to start up video pipeline!\n";
                     EPrint "stream_start: NOT OK\n";
                     EDebug "my pipeline streaming started"]);
      try eassumption; try reflexivity.
    intros e He o k v. cbn in He.
    repeat (destruct He as [<- | He]; [discriminate|]). destruct He.
Qed.

Lemma video_built_inv (w : world) : video_built w -> video_inv w.
Proof. intros H _. exact H. Qed.

Lemma starts_applied_built (sgn : bool) (cs : list start_call) :
  forall w,
    video_built w ->
    Forall (fun c => sgn = false \/ octets_below_128 (call_address c)) cs ->
    starts_applied sgn cs w.
Proof.
  induction cs as [|c cs IH]; intros w Hb Hall; [exact I|].
  inversion Hall as [|? ? Hc Hcs]; subst.
  destruct (stream_start_applies sgn (call_engine c)
              (call_b0 c) (call_b1 c) (call_b2 c) (call_b3 c) w)
    as (w' & E & Ha & Hb').
  - apply video_built_inv, Hb.
  - left. apply Hb.
  - exact Hc.
  - exists w'. split; [exact E|]. split; [exact Ha|]. apply IH; assumption.
Qed.

(** C10.  A [streamStart] call in which the video start routine succeeds
    (the call gets past the first-time block and the engine accepts the
    request for PLAYING): [video_start] returns 0 with [video_running] set
    and the success line printed, and the native command then logs
    "stream_start: NOT OK"; whatever [video_start] returns in that call,
    the caller's test [> 0] is false, so "OK" is never reported. *)
Theorem successful_start_reported_not_ok (sgn : bool) (eng : Engine)
    (b0 b1 b2 b3 : Z) (w : world) :
  video_inv w ->
  passes_video_build eng w ->
  (forall e, truthy (state_change eng e GST_STATE_PLAYING) = true) ->
  let w0 := emit (EPrint ("receiver IP: "
                          ++ fmt_dotted (decoded b0 b1 b2 b3) ++ "\n")) w in
  (exists w1,
     video_start sgn eng (decoded b0 b1 b2 b3) w0 = Ret 0 w1 /\
     video_running w1 = true /\
     hd_error (log w1)
       = Some (EPrint "Video pipeline state set to playing: OK\n") /\
     gst_native_stream_start sgn eng b0 b1 b2 b3 w
       = Ret tt (emit (EDebug "my pipeline streaming started")
                  (emit (EPrint "stream_start: NOT OK\n") w1))) /\
  (forall r w1,
     video_start sgn eng (decoded b0 b1 b2 b3) w0 = Ret r w1 ->
     (0 <? r) = false).
Proof.
  intros Hinv Hpass Hplay w0. split.
  - destruct (video_start_gate sgn eng (decoded b0 b1 b2 b3) w0)
      as (w1 & u & p & tr & Hf1 & Hu & Hp & Hl & Hno & E).
    { exact Hinv. } { exact Hpass. }
    rewrite stream_start_unfold. fold w0. rewrite E.
    rewrite (video_start_built sgn eng _ w1 u p Hf1 Hu Hp).
    cbv zeta. rewrite Hplay.
    eexists. repeat split; reflexivity.
  - intros r w1 H. destruct (video_start_result _ _ _ _ _ _ H) as [-> | ->];
      reflexivity.
Qed.

Lemma successful_start_reported_not_ok_witness :
  exists w1,
    video_start false eng_ok (decoded 64 40 129 228)
      (emit (EPrint "receiver IP: 192.168.1.100\n") initial_world) = Ret 0 w1 /\
    gst_native_stream_start false eng_ok 64 40 129 228 initial_world
      = Ret tt (emit (EDebug "my pipeline streaming started")
                 (emit (EPrint "stream_start: NOT OK\n") w1)).
Proof.
  destruct (successful_start_reported_not_ok false eng_ok 64 40 129 228
              initial_world) as [(w1 & E1 & _ & _ & E2) _].
  - intros H. discriminate H.
  - right. split; reflexivity.
  - intros e. reflexivity.
  - exists w1. split; [exact E1 | exact E2].
Defined.

(** ** Traces *)

Lemma rev_snoc_app {A} (e : A) (tr l lg : list A) :
  l = (rev tr ++ lg)%list -> (e :: l) = (rev (tr ++ [e]) ++ lg)%list.
Proof. intros ->. rewrite rev_app_distr. reflexivity. Qed.

Lemma rev_nil_app {A} (lg : list A) : lg = (rev [] ++ lg)%list.
Proof. reflexivity. Qed.

Lemma emitted_eq (w w' : world) (tr0 tr : list event) :
  emitted w w' tr0 -> tr0 = tr -> emitted w w' tr.
Proof. intros H <-. exact H. Qed.

Lemma emitted_trans (w1 w2 w3 : world) (t1 t2 : list event) :
  emitted w1 w2 t1 -> emitted w2 w3 t2 -> emitted w1 w3 (t1 ++ t2).
Proof.
  unfold emitted. intros H1 H2. rewrite H2, H1, rev_app_distr, app_assoc.
  reflexivity.
Qed.

Lemma since_emitted (w w' : world) (tr : list event) :
  emitted w w' tr -> since w w' = tr.
Proof.
  unfold emitted, since. intros ->.
  rewrite length_app, Nat.add_sub.
  rewrite <- (Nat.add_0_r (List.length (rev tr))), firstn_app_2.
  cbn [firstn]. rewrite app_nil_r. apply rev_involutive.
Qed.

(** The calls of a command, read off the two logs. *)
Ltac trace_eq :=
  unfold emitted; cbn [log];
  repeat (eapply rev_snoc_app); apply rev_nil_app.

Ltac solve_emitted :=
  eapply emitted_eq; [trace_eq | cbn [app]; try reflexivity].

Lemma stages_past (new l : list event) (b : GstElement) :
  existsb is_creation new = false ->
  stages (new ++ l) b = stages l b.
Proof.
  induction new as [|e new IH]; intros H; [reflexivity|].
  cbn [existsb] in H. apply orb_false_iff in H. destruct H as [He H].
  rewrite <- app_comm_cons. destruct e; cbn in He; try discriminate;
    cbn [stages]; apply IH, H.
Qed.

Lemma existsb_rev {A} (f : A -> bool) (l : list A) :
  existsb f (rev l) = existsb f l.
Proof.
  induction l as [|a l IH]; [reflexivity|].
  cbn [rev existsb]. rewrite existsb_app, IH. cbn. rewrite orb_false_r.
  apply orb_comm.
Qed.

(** ** The destination of a start *)

Lemma refused_link_sets_nothing (sgn : bool) (eng : Engine)
    (b0 b1 b2 b3 : Z) (w w' : world) :
  gst_native_stream_start sgn eng b0 b1 b2 b3 w = Ret tt w' ->
  exists tr,
    emitted w w' tr /\
    existsb is_refused_link tr = first_time_video w' /\
    (first_time_video w' = true ->
     existsb is_destination_set tr = false /\
     existsb is_state_request tr = false /\
     In (EPrint "stream_start: NOT OK\n") tr).
Proof.
  open_world w. paths; intros [= <-]; cbn [first_time_video];
    try (match goal with
         | H : (0 <? _) = true |- _ => vm_compute in H; discriminate H
         end);
    (eexists; split; [trace_eq|]);
    (split; [vm_compute; reflexivity|]);
    intros Hf; try discriminate Hf;
    (split; [vm_compute; reflexivity|]);
    (split; [vm_compute; reflexivity|]);
    cbn [app In]; repeat (first [left; reflexivity | right]).
Qed.

Lemma cut_short_start_fails (sgn : bool) (eng : Engine) (arg : bytes4)
    (w w' : world) (r : Z) :
  video_start sgn eng arg w = Ret r w' ->
  first_time_video w' = true -> r = -1.
Proof.
  open_world w. paths; intros [= <- <-]; cbn [first_time_video]; intros Hf;
    try discriminate Hf; reflexivity.
Qed.

(** C1, as amended.  In any sequence of [streamStart] calls whose first
    call gets past the first-time block (the pipeline is already built, or
    every stage is instantiated and every link accepted), on a target where
    plain [char] is unsigned or for addresses whose octets are all below
    128: every call returns, requests PLAYING of the video pipeline once,
    and before that request sets the port of the video sink to 5000 and
    its host to the dotted-quad string of the bytes decoded as
    [(b + 128) mod 256]; the destination in force after each call is the
    address of that call.  Of any call that returns, from any state and
    with any engine: a link was refused in it exactly when the first-time
    flag is still set afterwards, and then the call has set no host and no
    port, has requested no state, and has printed its failure line;
    [video_start] has returned -1. *)
Theorem stream_start_destination_fresh (sgn : bool) (c : start_call)
    (cs : list start_call) (w : world) :
  (video_inv w ->
   passes_video_build (call_engine c) w ->
   Forall (fun c => sgn = false \/ octets_below_128 (call_address c))
          (c :: cs) ->
   starts_applied sgn (c :: cs) w) /\
  (forall w', run_start_call sgn c w = Ret tt w' ->
     exists tr,
       emitted w w' tr /\
       existsb is_refused_link tr = first_time_video w' /\
       (first_time_video w' = true ->
        existsb is_destination_set tr = false /\
        existsb is_state_request tr = false /\
        In (EPrint "stream_start: NOT OK\n") tr)) /\
  (forall eng arg w0 r w1,
     video_start sgn eng arg w0 = Ret r w1 ->
     first_time_video w1 = true -> r = -1).
Proof.
  split; [|split].
  - intros Hinv Hpass Hall.
    inversion Hall as [|? ? Hc Hcs]; subst.
    destruct (stream_start_applies sgn (call_engine c)
                (call_b0 c) (call_b1 c) (call_b2 c) (call_b3 c) w
                Hinv Hpass Hc)
      as (w' & E & Ha & Hb').
    exists w'. split; [exact E|]. split; [exact Ha|].
    apply starts_applied_built; assumption.
  - intros w' E. eapply refused_link_sets_nothing; eassumption.
  - intros eng arg w0 r w1. apply cut_short_start_fails.
Qed.

Lemma stream_start_destination_fresh_witness :
  starts_applied false [call_granted; call_other_address; call_granted]
    initial_world /\
  exists tr,
    emitted initial_world after_link_refused tr /\
    existsb is_destination_set tr = false.
Proof.
  split.
  - apply (stream_start_destination_fresh false call_granted
             [call_other_address; call_granted] initial_world).
    + intros H. discriminate H.
    + right. split; reflexivity.
    + repeat constructor.
  - destruct (stream_start_destination_fresh false call_link_refused []
                initial_world) as (_ & H & _).
    destruct (H after_link_refused) as (tr & Em & _ & Hd).
    + vm_compute. reflexivity.
    + exists tr. split; [exact Em | apply Hd; reflexivity].
Defined.

(** C1 as stated fails: when the engine refuses the first link of the first
    call, [video_start] returns -1 from inside the first-time block; the
    sink exists but neither its host nor its port is ever set, and no state
    request is made. *)
Lemma stream_start_link_refused_sets_nothing :
  run_start_call false call_link_refused initial_world
    = Ret tt after_link_refused /\
  var after_link_refused udpsink = Some 6%nat /\
  property (log after_link_refused) 6%nat "host" = None /\
  property (log after_link_refused) 6%nat "port" = None /\
  existsb is_state_request (log after_link_refused) = false /\
  ~ starts_applied false [call_link_refused] initial_world.
Proof.
  split; [vm_compute; reflexivity|].
  split; [vm_compute; reflexivity|].
  split; [vm_compute; reflexivity|].
  split; [vm_compute; reflexivity|].
  split; [vm_compute; reflexivity|].
  intros (w' & E & (u & p & st & pre & post & _ & _ & _ & _ & _ & Hd) & _).
  vm_compute in E. injection E as <-. vm_compute in Hd. discriminate Hd.
Qed.

(** ** Starting a pipeline that is already built *)

Lemma start_built (sgn : bool) (k : kind) (eng : Engine) (arg : bytes4)
    (w : world) :
  first_time k w = false ->
  exists r w' tr,
    start sgn k eng arg w = Ret r w' /\
    emitted w w' tr /\
    existsb is_creation tr = false /\
    existsb is_link tr = false /\
    first_time k w' = false /\
    var w' = var w.
Proof.
  intros Hf. destruct k; open_world w; cbn in Hf; subst;
    unfold start; paths; eexists _, _, _;
    (split; [reflexivity|]); (split; [trace_eq|]);
    repeat split; reflexivity.
Qed.

Lemma run_starts_built (sgn : bool) (k : kind)
    (calls : list (Engine * bytes4)) :
  forall w,
    first_time k w = false ->
    exists w' tr,
      run_starts sgn k calls w = Ret tt w' /\
      emitted w w' tr /\
      existsb is_creation tr = false /\
      existsb is_link tr = false /\
      first_time k w' = false /\
      var w' = var w.
Proof.
  induction calls as [|[eng arg] cs IH]; intros w Hf.
  - exists w, []. repeat split; auto.
  - destruct (start_built sgn k eng arg w Hf)
      as (r & w1 & t1 & E1 & Em1 & C1 & L1 & F1 & V1).
    destruct (IH w1 F1) as (w2 & t2 & E2 & Em2 & C2 & L2 & F2 & V2).
    exists w2, (t1 ++ t2)%list. cbn [run_starts]. unfold bind. rewrite E1.
    repeat split; auto.
    + eapply emitted_trans; eassumption.
    + rewrite existsb_app, C1, C2. reflexivity.
    + rewrite existsb_app, L1, L2. reflexivity.
    + congruence.
Qed.

(** C2, as amended.  Once a start call of a kind has completed its
    first-time block (the first-time flag is cleared), every later sequence
    of start calls of that kind returns without creating a stage, adding
    one to the pipeline or attempting a link; the flag stays cleared, the
    element pointers stay as they are, and the stage count of the pipeline
    is the same after the calls as before. *)
Theorem built_pipeline_is_not_rebuilt (sgn : bool) (k : kind)
    (calls : list (Engine * bytes4)) (w : world) :
  first_time k w = false ->
  exists w',
    run_starts sgn k calls w = Ret tt w' /\
    first_time k w' = false /\
    filter is_creation (since w w') = [] /\
    filter is_link (since w w') = [] /\
    var w' = var w /\
    stage_count k w' = stage_count k w.
Proof.
  intros Hf.
  destruct (run_starts_built sgn k calls w Hf)
    as (w' & tr & E & Em & C & L & F & V).
  exists w'. rewrite (since_emitted _ _ _ Em).
  repeat split; auto.
  - apply not_true_iff_false in C.
    destruct (filter is_creation tr) as [|e l] eqn:Efl; [reflexivity|].
    exfalso. apply C. apply existsb_exists. exists e.
    apply filter_In. rewrite Efl. left. reflexivity.
  - apply not_true_iff_false in L.
    destruct (filter is_link tr) as [|e l] eqn:Efl; [reflexivity|].
    exfalso. apply L. apply existsb_exists. exists e.
    apply filter_In. rewrite Efl. left. reflexivity.
  - unfold stage_count. rewrite V. destruct (var w (pipeline_var k)); auto.
    rewrite Em. rewrite stages_past; [reflexivity|].
    rewrite existsb_rev. exact C.
Qed.

Lemma built_pipeline_is_not_rebuilt_witness :
  exists w',
    run_starts false video [(eng_ok, (10, 0, 0, 7)); (eng_ok, scenario_address)]
      after_granted_start = Ret tt w' /\
    first_time video w' = false /\
    filter is_creation (since after_granted_start w') = [] /\
    filter is_link (since after_granted_start w') = [] /\
    var w' = var after_granted_start /\
    stage_count video w' = stage_count video after_granted_start.
Proof.
  apply (built_pipeline_is_not_rebuilt false video
           [(eng_ok, (10, 0, 0, 7)); (eng_ok, scenario_address)]
           after_granted_start).
  vm_compute. reflexivity.
Defined.

(** C2 as stated fails: a start whose first link is refused returns -1 with
    the first-time flag still set, and the next start instantiates all
    seven objects again, adds six stages to the new pipeline and attempts
    the five links; fourteen objects exist after the two starts. *)
Lemma second_start_rebuilds_after_refused_link :
  start false video eng_no_camera_link scenario_address initial_world
    = Ret (-1) after_refused_start /\
  first_time video after_refused_start = true /\
  start false video eng_ok scenario_address after_refused_start
    = Ret 0 after_second_start /\
  List.length (filter is_creation (since initial_world after_refused_start))
    = 8%nat /\
  List.length (filter is_creation (since after_refused_start after_second_start))
    = 8%nat /\
  List.length (filter is_link (since after_refused_start after_second_start))
    = 5%nat /\
  next_element after_refused_start = 7%nat /\
  next_element after_second_start = 14%nat.
Proof.
  repeat (match goal with |- _ /\ _ => split end);
    vm_compute; reflexivity.
Qed.

(** ** Stopping *)

(** C3.  A stop call of either kind returns 1 and its calls are, in order,
    the request for PAUSED, a line, the request for NULL, a line: two state
    requests and no other; whatever state was requested of the pipeline
    before, the state last requested of it after the call is NULL, and
    [video_stop] leaves [video_running] false. *)
Theorem stop_requests_paused_then_null (k : kind) (eng : Engine) (w : world) :
  let p := var w (pipeline_var k) in
  exists w',
    stop k eng w = Ret 1 w' /\
    emitted w w'
      [ ESetState p GST_STATE_PAUSED (state_answer eng p GST_STATE_PAUSED);
        EPrint (match k with
                | video => "Video pipeline: paused\n"
                | audio => "Audio pipeline: paused\n"
                end);
        ESetState p GST_STATE_NULL (state_answer eng p GST_STATE_NULL);
        EPrint (match k with
                | video => "Video pipeline: null\n"
                | audio => "Audio pipeline: null\n"
                end) ] /\
    match p with
    | Some e =>
        requested_state (log w') e = Some GST_STATE_NULL /\
        requested_state (log w') e <> Some GST_STATE_PLAYING /\
        requested_state (log w') e <> Some GST_STATE_PAUSED
    | None => True
    end /\
    match k with video => video_running w' = false | audio => True end.
Proof.
  intros p. subst p.
  destruct k; open_world w; unfold stop;
    cbv [video_stop audio_stop bind read do_emit g_print
         gst_element_set_state set_video_running emit
         first_time_video first_time_audio video_running var next_element
         peers log pipeline_var];
    eexists; (split; [reflexivity|]); (split; [reflexivity|]);
    (split; [|reflexivity]).
  - destruct (vars pipeline) as [e|]; [|exact I].
    cbn [requested_state opt_is]. rewrite Nat.eqb_refl.
    repeat split; discriminate.
  - destruct (vars pipeline_audio) as [e|]; [|exact I].
    cbn [requested_state opt_is]. rewrite Nat.eqb_refl.
    repeat split; discriminate.
Qed.

(** ** Linking *)

(** What [links_until_refused] yields when a link of the plan is refused
    after all before it were accepted: the attempts up to it, then its
    diagnostic, then nothing. *)
Lemma links_until_refused_at (eng : Engine) (w : world)
    (done rest : list planned_link) (l : planned_link) :
  forallb (link_answer eng w) done = true ->
  link_answer eng w l = false ->
  links_until_refused eng w (done ++ l :: rest)
  = ((accepted_links eng w done
      ++ [link_attempt eng w l; EDebug (link_diagnostic l)])%list, false).
Proof.
  induction done as [|d done IH]; intros Hd Hl.
  - cbn. rewrite Hl. reflexivity.
  - cbn [forallb] in Hd. apply andb_prop in Hd. destruct Hd as [Hd1 Hd2].
    cbn [app links_until_refused accepted_links flat_map].
    rewrite Hd1, (IH Hd2 Hl). reflexivity.
Qed.

Lemma links_until_refused_all (eng : Engine) (w : world)
    (plan : list planned_link) :
  forallb (link_answer eng w) plan = true ->
  links_until_refused eng w plan = (accepted_links eng w plan, true).
Proof.
  induction plan as [|d plan IH]; intros Hd; [reflexivity|].
  cbn [forallb] in Hd. apply andb_prop in Hd. destruct Hd as [Hd1 Hd2].
  cbn [links_until_refused accepted_links flat_map].
  rewrite Hd1, (IH Hd2). reflexivity.
Qed.

Ltac plan_compute :=
  cbv [links_until_refused link_answer link_attempt link_plan
       link_src link_dst link_ok_line link_diagnostic var
       gvar_eqb fst snd app firstn Nat.add video_build_trace
       audio_stage_trace
       first_time first_time_video first_time_audio existsb is_link orb];
  use_answers;
  cbv beta iota zeta.

Ltac link_leaf pre :=
  eexists _, _, pre, _; (split; [reflexivity|]);
  (split; [eapply emitted_eq; [trace_eq | plan_compute; reflexivity] |]);
  plan_compute;
  repeat (match goal with |- _ /\ _ => split end); reflexivity.

Lemma video_links_follow_plan (sgn : bool) (eng : Engine) (arg : bytes4)
    (w : world) :
  first_time_video w = true ->
  stages_instantiate video eng ->
  exists r w' pre post,
    video_start sgn eng arg w = Ret r w' /\
    emitted w w'
      (pre ++ fst (links_until_refused eng w' (link_plan video)) ++ post) /\
    existsb is_link pre = false /\
    existsb is_link post = false /\
    (if snd (links_until_refused eng w' (link_plan video))
     then first_time_video w' = false
     else r = -1 /\ post = [] /\ first_time_video w' = true).
Proof.
  intros Hf Hi. cbn in Hi.
  repeat (apply andb_prop in Hi; destruct Hi as [? Hi]).
  open_world w. cbn in Hf. subst ftv. run. use_answers.
  split_answers; link_leaf (firstn 9 (video_build_trace nxt)).
Qed.

Lemma audio_links_follow_plan (sgn : bool) (eng : Engine) (arg : bytes4)
    (w : world) :
  first_time_audio w = true ->
  stages_instantiate audio eng ->
  exists r w' pre post,
    audio_start sgn eng arg w = Ret r w' /\
    emitted w w'
      (pre ++ fst (links_until_refused eng w' (link_plan audio)) ++ post) /\
    existsb is_link pre = false /\
    existsb is_link post = false /\
    (if snd (links_until_refused eng w' (link_plan audio))
     then first_time_audio w' = false
     else r = -1 /\ post = [] /\ first_time_audio w' = true).
Proof.
  intros Hf [Hi Hs]. cbn in Hi.
  repeat (apply andb_prop in Hi; destruct Hi as [? Hi]).
  open_world w. cbn in Hf. subst fta.
  destruct (factory_available eng "openslessrc") eqn:Hp.
  - run. use_answers.
    split_answers; link_leaf (audio_stage_trace true nxt).
  - cbn in Hs. run. use_answers.
    split_answers; link_leaf (audio_stage_trace false nxt).
Qed.

(** C6.  In a first-time start of either kind in which every stage is
    instantiated, the call returns and its link calls are those of
    [links_until_refused] on the declared plan: the links are attempted in
    the declared order, nothing before or after them in the call is a link
    attempt, and when one is refused the call returns -1 at once, the
    refused attempt being followed by its diagnostic and by nothing else,
    with the first-time flag still set.  For a link refused after all
    before it were accepted, that sequence is the accepted attempts, the
    refused one (once) and the diagnostic of its two stages. *)
Theorem link_failure_ends_build (sgn : bool) (k : kind) (eng : Engine)
    (arg : bytes4) (w : world) :
  first_time k w = true ->
  stages_instantiate k eng ->
  exists r w' pre post,
    start sgn k eng arg w = Ret r w' /\
    emitted w w'
      (pre ++ fst (links_until_refused eng w' (link_plan k)) ++ post) /\
    existsb is_link pre = false /\
    existsb is_link post = false /\
    (if snd (links_until_refused eng w' (link_plan k))
     then first_time k w' = false
     else r = -1 /\ post = [] /\ first_time k w' = true) /\
    forall done l rest,
      link_plan k = (done ++ l :: rest)%list ->
      forallb (link_answer eng w') done = true ->
      link_answer eng w' l = false ->
      links_until_refused eng w' (link_plan k)
      = ((accepted_links eng w' done
          ++ [ELink (var w' (link_src l)) (var w' (link_dst l)) false;
              EDebug (link_diagnostic l)])%list, false).
Proof.
  intros Hf Hi.
  assert (H : exists r w' pre post,
    start sgn k eng arg w = Ret r w' /\
    emitted w w'
      (pre ++ fst (links_until_refused eng w' (link_plan k)) ++ post) /\
    existsb is_link pre = false /\
    existsb is_link post = false /\
    (if snd (links_until_refused eng w' (link_plan k))
     then first_time k w' = false
     else r = -1 /\ post = [] /\ first_time k w' = true)).
  { destruct k.
    - apply video_links_follow_plan; assumption.
    - apply audio_links_follow_plan; assumption. }
  destruct H as (r & w' & pre & post & E & Em & Hpre & Hpost & Hend).
  exists r, w', pre, post. repeat (split; [assumption|]).
  intros done l rest Hplan Hdone Hl. rewrite Hplan.
  rewrite (links_until_refused_at eng w' done rest l Hdone Hl).
  unfold link_attempt. rewrite Hl. reflexivity.
Qed.

Lemma link_failure_ends_build_witness :
  exists r w',
    start false video eng_no_camera_link scenario_address initial_world
      = Ret r w' /\
    r = -1 /\ first_time video w' = true.
Proof.
  destruct (link_failure_ends_build false video eng_no_camera_link
              scenario_address initial_world)
    as (r & w' & pre & post & E & _ & _ & _ & Hend & _).
  - reflexivity.
  - reflexivity.
  - exists r, w'. split; [exact E|].
    vm_compute in E. injection E as <- <-. split; reflexivity.
Defined.

(** ** The audio capture source and its fallback *)

Ltac conj_compute :=
  repeat (match goal with |- _ /\ _ => split end);
  cbv [Nat.add]; use_answers; vm_compute; reflexivity.

(** C8.  In a first-time audio start:
    - when the engine has no "openslessrc" but has "audiotestsrc" and the
      other four factories, the call returns; the stages are instantiated
      by exactly the calls of [audio_stage_trace false], in which
      "audiotestsrc" is asked for once, after "openslessrc" gave [NULL];
      [audiosource] holds the test source, it is the first stage added to
      the pipeline and the source of the first link, and nothing is
      instantiated afterwards;
    - when the engine lacks one of the other four factories, a [g_assert]
      aborts the process: no factory is asked twice, and nothing is added
      to the pipeline, linked or asked to change state. *)
Theorem audio_source_fallback (sgn : bool) (eng : Engine) (arg : bytes4)
    (w : world) :
  first_time_audio w = true ->
  (factory_available eng "openslessrc" = false ->
   forallb (factory_available eng) ("audiotestsrc" :: audio_other_factories)
     = true ->
   exists r w' post,
     audio_start sgn eng arg w = Ret r w' /\
     emitted w w' (audio_stage_trace false (next_element w) ++ post) /\
     var w' audiosource = Some (4 + next_element w)%nat /\
     existsb is_creation post = false /\
     hd_error post
       = Some (ELink (Some (4 + next_element w)%nat)
                     (Some (1 + next_element w)%nat)
                     (link_accepts eng (4 + next_element w)%nat
                                       (1 + next_element w)%nat)))
  /\
  (forallb (factory_available eng) audio_other_factories = false ->
   exists w' tr,
     audio_start sgn eng arg w = Abort w' /\
     emitted w w' tr /\
     option_map is_assert_failure (hd_error (log w')) = Some true /\
     distinct (factories_requested tr) = true /\
     existsb is_link tr = false /\
     existsb is_state_request tr = false /\
     filter (fun e => match e with EBinAddMany _ _ => true | _ => false end) tr
       = [] /\
     first_time_audio w' = true).
Proof.
  intros Hf. split.
  - intros Hp Ha. cbn in Ha.
    repeat (apply andb_prop in Ha; destruct Ha as [? Ha]).
    open_world w. cbn in Hf. subst fta. cbn [next_element].
    run. use_answers. split_answers;
      eexists _, _, _; (split; [reflexivity|]);
      (split; [eapply emitted_eq;
               [trace_eq | cbv [audio_stage_trace app Nat.add]; reflexivity]
              |]);
      conj_compute.
  - intros Ho. cbv [forallb audio_other_factories andb] in Ho. revert Ho.
    open_world w. cbn in Hf. subst fta.
    run. split_answers; intros Ho; try discriminate Ho;
      eexists _, _; (split; [reflexivity|]); (split; [trace_eq|]);
      conj_compute.
Qed.

Lemma audio_source_fallback_witness :
  exists r w' post,
    audio_start false eng_no_capture scenario_address initial_world
      = Ret r w' /\
    emitted initial_world w' (audio_stage_trace false 0 ++ post) /\
    var w' audiosource = Some 4%nat.
Proof.
  destruct (audio_source_fallback false eng_no_capture scenario_address
              initial_world eq_refl) as [H _].
  destruct (H eq_refl eq_refl) as (r & w' & post & E & Em & Hv & _).
  exists r, w', post. repeat (split; [assumption|]). exact Hv.
Defined.

(** ** The dynamic-link handler *)

Lemma on_pad_added_trace (eng : Engine) (element : GstElement) (pad : GstPad)
    (enc : GstElement) (w : world) :
  let sinkpad := if has_static_pad eng enc "sink" then Some (enc, "sink")
                 else None in
  let res := pad_link_answer eng w pad sinkpad in
  exists w',
    on_pad_added eng element pad (Some enc) w = Ret tt w' /\
    emitted w w'
      [ EPrint "Dynamic pad created, linking\n";
        EGetStaticPad (Some enc) "sink" sinkpad;
        EPadLink pad sinkpad res;
        EUnref sinkpad ] /\
    peers w' = match res, sinkpad with
               | GST_PAD_LINK_OK, Some k => (pad, k) :: peers w
               | _, _ => peers w
               end.
Proof.
  intros sinkpad res. subst sinkpad res. open_world w.
  cbv [on_pad_added bind g_print do_emit gst_element_get_static_pad
       gst_pad_link gst_object_unref pad_link_answer has_peer emit add_peer
       peers log first_time_video first_time_audio video_running var
       next_element emitted].
  destruct (has_static_pad eng enc "sink"); cbv beta iota.
  - destruct (existsb _ prs || existsb _ prs); cbv beta iota.
    + eexists. repeat split; reflexivity.
    + destruct (pads_compatible eng pad (enc, "sink"));
        eexists; repeat split; reflexivity.
  - eexists. repeat split; reflexivity.
Qed.

(** ** The process *)

(** The video globals stay consistent: once the first-time flag is
    cleared the pipeline and the sink are in place. *)
Lemma video_start_keeps_inv (sgn : bool) (eng : Engine) (arg : bytes4)
    (w w' : world) (r : Z) :
  video_inv w -> video_start sgn eng arg w = Ret r w' -> video_inv w'.
Proof.
  intros Hinv. open_world w. unfold video_inv, video_built in *.
  cbn [first_time_video var] in Hinv. destruct ftv.
  - clear Hinv. paths; intros [= <- <-]; cbn; intros Hf;
      try discriminate Hf; repeat split; eauto.
  - destruct (Hinv eq_refl) as (_ & [p Hp] & [u Hu]).
    paths; intros [= <- <-]; cbn; intros _; repeat split; eauto.
Qed.

Lemma command_keeps_video_inv (sgn : bool) (eng : Engine) (c : command)
    (w w' : world) :
  video_inv w -> run_command sgn eng c w = Ret tt w' -> video_inv w'.
Proof.
  intros Hinv. destruct c as [b0 b1 b2 b3|]; unfold run_command.
  - rewrite stream_start_unfold.
    destruct (video_start _ _ _ _) as [r w1|] eqn:E; [|discriminate].
    intros [= <-]. eapply video_start_keeps_inv in E; [exact E | exact Hinv].
  - open_world w. unfold video_inv, video_built in *.
    cbn [first_time_video var] in Hinv.
    paths; intros [= <-]; cbn; exact Hinv.
Qed.

(** The native commands call nothing on the controller and nothing of
    [gst_native_finalize]. *)
Lemma command_quiet (sgn : bool) (eng : Engine) (c : command)
    (w w' : world) :
  run_command sgn eng c w = Ret tt w' ->
  exists tr,
    emitted w w' tr /\
    existsb is_callback tr = false /\
    existsb is_finalize_call tr = false /\
    existsb is_notification tr = false.
Proof.
  destruct c as [b0 b1 b2 b3|]; open_world w; unfold run_command;
    paths; intros [= <-]; eexists; (split; [trace_eq|]);
    repeat (match goal with |- _ /\ _ => split end); vm_compute; reflexivity.
Qed.

Lemma filter_past {A} (f : A -> bool) (new l : list A) :
  existsb f new = false -> filter f (new ++ l) = filter f l.
Proof.
  induction new as [|e new IH]; intros H; [reflexivity|].
  cbn [existsb] in H. apply orb_false_iff in H. destruct H as [He H].
  cbn [app filter]. rewrite He. apply IH, H.
Qed.

Lemma quiet_past (new l : list event) :
  existsb is_callback new = false ->
  existsb is_finalize_call new = false ->
  quiet_since_join (new ++ l) = quiet_since_join l.
Proof.
  induction new as [|e new IH]; intros Hc Hf; [reflexivity|].
  cbn [existsb] in Hc, Hf.
  apply orb_false_iff in Hc. destruct Hc as [Hce Hc].
  apply orb_false_iff in Hf. destruct Hf as [Hfe Hf].
  cbn [app]. destruct e; cbn in Hce, Hfe; try discriminate;
    cbn [quiet_since_join is_callback negb andb]; apply IH; assumption.
Qed.

Lemma process_inv_start : process_inv process_start.
Proof.
  unfold process_inv. cbn. repeat split; try reflexivity; try lia;
    discriminate.
Qed.

Ltac inv_case :=
  unfold process_inv, video_inv, video_built in *;
  cbn [first_time_video var
       proc_world proc_data app_pc fin_pc log emit emits fold_left alloc
       filter is_finalize_call is_notification is_callback
       quiet_since_join finalize_progress thread_ended past_notification
       firstn finalize_calls rev app List.length negb andb
       CustomData.initialized CustomData.main_loop set_main_loop
       set_initialized] in *;
  repeat match goal with
         | H : _ /\ _ |- _ => destruct H
         end;
  repeat match goal with |- _ /\ _ => split end;
  try assumption; try reflexivity; try discriminate; try lia;
  try congruence;
  try (intros; exfalso; lia);
  try (intros; discriminate);
  try (intros; split; first [assumption | reflexivity]);
  try (intros; match goal with
               | H : (_ <= _)%nat -> _ |- _ => apply H; lia
               end).

Lemma process_inv_step (sgn : bool) (s s' : process) :
  step sgn s s' -> process_inv s -> process_inv s'.
Proof.
  intros [a Ha] Hinv. destruct s as [w d watch run pc f].
  destruct a; cbn [perform app_pc fin_pc proc_world proc_data proc_watch
                   loop_running] in Ha.
  - (* ANativeInit *)
    destruct pc; try discriminate; destruct f; try discriminate.
    injection Ha as <-. inv_case.
  - (* AAppBuild *)
    destruct pc; try discriminate.
    unfold app_build, bind, set_ui_message, GST_DEBUG, do_emit, ret in Ha.
    destruct error, launched; injection Ha as <-; inv_case.
  - (* AAppLoopNew *)
    destruct pc; try discriminate. injection Ha as <-. inv_case.
  - (* AAppNotify *)
    destruct pc; try discriminate.
    unfold check_initialization_complete, bind, GST_DEBUG, do_emit, ret
      in Ha.
    assert (Hi : CustomData.initialized d = false) by (apply Hinv).
    assert (Hm : CustomData.main_loop d = true) by (apply Hinv; reflexivity).
    cbn [proc_data] in Hi, Hm. rewrite Hi, Hm in Ha. cbn in Ha.
    injection Ha as <-. inv_case.
  - (* AAppRun *)
    destruct pc; try discriminate. injection Ha as <-. inv_case.
  - (* AAppDispatch *)
    destruct pc; try discriminate. destruct run; try discriminate.
    unfold dispatch, error_cb, state_changed_cb, bind, set_ui_message,
      GST_DEBUG, do_emit, gst_element_set_state, ret in Ha.
    destruct (opt_is watch bus); [destruct msg|];
      try destruct (opt_is _ _); injection Ha as <-; inv_case.
  - (* AAppLeave *)
    destruct pc; try discriminate. destruct run; try discriminate.
    unfold app_leave, bind, GST_DEBUG, do_emit, gst_element_set_state, ret
      in Ha.
    injection Ha as <-. inv_case.
  - (* ACommand *)
    destruct (run_command sgn eng c w) as [[] w'|] eqn:E; try discriminate.
    injection Ha as <-.
    destruct (command_quiet sgn eng c w w' E) as (tr & Em & Hc & Hf & Hn).
    unfold process_inv in *.
    cbn [proc_world proc_data app_pc fin_pc] in *.
    destruct Hinv as (I1 & I2 & I3 & I4 & I5 & I6).
    rewrite Em. rewrite <- existsb_rev in Hc, Hf, Hn.
    rewrite !filter_past, quiet_past by assumption.
    repeat (match goal with |- _ /\ _ => split end); try assumption.
    eapply command_keeps_video_inv; eassumption.
  - (* AFinalizeQuit *)
    destruct f; try discriminate. destruct pc; try discriminate;
      injection Ha as <-; inv_case.
  - (* AFinalizeJoin *)
    destruct f; try discriminate.
    destruct (thread_ended pc) eqn:Hpc; try discriminate.
    injection Ha as <-. inv_case.
  - (* AFinalizeDeleteRef *)
    destruct f; try discriminate. injection Ha as <-. inv_case.
  - (* AFinalizeFree *)
    destruct f; try discriminate. injection Ha as <-. inv_case.
  - (* AFinalizeClear *)
    destruct f; try discriminate. injection Ha as <-. inv_case.
Qed.

Lemma steps_inv (sgn : bool) (s s' : process) :
  steps sgn s s' -> process_inv s -> process_inv s'.
Proof.
  intros H. induction H as [|s1 s2 s3 H12 IH H23]; intros Hinv.
  - exact Hinv.
  - eapply process_inv_step; [exact H23 | apply IH, Hinv].
Qed.

Lemma reachable_inv (sgn : bool) (s : process) :
  reachable sgn s -> process_inv s.
Proof.
  intros H. eapply steps_inv; [exact H | apply process_inv_start].
Qed.

Lemma steps_trans (sgn : bool) (s1 s2 s3 : process) :
  steps sgn s1 s2 -> steps sgn s2 s3 -> steps sgn s1 s3.
Proof.
  intros H12 H23. induction H23 as [|s2 s3 s4 H23 IH H34]; [exact H12|].
  eapply steps_step; [apply IH, H12 | exact H34].
Qed.

Lemma perform_all_steps (sgn : bool) (acts : list action) :
  forall s s', perform_all sgn acts s = Some s' -> steps sgn s s'.
Proof.
  induction acts as [|a acts IH]; intros s s' H; cbn [perform_all] in H.
  - injection H as <-. apply steps_refl.
  - destruct (perform sgn a s) as [s1|] eqn:E; [|discriminate].
    eapply steps_trans; [|apply IH, H].
    eapply steps_step; [apply steps_refl | exists a; exact E].
Qed.

(** ** Errors on the bus *)

(** An error delivered on the watched bus: the message goes to the
    controller and the session's pipeline is asked for NULL. *)
Lemma error_on_watched_bus (eng : Engine) (p src : GstElement)
    (src_name err_message : string) (d : CustomData.t) (w : world) :
  CustomData.pipeline d = Some p ->
  exists w',
    dispatch eng (Some p) p (MsgError src src_name err_message) d w
      = Ret tt w' /\
    emitted w w'
      [ EDebug ("Setting message to: Error received from element "
                ++ src_name ++ ": " ++ err_message);
        ESetMessage ("Error received from element " ++ src_name ++ ": "
                     ++ err_message);
        ESetState (Some p) GST_STATE_NULL
          (state_change eng p GST_STATE_NULL) ] /\
    requested_state (log w') p = Some GST_STATE_NULL.
Proof.
  intros Hp. unfold dispatch, error_cb, bind, set_ui_message, GST_DEBUG,
    do_emit, gst_element_set_state, state_answer, ret.
  cbn [opt_is]. rewrite Nat.eqb_refl, Hp. eexists.
  split; [reflexivity|]. split; [reflexivity|].
  cbn [log emit requested_state opt_is]. rewrite Nat.eqb_refl. reflexivity.
Qed.

(** A message on a bus without a watch reaches no handler. *)
Lemma dispatch_unwatched (eng : Engine) (watch : option GstElement)
    (bus : GstElement) (msg : bus_message) (d : CustomData.t) (w : world) :
  opt_is watch bus = false ->
  dispatch eng watch bus msg d w = Ret tt w.
Proof. intros H. unfold dispatch. rewrite H. reflexivity. Qed.

(** C5 at its failing input.  After a session is set up and a video start
    has succeeded, the watched bus is that of the session's own pipeline
    (element 0), never played; the video pipeline (element 2) is the one
    asked to play.  An error posted by the camera on the video pipeline's
    bus changes nothing: no handler runs, no message reaches the
    controller, and the state last requested of the video pipeline is
    still PLAYING. *)
Theorem video_error_reaches_no_handler :
  perform_all false streaming_actions process_start
    = Some streaming_process /\
  proc_watch streaming_process = Some 0%nat /\
  CustomData.pipeline (proc_data streaming_process) = Some 0%nat /\
  requested_state (log (proc_world streaming_process)) 0%nat = None /\
  var (proc_world streaming_process) pipeline = Some 2%nat /\
  requested_state (log (proc_world streaming_process)) 2%nat
    = Some GST_STATE_PLAYING /\
  perform false (AAppDispatch eng_ok 2%nat camera_error) streaming_process
    = Some streaming_process /\
  filter is_callback (trace streaming_process) = [EOnInitialized].
Proof.
  repeat (match goal with |- _ /\ _ => split end); vm_compute; reflexivity.
Qed.

(** The hypothesis on the video globals made in the statements above holds
    in every state the process reaches. *)
Lemma reachable_video_inv (sgn : bool) (s : process) :
  reachable sgn s -> video_inv (proc_world s).
Proof. intros Hr. apply (reachable_inv sgn s Hr). Qed.

(** * Further properties of the code *)

(** ** The address bytes *)

Lemma unbias_bias (a : Z) :
  0 <= a < 256 ->
  (a - 128 + 128) mod 256 = a /\ ((a + 128) mod 256 + 128) mod 256 = a.
Proof.
  intros H. split.
  - replace (a - 128 + 128) with a by lia. apply Z.mod_small. exact H.
  - rewrite Zplus_mod_idemp_l. replace (a + 128 + 128) with (a + 1 * 256) by lia.
    rewrite Z_mod_plus_full. apply Z.mod_small. exact H.
Qed.

(** X1.  The bias on the address bytes is undone exactly: for octets in
    0..255 sent as octet - 128, or as (octet + 128) mod 256, the native
    command works on the octets themselves: it prints them in its
    "receiver IP" line and hands them to [video_start]; and whatever bytes
    arrive, each decoded octet is in 0..255. *)
Theorem stream_start_unbiases (sgn : bool) (eng : Engine) (a0 a1 a2 a3 : Z)
    (w : world) :
  0 <= a0 < 256 -> 0 <= a1 < 256 -> 0 <= a2 < 256 -> 0 <= a3 < 256 ->
  let sent_minus := gst_native_stream_start sgn eng
                      (a0 - 128) (a1 - 128) (a2 - 128) (a3 - 128) w in
  let sent_plus := gst_native_stream_start sgn eng
                     ((a0 + 128) mod 256) ((a1 + 128) mod 256)
                     ((a2 + 128) mod 256) ((a3 + 128) mod 256) w in
  sent_minus = sent_plus /\
  sent_minus =
    match video_start sgn eng (a0, a1, a2, a3)
            (emit (EPrint ("receiver IP: " ++ fmt_dotted (a0, a1, a2, a3)
                           ++ "\n")) w) with
    | Ret r w1 =>
        Ret tt (emit (EDebug "my pipeline streaming started")
                 (emit (EPrint ("stream_start: "
                                ++ (if 0 <? r then "OK" else "NOT OK")
                                ++ "\n")) w1))
    | Abort w1 => Abort w1
    end /\
  forall b0 b1 b2 b3,
    let '(d0, d1, d2, d3) := decoded b0 b1 b2 b3 in
    0 <= d0 < 256 /\ 0 <= d1 < 256 /\ 0 <= d2 < 256 /\ 0 <= d3 < 256.
Proof.
  intros H0 H1 H2 H3 sent_minus sent_plus. subst sent_minus sent_plus.
  rewrite !stream_start_unfold. unfold decoded.
  destruct (unbias_bias a0 H0) as [-> ->].
  destruct (unbias_bias a1 H1) as [-> ->].
  destruct (unbias_bias a2 H2) as [-> ->].
  destruct (unbias_bias a3 H3) as [-> ->].
  split; [reflexivity|]. split; [reflexivity|].
  intros b0 b1 b2 b3.
  repeat split; apply Z.mod_pos_bound; lia.
Qed.

Lemma stream_start_unbiases_witness :
  gst_native_stream_start false eng_ok 64 40 (-127) (-28) initial_world
  = gst_native_stream_start false eng_ok 64 40 129 228 initial_world.
Proof.
  destruct (stream_start_unbiases false eng_ok 192 168 1 100 initial_world)
    as [H _]; try lia.
  exact H.
Defined.

Lemma read_char_signed (a : Z) :
  0 <= a < 256 -> read_char true a = signed_view a.
Proof.
  intros H. unfold read_char, signed_view.
  destruct (a <? 128) eqn:E.
  - apply Z.ltb_lt in E. rewrite Z.mod_small by lia. lia.
  - apply Z.ltb_ge in E.
    replace (a + 128) with (a - 128 + 1 * 256) by lia.
    rewrite Z_mod_plus_full, Z.mod_small by lia. lia.
Qed.

(** X2.  Where plain [char] is signed, [video_start] reads the octets it is
    given through [char arg[]]: on a built pipeline the host it sets is
    the four octets with every octet above 127 printed as octet - 256, a
    negative number, while the caller's "receiver IP" line shows the
    octets themselves. *)
Theorem signed_char_host (eng : Engine) (b0 b1 b2 b3 : Z) (w : world)
    (u p : GstElement) :
  first_time_video w = false ->
  var w udpsink = Some u ->
  var w pipeline = Some p ->
  exists w',
    gst_native_stream_start true eng b0 b1 b2 b3 w = Ret tt w' /\
    property (log w') u "host"
      = Some (VString (fmt_dotted (map4 signed_view (decoded b0 b1 b2 b3)))) /\
    In (EPrint ("receiver IP: " ++ fmt_dotted (decoded b0 b1 b2 b3) ++ "\n"))
       (log w') /\
    forall a, 128 <= a < 256 -> signed_view a = a - 256 /\ signed_view a < 0.
Proof.
  intros Hf Hu Hp. rewrite stream_start_unfold.
  rewrite (video_start_built true eng _ _ u p); [|exact Hf|exact Hu|exact Hp].
  cbv zeta.
  assert (Hv : map4 (read_char true) (decoded b0 b1 b2 b3)
               = map4 signed_view (decoded b0 b1 b2 b3)).
  { unfold decoded. cbn [map4].
    rewrite !read_char_signed by (apply Z.mod_pos_bound; lia). reflexivity. }
  rewrite Hv.
  assert (Hs : forall a, 128 <= a < 256 ->
                 signed_view a = a - 256 /\ signed_view a < 0).
  { intros a Ha. unfold signed_view.
    destruct (a <? 128) eqn:E; [apply Z.ltb_lt in E; lia|]. lia. }
  destruct (truthy _); eexists; (split; [reflexivity|]);
    (split; [|split; [|exact Hs]]).
  - cbn [log emit set_video_running property opt_is].
    rewrite Nat.eqb_refl. reflexivity.
  - cbn [log emit set_video_running]. do 6 right. left. reflexivity.
  - cbn [log emit property opt_is]. rewrite Nat.eqb_refl. reflexivity.
  - cbn [log emit]. do 6 right. left. reflexivity.
Qed.

Lemma signed_char_host_witness :
  exists w',
    gst_native_stream_start true eng_ok 64 40 129 228 after_granted_start
      = Ret tt w' /\
    property (log w') 6%nat "host" = Some (VString "-64.-88.1.100").
Proof.
  destruct (signed_char_host eng_ok 64 40 129 228 after_granted_start
              6%nat 1%nat eq_refl eq_refl eq_refl) as (w' & E & H & _).
  exists w'. split; [exact E | exact H].
Defined.

(** ** Starting a built pipeline *)

Lemma audio_start_built (sgn : bool) (eng : Engine) (arg : bytes4)
    (w : world) (u p : GstElement) :
  first_time_audio w = false ->
  var w audioudpsink = Some u ->
  var w pipeline_audio = Some p ->
  audio_start sgn eng arg w =
    let st := state_change eng p GST_STATE_PLAYING in
    let host := VString (fmt_dotted (map4 (read_char sgn) arg)) in
    let w1 := emit (ESetState (Some p) GST_STATE_PLAYING st)
               (emit (EObjectSet (Some u) "port" (VInt 5001))
                 (emit (EObjectSet (Some u) "host" host) w)) in
    if truthy st
    then Ret 1 (emit (EPrint "GO: Audio pipeline state set to playing.\n") w1)
    else Ret (-1)
           (emit (EPrint "NOGO: Failed to start up audio pipeline!\n") w1).
Proof.
  intros Hf Hu Hp. open_world w. cbn in Hf, Hu, Hp. subst fta.
  run. rewrite Hu, Hp. cbn.
  destruct (state_change eng p GST_STATE_PLAYING); reflexivity.
Qed.

(** X3.  [audio_start] on a built audio pipeline sets the sink's host, then
    its port to 5001, then asks for PLAYING, and prints one line; it
    returns 1 when the engine accepts the request and -1 when it rejects
    it (where [video_start] returns 0 and -1); either way the sink's
    destination afterwards is the address of the call at port 5001. *)
Theorem audio_start_sets_destination (sgn : bool) (eng : Engine)
    (arg : bytes4) (w : world) (u p : GstElement) :
  first_time_audio w = false ->
  var w audioudpsink = Some u ->
  var w pipeline_audio = Some p ->
  let st := state_change eng p GST_STATE_PLAYING in
  let host := VString (fmt_dotted (map4 (read_char sgn) arg)) in
  exists w',
    audio_start sgn eng arg w = Ret (if truthy st then 1 else -1) w' /\
    emitted w w'
      [ EObjectSet (Some u) "host" host;
        EObjectSet (Some u) "port" (VInt 5001);
        ESetState (Some p) GST_STATE_PLAYING st;
        EPrint (if truthy st
                then "GO: Audio pipeline state set to playing.\n"
                else "NOGO: Failed to start up audio pipeline!\n") ] /\
    destination audioudpsink w' = Some (host, VInt 5001) /\
    first_time_audio w' = false.
Proof.
  intros Hf Hu Hp st host.
  rewrite (audio_start_built sgn eng arg w u p Hf Hu Hp). cbv zeta.
  fold st. fold host.
  destruct (truthy st); eexists; (split; [reflexivity|]);
    (split; [reflexivity|]); (split; [|exact Hf]);
    unfold destination; cbn [var emit log]; rewrite Hu;
    cbn [property opt_is]; rewrite Nat.eqb_refl; reflexivity.
Qed.

Lemma audio_start_sets_destination_witness :
  exists w',
    audio_start false eng_rejects_states (10, 0, 0, 7) after_audio_start
      = Ret (-1) w' /\
    destination audioudpsink w' = Some (VString "10.0.0.7", VInt 5001).
Proof.
  destruct (audio_start_sets_destination false eng_rejects_states
              (10, 0, 0, 7) after_audio_start 4%nat 0%nat
              eq_refl eq_refl eq_refl) as (w' & E & _ & D & _).
  exists w'. split; [exact E | exact D].
Defined.

(** X4.  When the engine rejects the request for PLAYING, [video_start] on
    a built pipeline returns -1 after its diagnostic, but the destination
    has already been changed to the address of the call; [video_running]
    is left as it was, and the state last requested of the pipeline is
    PLAYING. *)
Theorem rejected_start_keeps_new_destination (sgn : bool) (eng : Engine)
    (arg : bytes4) (w : world) (u p : GstElement) :
  first_time_video w = false ->
  var w udpsink = Some u ->
  var w pipeline = Some p ->
  state_change eng p GST_STATE_PLAYING = GST_STATE_CHANGE_FAILURE ->
  exists w',
    video_start sgn eng arg w = Ret (-1) w' /\
    hd_error (log w') = Some (EDebug "Failed to start up video pipeline!\n") /\
    destination udpsink w'
      = Some (VString (fmt_dotted (map4 (read_char sgn) arg)), VInt 5000) /\
    video_running w' = video_running w /\
    requested_state (log w') p = Some GST_STATE_PLAYING.
Proof.
  intros Hf Hu Hp Hrej.
  rewrite (video_start_built sgn eng arg w u p Hf Hu Hp). cbv zeta.
  rewrite Hrej. cbn [truthy state_change_code Z.eqb negb].
  eexists. split; [reflexivity|]. split; [reflexivity|].
  split; [|split; [reflexivity|]].
  - unfold destination. cbn [var emit log]. rewrite Hu.
    cbn [property opt_is]. rewrite Nat.eqb_refl. reflexivity.
  - cbn [log emit requested_state opt_is]. rewrite Nat.eqb_refl. reflexivity.
Qed.

Lemma rejected_start_keeps_new_destination_witness :
  exists w',
    video_start false eng_rejects_states (10, 0, 0, 7) after_granted_start
      = Ret (-1) w' /\
    destination udpsink w' = Some (VString "10.0.0.7", VInt 5000) /\
    video_running w' = true.
Proof.
  destruct (rejected_start_keeps_new_destination false eng_rejects_states
              (10, 0, 0, 7) after_granted_start 6%nat 1%nat
              eq_refl eq_refl eq_refl eq_refl) as (w' & E & _ & D & R & _).
  exists w'. split; [exact E|]. split; [exact D|]. rewrite R. reflexivity.
Defined.

(** X5.  The two pipelines do not touch each other: a start or a stop of
    one kind, however it ends, leaves the first-time flag and every
    element pointer of the other kind as they were; and the audio
    routines leave [video_running] alone. *)
Theorem kinds_are_independent (sgn : bool) (k : kind) (eng : Engine)
    (arg : bytes4) (w : world) :
  let started := world_of (start sgn k eng arg w) in
  let stopped := world_of (stop k eng w) in
  first_time (other k) started = first_time (other k) w /\
  first_time (other k) stopped = first_time (other k) w /\
  (forall x, var_kind x = other k ->
     var started x = var w x /\ var stopped x = var w x) /\
  match k with
  | audio => video_running started = video_running w /\
             video_running stopped = video_running w
  | video => True
  end.
Proof.
  intros started stopped. subst started stopped.
  destruct k; open_world w; unfold start, stop, other, first_time.
  - split; [paths; reflexivity|]. split; [paths; reflexivity|].
    split; [|exact I].
    intros x Hx. destruct x; try discriminate Hx;
      (split; [paths; reflexivity | paths; reflexivity]).
  - split; [paths; reflexivity|]. split; [paths; reflexivity|].
    split.
    + intros x Hx. destruct x; try discriminate Hx;
        (split; [paths; reflexivity | paths; reflexivity]).
    + split; paths; reflexivity.
Qed.

(** ** The built topology *)

Ltac distinct_handles :=
  repeat (apply NoDup_cons; [cbn [In]; intros Hin;
            repeat (destruct Hin as [Hin | Hin];
                    [injection Hin; intros; lia|]);
            exact Hin|]);
  apply NoDup_nil.

Ltac chain_leaf :=
  eexists _, _, _; (split; [reflexivity|]); (split; [trace_eq|]);
  cbv [first_time first_time_video first_time_audio var gvar_eqb
       pipeline_var stage_vars map app bins_filled link_ends chain combine
       tl List.length];
  repeat (match goal with |- _ /\ _ => split end);
  try reflexivity;
  first [ cbn [In]; intros Hin;
          repeat (destruct Hin as [Hin | Hin]; [discriminate Hin|]);
          exact Hin
        | distinct_handles ].

(** X6.  A first-time start of either kind in which every stage is
    instantiated and every link accepted gets past its build with the
    flag cleared: the stages handed to the one [gst_bin_add_many] are the
    stage globals in source-to-sink order (six for video, four for audio),
    they are pairwise distinct and none is [NULL], and the links attempted
    are exactly each stage with its successor, so the pipeline is a single
    chain from the source to the sink. *)
Theorem built_pipeline_is_a_chain (sgn : bool) (k : kind) (eng : Engine)
    (arg : bytes4) (w : world) :
  first_time k w = true ->
  stages_instantiate k eng ->
  (forall a b, link_accepts eng a b = true) ->
  exists r w' tr,
    start sgn k eng arg w = Ret r w' /\
    emitted w w' tr /\
    first_time k w' = false /\
    bins_filled tr
      = [(var w' (pipeline_var k), map (var w') (stage_vars k))] /\
    link_ends tr = chain (map (var w') (stage_vars k)) /\
    List.length (stage_vars k)
      = match k with video => 6%nat | audio => 4%nat end /\
    ~ In None (map (var w') (stage_vars k)) /\
    NoDup (map (var w') (stage_vars k)).
Proof.
  intros Hf Hi Hl. destruct k; cbn in Hi.
  - repeat (apply andb_prop in Hi; destruct Hi as [? Hi]).
    open_world w. cbn in Hf. subst ftv. unfold start. run. use_answers.
    rewrite !Hl. cbn [negb]. cbv beta iota.
    split_answers; chain_leaf.
  - destruct Hi as [Hi Hs].
    repeat (apply andb_prop in Hi; destruct Hi as [? Hi]).
    open_world w. cbn in Hf. subst fta. unfold start.
    destruct (factory_available eng "openslessrc") eqn:Hp.
    + run. use_answers. rewrite !Hl. cbn [negb]. cbv beta iota.
      split_answers; chain_leaf.
    + cbn in Hs. run. use_answers. rewrite !Hl. cbn [negb]. cbv beta iota.
      split_answers; chain_leaf.
Qed.

Lemma built_pipeline_is_a_chain_witness :
  exists r w' tr,
    start false audio eng_no_capture scenario_address initial_world
      = Ret r w' /\
    emitted initial_world w' tr /\
    link_ends tr = chain (map (var w') (stage_vars audio)).
Proof.
  destruct (built_pipeline_is_a_chain false audio eng_no_capture
              scenario_address initial_world)
    as (r & w' & tr & E & Em & _ & _ & L & _).
  - reflexivity.
  - split; reflexivity.
  - intros a b. reflexivity.
  - exists r, w', tr. split; [exact E|]. split; [exact Em | exact L].
Defined.

Ltac run_stop :=
  cbv [gst_native_stream_stop video_stop audio_stop stop bind ret read
       do_emit g_print GST_DEBUG gst_element_set_state
       set_video_running emit world_of
       first_time_video first_time_audio video_running var next_element
       peers log].

Lemma stop_world (k : kind) (eng : Engine) (w : world) :
  exists w',
    stop k eng w = Ret 1 w' /\
    var w' = var w /\
    first_time_video w' = first_time_video w /\
    first_time_audio w' = first_time_audio w /\
    (forall obj key, property (log w') obj key = property (log w) obj key) /\
    (forall b, stages (log w') b = stages (log w) b).
Proof.
  open_world w.
  destruct k; run_stop; eexists; (split; [reflexivity|]);
    repeat split; reflexivity.
Qed.

(** X7.  After the build nothing but the destination is ever configured:
    a start of a built pipeline changes no property other than "host" and
    "port", and none at all of an object other than the sink; a stop
    changes no property; and neither adds a stage to any bin.  The caps of
    the capsfilter and the stage lists are those of the build. *)
Theorem only_destination_is_reconfigured (sgn : bool) (k : kind)
    (eng : Engine) (arg : bytes4) (w : world) :
  first_time k w = false ->
  let started := world_of (start sgn k eng arg w) in
  let stopped := world_of (stop k eng w) in
  (forall obj key, key <> "host" -> key <> "port" ->
     property (log started) obj key = property (log w) obj key) /\
  (forall obj key, var w (sink_var k) <> Some obj ->
     property (log started) obj key = property (log w) obj key) /\
  (forall obj key,
     property (log stopped) obj key = property (log w) obj key) /\
  (forall b, stages (log started) b = stages (log w) b /\
             stages (log stopped) b = stages (log w) b).
Proof.
  intros Hf started stopped. subst started stopped.
  assert (Hstop : (forall obj key,
             property (log (world_of (stop k eng w))) obj key
             = property (log w) obj key) /\
          (forall b, stages (log (world_of (stop k eng w))) b
                     = stages (log w) b)).
  { destruct (stop_world k eng w) as (w' & E & _ & _ & _ & P & S).
    rewrite E. cbn [world_of]. split; assumption. }
  destruct Hstop as [Hsp Hss].
  split; [|split; [|split; [exact Hsp|]]].
  - intros obj key Hh Hp.
    assert (E1 : String.eqb "host" key = false)
      by (apply String.eqb_neq; congruence).
    assert (E2 : String.eqb "port" key = false)
      by (apply String.eqb_neq; congruence).
    destruct k; open_world w; cbn in Hf; subst; unfold start; paths;
      cbn [world_of log property]; rewrite E1, E2, !andb_false_r;
      reflexivity.
  - intros obj key Hs.
    assert (E : opt_is (var w (sink_var k)) obj = false).
    { destruct (var w (sink_var k)) as [u|]; [|reflexivity].
      cbn [opt_is]. apply Nat.eqb_neq. congruence. }
    destruct k; open_world w; cbn in Hf; subst; cbn in E;
      unfold start; paths; cbn [world_of log property]; rewrite E;
      reflexivity.
  - intros b. split; [|apply Hss].
    destruct k; open_world w; cbn in Hf; subst; unfold start; paths;
      reflexivity.
Qed.

Lemma only_destination_is_reconfigured_witness :
  property (log (world_of (start false video eng_ok (10, 0, 0, 7)
                             after_granted_start))) 3%nat "caps"
  = Some (VCaps "video/x-raw" [("width", 320); ("height", 240)]).
Proof.
  destruct (only_destination_is_reconfigured false video eng_ok (10, 0, 0, 7)
              after_granted_start eq_refl) as [H _].
  rewrite H; [vm_compute; reflexivity | discriminate | discriminate].
Defined.

(** ** Stopping *)

(** X8.  [gst_native_stream_stop] always reports success: [video_stop]
    ignores both answers of the engine and returns 1, so the command logs
    "stream_stop: OK" whatever the engine answered, also when no pipeline
    was ever built and both requests went to a [NULL] element and
    failed. *)
Theorem stream_stop_always_reports_ok (eng : Engine) (w : world) :
  let p := var w pipeline in
  exists w',
    gst_native_stream_stop eng w = Ret tt w' /\
    emitted w w'
      [ ESetState p GST_STATE_PAUSED (state_answer eng p GST_STATE_PAUSED);
        EPrint "Video pipeline: paused\n";
        ESetState p GST_STATE_NULL (state_answer eng p GST_STATE_NULL);
        EPrint "Video pipeline: null\n";
        EPrint "stream_stop: OK\n";
        EDebug "my pipeline streaming stopped" ] /\
    video_running w' = false /\
    match p with
    | None =>
        state_answer eng p GST_STATE_PAUSED = GST_STATE_CHANGE_FAILURE /\
        state_answer eng p GST_STATE_NULL = GST_STATE_CHANGE_FAILURE
    | Some _ => True
    end.
Proof.
  intros p. subst p. open_world w. run_stop. eexists.
  split; [reflexivity|]. split; [trace_eq|]. split; [reflexivity|].
  destruct (vars pipeline); [exact I | split; reflexivity].
Qed.

(** X9.  A [streamStart] that gets past its build, followed by a
    [streamStop]: both return; afterwards the state last requested of the
    video pipeline is NULL and [video_running] is false, but the pipeline
    is still built and the sink still has the destination that the start
    gave it, port 5000 and the host as [video_start] has printed it: the
    four decoded octets read as plain [char].  That is the decoded
    address where plain [char] is unsigned or all octets are below 128;
    where it is signed, an octet above 127 stays in the host as a
    negative number.  So stopping neither tears the pipeline down nor
    changes the destination. *)
Theorem start_then_stop (sgn : bool) (eng eng' : Engine) (b0 b1 b2 b3 : Z)
    (w : world) :
  video_inv w ->
  passes_video_build eng w ->
  let host := fmt_dotted (map4 (read_char sgn) (decoded b0 b1 b2 b3)) in
  exists w1 w2 p,
    gst_native_stream_start sgn eng b0 b1 b2 b3 w = Ret tt w1 /\
    gst_native_stream_stop eng' w1 = Ret tt w2 /\
    var w2 pipeline = Some p /\
    requested_state (log w2) p = Some GST_STATE_NULL /\
    video_running w2 = false /\
    first_time_video w2 = false /\
    destination udpsink w1 = Some (VString host, VInt 5000) /\
    destination udpsink w2 = Some (VString host, VInt 5000) /\
    (sgn = false \/ octets_below_128 (decoded b0 b1 b2 b3) ->
     host = fmt_dotted (decoded b0 b1 b2 b3)).
Proof.
  intros Hinv Hpass host.
  set (recv := EPrint ("receiver IP: "
                       ++ fmt_dotted (decoded b0 b1 b2 b3) ++ "\n")).
  destruct (video_start_gate sgn eng (decoded b0 b1 b2 b3) (emit recv w))
    as (w0 & u & p & tr & Hf & Hu & Hp & Hl & Hno & E).
  { exact Hinv. } { exact Hpass. }
  rewrite stream_start_unfold. fold recv. rewrite E.
  rewrite (video_start_built sgn eng _ w0 u p Hf Hu Hp). cbv zeta.
  fold host. open_world w0.
  cbn [first_time_video var] in Hf, Hu, Hp. subst ftv.
  destruct (truthy (state_change eng p GST_STATE_PLAYING));
    run_stop; eexists _, _, p;
    (split; [reflexivity|]); (split; [reflexivity|]);
    (split; [exact Hp|]); rewrite Hp;
    (split; [cbn [requested_state opt_is]; rewrite Nat.eqb_refl;
             reflexivity|]);
    (split; [reflexivity|]); (split; [reflexivity|]);
    unfold destination; cbn [var log emit set_video_running]; rewrite Hu;
    cbn [property opt_is andb]; rewrite Nat.eqb_refl;
    cbn [andb String.eqb Ascii.eqb Bool.eqb property opt_is];
    (split; [reflexivity|]); (split; [reflexivity|]);
    intros Hc; unfold host; rewrite (read_char_decoded sgn b0 b1 b2 b3 Hc);
    reflexivity.
Qed.

Lemma start_then_stop_witness :
  exists w1 w2,
    gst_native_stream_start true eng_ok 64 40 129 228 initial_world
      = Ret tt w1 /\
    gst_native_stream_stop eng_rejects_states w1 = Ret tt w2 /\
    destination udpsink w2 = Some (VString "-64.-88.1.100", VInt 5000).
Proof.
  destruct (start_then_stop true eng_ok eng_rejects_states 64 40 129 228
              initial_world)
    as (w1 & w2 & p & E1 & E2 & _ & _ & _ & _ & _ & D & _).
  - intros H. discriminate H.
  - right. split; reflexivity.
  - exists w1, w2. split; [exact E1|]. split; [exact E2 | exact D].
Defined.

(** ** The elements of the process *)

Ltac requests h :=
  cbn [requested_state opt_is];
  repeat match goal with
         | |- context [opt_is ?o h] =>
             let E := fresh "Ep" in destruct o eqn:E; cbn [opt_is]
         | |- context [Nat.eqb ?a h] =>
             destruct (Nat.eqb_spec a h); [subst h|]
         end.

Lemma command_handles (sgn : bool) (eng : Engine) (c : command)
    (w w' : world) :
  run_command sgn eng c w = Ret tt w' ->
  handles_bounded w -> running_is_playing w ->
  handles_bounded w' /\ running_is_playing w' /\
  (next_element w <= next_element w')%nat /\
  (forall x h, var w' x = Some h ->
     var w x = Some h \/ (next_element w <= h)%nat) /\
  (forall h, (forall x, var w x <> Some h) -> (h < next_element w)%nat ->
     requested_state (log w') h = requested_state (log w) h).
Proof.
  intros E [Hb He] Hr. unfold handles_bounded, running_is_playing in *.
  open_world w. cbn [var next_element log video_running first_time_video] in *.
  destruct c as [b0 b1 b2 b3|]; unfold run_command in E.
  - revert E. paths; intros [= <-];
      cbn [var next_element log video_running first_time_video].
    all: split; [split|split; [|split; [|split]]].
    all: try lia.
    all: try (intros x h Hx; destruct x; cbn in Hx;
              first [ apply Hb in Hx; lia
                    | injection Hx as <-; lia ]).
    all: try (intros x h Hx; destruct x; cbn in Hx;
              first [ left; exact Hx
                    | right; injection Hx as <-; lia ]).
    all: try (intros h Hh; requests h;
              first [ apply He; lia
                    | lia
                    | match goal with
                      | H : _ = Some _ |- _ => apply Hb in H; lia
                      end ]).
    all: try (intros h Hn Hh; requests h;
              first [ reflexivity
                    | lia
                    | exfalso; eapply Hn; eassumption ]).
    all: intros Hv;
      first
        [ destruct (Hr Hv) as [X _]; discriminate X
        | split; [reflexivity|];
          match goal with
          | |- exists p, ?v = Some p /\ _ =>
              destruct v eqn:Ev;
              [ eexists; split; [reflexivity|];
                cbn [requested_state opt_is]; rewrite Nat.eqb_refl;
                reflexivity
              | first [ discriminate Ev
                      | destruct (Hr Hv) as (_ & p & Hp & _); discriminate Hp
                      | match goal with
                        | H : truthy _ = true |- _ =>
                            vm_compute in H; discriminate H
                        end ] ]
          end ].
  - revert E. paths; intros [= <-];
      cbn [var next_element log video_running first_time_video].
    all: split; [split|split; [|split; [|split]]].
    all: try lia.
    all: try (intros x h Hx; apply Hb in Hx; lia).
    all: try (intros x h Hx; left; exact Hx).
    all: try (intros h Hh; requests h;
              first [ apply He; lia
                    | lia
                    | match goal with
                      | H : _ = Some _ |- _ => apply Hb in H; lia
                      end ]).
    all: try (intros h Hn Hh; requests h;
              first [ reflexivity
                    | lia
                    | exfalso; eapply Hn; eassumption ]).
    all: intros Hv; discriminate Hv.
Qed.

Lemma handles_inv_start : handles_inv process_start.
Proof.
  unfold handles_inv, handles_bounded, running_is_playing. cbn.
  repeat split; try reflexivity; try discriminate; intros; discriminate.
Qed.

Ltac hinv_open :=
  unfold handles_inv, handles_bounded, running_is_playing,
    only_null_requested in *;
  cbn [first_time_video var video_running next_element
       proc_world proc_data proc_watch loop_running app_pc fin_pc
       log emit emits fold_left alloc requested_state
       before_launch has_loop
       CustomData.pipeline CustomData.main_loop set_main_loop
       set_initialized] in *;
  repeat match goal with
         | H : _ /\ _ |- _ => destruct H
         | H : true = true -> _ |- _ => specialize (H eq_refl)
         | H : false = true -> _ |- _ => clear H
         end;
  repeat match goal with |- _ /\ _ => split end;
  try assumption; try discriminate; try (intros; discriminate);
  try (intros; reflexivity); try (split; reflexivity);
  try (intros; congruence);
  try (intros; split; first [assumption | reflexivity]).

Ltac null_request He Hr Hd :=
  match goal with
  | |- forall h, (_ <= h)%nat -> _ =>
      let h := fresh "h" in
      let Hh := fresh "Hh" in
      intros h Hh;
      match goal with
      | |- context [opt_is ?o h] =>
          let q := fresh "q" in
          let Eq := fresh "Eq" in
          destruct o as [q|] eqn:Eq; cbn [opt_is];
          [ destruct (Nat.eqb_spec q h);
            [ subst; destruct (Hd _ eq_refl) as [? _]; lia | apply He, Hh ]
          | apply He, Hh ]
      end
  | |- _ = true -> _ =>
      let Hv := fresh "Hv" in
      let Hf := fresh "Hf" in
      let p := fresh "p" in
      let Hp := fresh "Hp" in
      let Hs := fresh "Hs" in
      intros Hv; destruct (Hr Hv) as (Hf & p & Hp & Hs);
      split; [exact Hf|]; exists p; split; [exact Hp|];
      match goal with
      | |- context [opt_is ?o p] =>
          let q := fresh "q" in
          let Eq := fresh "Eq" in
          destruct o as [q|] eqn:Eq; cbn [opt_is];
          [ destruct (Nat.eqb_spec q p);
            [ subst; destruct (Hd _ eq_refl) as (_ & Hn & _);
              exfalso; apply (Hn pipeline Hp)
            | exact Hs ]
          | exact Hs ]
      end
  | |- forall h, _ = Some h -> _ =>
      let h := fresh "h" in
      let Hh := fresh "Hh" in
      intros h Hh; destruct (Hd h Hh) as (? & ? & ?);
      split; [assumption|]; split; [assumption|];
      rewrite Hh; cbn [opt_is]; rewrite Nat.eqb_refl; right; reflexivity
  end.

Lemma handles_inv_step (sgn : bool) (s s' : process) :
  step sgn s s' -> handles_inv s -> handles_inv s'.
Proof.
  intros [a Ha] Hinv. destruct s as [w d watch run pc f].
  destruct Hinv as ([Hb He] & Hr & Hd & Hw & Hl & Hm & Hq).
  cbn [proc_world proc_data proc_watch loop_running app_pc fin_pc] in *.
  destruct a; cbn [perform app_pc fin_pc proc_world proc_data proc_watch
                   loop_running] in Ha.
  - (* ANativeInit *)
    destruct pc; try discriminate; destruct f; try discriminate.
    injection Ha as <-. hinv_open.
  - (* AAppBuild *)
    destruct pc; try discriminate.
    unfold app_build, bind, set_ui_message, GST_DEBUG, do_emit, ret in Ha.
    destruct error, launched; injection Ha as <-; hinv_open.
    all: try (intros x h Hx; apply Hb in Hx; lia).
    all: try (intros h Hh; apply He; lia).
    all: intros h [= <-]; split; [lia|];
      (split; [intros x Hx; apply Hb in Hx; lia | left; apply He; lia]).
  - (* AAppLoopNew *)
    destruct pc; try discriminate. injection Ha as <-. hinv_open.
  - (* AAppNotify *)
    destruct pc; try discriminate.
    unfold check_initialization_complete, bind, GST_DEBUG, do_emit, ret
      in Ha.
    destruct (negb _ && _); injection Ha as <-; hinv_open.
  - (* AAppRun *)
    destruct pc; try discriminate. injection Ha as <-. hinv_open.
  - (* AAppDispatch *)
    destruct pc; try discriminate. destruct run; try discriminate.
    unfold dispatch, error_cb, state_changed_cb, bind, set_ui_message,
      GST_DEBUG, do_emit, gst_element_set_state, ret in Ha.
    destruct (opt_is watch bus); [destruct msg|];
      try destruct (opt_is _ _); injection Ha as <-; hinv_open.
    all: null_request He Hr Hd.
  - (* AAppLeave *)
    destruct pc; try discriminate. destruct run; try discriminate.
    unfold app_leave, bind, GST_DEBUG, do_emit, gst_element_set_state, ret
      in Ha.
    injection Ha as <-. hinv_open.
    all: null_request He Hr Hd.
  - (* ACommand *)
    destruct (run_command sgn eng c w) as [[] w'|] eqn:E; try discriminate.
    injection Ha as <-.
    destruct (command_handles sgn eng c w w' E (conj Hb He) Hr)
      as (Hb' & Hr' & Hn & Hv & Hs).
    unfold handles_inv.
    cbn [proc_world proc_data proc_watch loop_running app_pc fin_pc].
    split; [exact Hb'|]. split; [exact Hr'|].
    split; [|split; [exact Hw|]; split; [exact Hl|]; split;
             [exact Hm | exact Hq]].
    intros h Hh. destruct (Hd h Hh) as (H1 & H2 & H3).
    split; [lia|]. split.
    + intros x Hx. destruct (Hv x h Hx) as [Hx'|Hx']; [exact (H2 x Hx') | lia].
    + unfold only_null_requested. rewrite (Hs h H2 H1). exact H3.
  - (* AFinalizeQuit *)
    destruct f; try discriminate. destruct pc; try discriminate;
      injection Ha as <-; hinv_open.
  - (* AFinalizeJoin *)
    destruct f; try discriminate.
    destruct (thread_ended pc) eqn:Hpc; try discriminate.
    injection Ha as <-. hinv_open.
  - (* AFinalizeDeleteRef *)
    destruct f; try discriminate. injection Ha as <-. hinv_open.
  - (* AFinalizeFree *)
    destruct f; try discriminate. injection Ha as <-. hinv_open.
  - (* AFinalizeClear *)
    destruct f; try discriminate. injection Ha as <-. hinv_open.
Qed.

Lemma reachable_handles (sgn : bool) (s : process) :
  reachable sgn s -> handles_inv s.
Proof.
  intros H. unfold reachable in H.
  remember process_start as s0 eqn:E0.
  induction H as [|s1 s2 s3 H12 IH H23].
  - subst. apply handles_inv_start.
  - eapply handles_inv_step; [exact H23 | apply IH, E0].
Qed.

(** X10.  No element that the native commands have created is ever the one
    whose bus the main loop watches, nor the pipeline held in
    [CustomData]: in every state the process reaches, a message posted on
    the bus of such an element is dispatched to no handler and changes
    nothing. *)
Theorem streaming_elements_are_unwatched (sgn : bool) (s : process)
    (x : gvar) (h : GstElement) :
  reachable sgn s ->
  var (proc_world s) x = Some h ->
  proc_watch s <> Some h /\
  CustomData.pipeline (proc_data s) <> Some h /\
  forall eng msg,
    dispatch eng (proc_watch s) h msg (proc_data s) (proc_world s)
      = Ret tt (proc_world s) /\
    forall s', perform sgn (AAppDispatch eng h msg) s = Some s' -> s' = s.
Proof.
  intros Hr Hx.
  destruct (reachable_handles sgn s Hr) as (_ & _ & Hd & Hw & _).
  assert (Hp : CustomData.pipeline (proc_data s) <> Some h).
  { intros Hp. destruct (Hd h Hp) as (_ & Hn & _). exact (Hn x Hx). }
  assert (Hn : proc_watch s <> Some h).
  { intros Hn. apply Hp, Hw, Hn. }
  assert (Ho : opt_is (proc_watch s) h = false).
  { destruct (proc_watch s) as [q|]; [|reflexivity]. cbn [opt_is].
    apply Nat.eqb_neq. congruence. }
  split; [exact Hn|]. split; [exact Hp|]. intros eng msg.
  assert (E : dispatch eng (proc_watch s) h msg (proc_data s) (proc_world s)
              = Ret tt (proc_world s)).
  { unfold dispatch. rewrite Ho. reflexivity. }
  split; [exact E|]. intros s' Hs'.
  destruct s as [w d watch run pc f].
  cbn [perform app_pc fin_pc proc_world proc_data proc_watch loop_running]
    in *.
  destruct pc; try discriminate Hs'. destruct run; try discriminate Hs'.
  rewrite E in Hs'. injection Hs' as <-. reflexivity.
Qed.

Lemma streaming_elements_are_unwatched_witness :
  dispatch eng_ok (proc_watch streaming_process) 1%nat camera_error
    (proc_data streaming_process) (proc_world streaming_process)
  = Ret tt (proc_world streaming_process).
Proof.
  destruct (streaming_elements_are_unwatched false streaming_process
              camera 1%nat) as (_ & _ & H).
  - apply (perform_all_steps false streaming_actions).
    vm_compute. reflexivity.
  - vm_compute. reflexivity.
  - apply (H eng_ok camera_error).
Defined.

(** X11.  The pipeline that [app_function] launches is never asked to
    play: in every state the process reaches, the state last requested of
    it is NULL or none at all, and it is none of the elements of the
    streaming pipelines. *)
Theorem session_pipeline_never_plays (sgn : bool) (s : process)
    (h : GstElement) :
  reachable sgn s ->
  CustomData.pipeline (proc_data s) = Some h ->
  only_null_requested (log (proc_world s)) h /\
  forall x, var (proc_world s) x <> Some h.
Proof.
  intros Hr Hp.
  destruct (reachable_handles sgn s Hr) as (_ & _ & Hd & _).
  destruct (Hd h Hp) as (_ & Hn & Ho). split; [exact Ho | exact Hn].
Qed.

Lemma session_pipeline_never_plays_witness :
  only_null_requested (log (proc_world finished_process)) 0%nat.
Proof.
  destruct (session_pipeline_never_plays false finished_process 0%nat)
    as [H _].
  - apply (perform_all_steps false (streaming_actions ++ finalize_actions)).
    vm_compute. reflexivity.
  - vm_compute. reflexivity.
  - exact H.
Defined.

(** X12.  [video_running] is only true of a pipeline that was built and
    last asked to play: in every state the process reaches in which the
    flag is set, the first-time block is done, [pipeline] is not [NULL],
    and PLAYING is the state last requested of it, whatever the callbacks
    and [gst_native_finalize] have done in between. *)
Theorem video_running_means_playing (sgn : bool) (s : process) :
  reachable sgn s ->
  video_running (proc_world s) = true ->
  first_time_video (proc_world s) = false /\
  exists p, var (proc_world s) pipeline = Some p /\
            requested_state (log (proc_world s)) p = Some GST_STATE_PLAYING.
Proof.
  intros Hr Hv.
  destruct (reachable_handles sgn s Hr) as (_ & Hp & _). exact (Hp Hv).
Qed.

Lemma video_running_means_playing_witness :
  exists p, var (proc_world finished_process) pipeline = Some p /\
            requested_state (log (proc_world finished_process)) p
            = Some GST_STATE_PLAYING.
Proof.
  apply (video_running_means_playing false finished_process).
  - apply (perform_all_steps false (streaming_actions ++ finalize_actions)).
    vm_compute. reflexivity.
  - vm_compute. reflexivity.
Defined.

(** X13.  An error on the watched bus, taken by the running main loop in
    a state the process has reached: [error_cb] tells the controller and
    asks the pipeline of [CustomData] for NULL; the main loop keeps
    running, and the video pipeline is left alone: [pipeline],
    [video_running] and the state last requested of the video pipeline
    are as before. *)
Theorem watched_error_spares_the_stream (sgn : bool) (s : process)
    (eng : Engine) (h src : GstElement) (src_name err_message : string) :
  reachable sgn s ->
  app_pc s = AppRunning -> loop_running s = true ->
  proc_watch s = Some h ->
  exists s',
    perform sgn (AAppDispatch eng h (MsgError src src_name err_message)) s
      = Some s' /\
    emitted (proc_world s) (proc_world s')
      [ EDebug ("Setting message to: Error received from element "
                ++ src_name ++ ": " ++ err_message);
        ESetMessage ("Error received from element " ++ src_name ++ ": "
                     ++ err_message);
        ESetState (Some h) GST_STATE_NULL
          (state_change eng h GST_STATE_NULL) ] /\
    app_pc s' = AppRunning /\ loop_running s' = true /\
    video_running (proc_world s') = video_running (proc_world s) /\
    forall p, var (proc_world s) pipeline = Some p ->
      var (proc_world s') pipeline = Some p /\
      requested_state (log (proc_world s')) p
      = requested_state (log (proc_world s)) p.
Proof.
  intros Hr Hpc Hrun Hwatch.
  destruct (reachable_handles sgn s Hr) as (_ & _ & Hd & Hw & _).
  pose proof (Hw h Hwatch) as Hp. destruct (Hd h Hp) as (_ & Hn & _).
  destruct s as [w d watch run pc f].
  cbn [proc_world proc_data proc_watch loop_running app_pc fin_pc] in *.
  subst pc run watch. open_world w.
  cbn [perform app_pc fin_pc proc_world proc_data proc_watch loop_running].
  unfold dispatch, error_cb, bind, set_ui_message, GST_DEBUG, do_emit,
    gst_element_set_state, state_answer, ret.
  cbn [opt_is]. rewrite Nat.eqb_refl, Hp. cbn [emit log var video_running
    first_time_video first_time_audio next_element peers].
  eexists. split; [reflexivity|].
  cbn [proc_world app_pc loop_running log var video_running emit].
  split; [reflexivity|]. split; [reflexivity|]. split; [reflexivity|].
  split; [reflexivity|]. intros p Hvp. split; [exact Hvp|].
  cbn [requested_state opt_is].
  destruct (Nat.eqb_spec h p) as [->|_]; [|reflexivity].
  exfalso. exact (Hn pipeline Hvp).
Qed.

Lemma watched_error_spares_the_stream_witness :
  exists s',
    perform false
      (AAppDispatch eng_ok 0%nat
         (MsgError 0%nat "autoaudiosink0" "Could not open audio device"))
      streaming_process = Some s' /\
    requested_state (log (proc_world s')) 0%nat = Some GST_STATE_NULL /\
    requested_state (log (proc_world s')) 2%nat = Some GST_STATE_PLAYING.
Proof.
  destruct (watched_error_spares_the_stream false streaming_process eng_ok
              0%nat 0%nat "autoaudiosink0" "Could not open audio device")
    as (s' & E & Em & _ & _ & _ & Hp).
  - apply (perform_all_steps false streaming_actions).
    vm_compute. reflexivity.
  - reflexivity.
  - reflexivity.
  - reflexivity.
  - exists s'. split; [exact E|].
    destruct (Hp 2%nat eq_refl) as [_ H2]. split.
    + unfold emitted in Em. rewrite Em. reflexivity.
    + rewrite H2. vm_compute. reflexivity.
Defined.



(** ** What the controller is told of the bus *)

Lemma dispatch_watched (eng : Engine) (h : GstElement) (msg : bus_message)
    (d : CustomData.t) (w : world) :
  CustomData.pipeline d = Some h ->
  exists w' tr,
    dispatch eng (Some h) h msg d w = Ret tt w' /\
    emitted w w' tr /\
    filter is_callback tr = map ESetMessage (ui_text h msg).
Proof.
  intros Hp. unfold dispatch, error_cb, state_changed_cb, bind,
    set_ui_message, GST_DEBUG, do_emit, gst_element_set_state, ret.
  cbn [opt_is]. rewrite Nat.eqb_refl, Hp.
  destruct msg as [src n e|src o st p|src]; cbn [opt_is ui_text].
  - eexists _, _. split; [reflexivity|]. split; [solve_emitted|]. reflexivity.
  - destruct (Nat.eqb h src).
    + eexists _, _. split; [reflexivity|]. split; [solve_emitted|].
      reflexivity.
    + exists w, []. split; [reflexivity|]. split; reflexivity.
  - exists w, []. split; [reflexivity|]. split; reflexivity.
Qed.

(** X16.  While the main loop runs, the controller is told one line for
    each error and for each state change of the watched pipeline itself,
    in the order of arrival; state changes of its children and other
    messages are dropped, and the loop keeps running whatever arrives. *)
Theorem bus_traffic_reaches_ui (sgn : bool) (h : GstElement)
    (traffic : list (Engine * bus_message)) (s : process) :
  app_pc s = AppRunning -> loop_running s = true ->
  proc_watch s = Some h -> CustomData.pipeline (proc_data s) = Some h ->
  exists s',
    perform_all sgn (deliveries h traffic) s = Some s' /\
    app_pc s' = AppRunning /\ loop_running s' = true /\
    filter is_callback (since (proc_world s) (proc_world s'))
      = map ESetMessage (flat_map (fun em => ui_text h (snd em)) traffic).
Proof.
  intros Hpc Hrun Hw Hp.
  cut (exists s' tr,
         perform_all sgn (deliveries h traffic) s = Some s' /\
         app_pc s' = AppRunning /\ loop_running s' = true /\
         emitted (proc_world s) (proc_world s') tr /\
         filter is_callback tr
         = map ESetMessage (flat_map (fun em => ui_text h (snd em)) traffic)).
  { intros (s' & tr & E & A & L & Em & F). exists s'.
    rewrite (since_emitted _ _ _ Em). auto. }
  revert s Hpc Hrun Hw Hp.
  induction traffic as [|[eng msg] rest IH]; intros s Hpc Hrun Hw Hp.
  - exists s, []. repeat split; auto.
  - destruct s as [w d watch run pc f].
    cbn [proc_world proc_data proc_watch loop_running app_pc fin_pc] in *.
    subst pc run watch.
    destruct (dispatch_watched eng h msg d w Hp) as (w1 & t1 & E1 & Em1 & F1).
    destruct (IH (mkProcess w1 d (Some h) true AppRunning f)
                eq_refl eq_refl eq_refl Hp)
      as (s' & t2 & E2 & A & L & Em2 & F2).
    exists s', (t1 ++ t2)%list.
    cbn [deliveries map perform_all perform fst snd app_pc fin_pc proc_world
         proc_data proc_watch loop_running].
    rewrite E1. split; [exact E2|]. split; [exact A|]. split; [exact L|].
    split; [eapply emitted_trans; eassumption|].
    cbn [flat_map snd]. rewrite filter_app, map_app, F1, F2. reflexivity.
Qed.

Lemma bus_traffic_reaches_ui_witness :
  exists s',
    perform_all false (deliveries 0%nat sample_traffic) streaming_process
      = Some s' /\
    filter is_callback
      (since (proc_world streaming_process) (proc_world s'))
    = [ ESetMessage "State changed to READY";
        ESetMessage "Error received from element autoaudiosink0: Could not open audio device" ].
Proof.
  destruct (bus_traffic_reaches_ui false 0%nat sample_traffic
              streaming_process eq_refl eq_refl eq_refl eq_refl)
    as (s' & E & _ & _ & F).
  exists s'. split; [exact E | exact F].
Defined.

(** ** The running flag *)

(** X17.  [video_running] is written but never read: with the flag set
    either way, a native command comes back or is aborted alike, and makes
    the same calls, leaves the same elements in the globals and the same
    first-time flag.  So a start on a playing pipeline is not refused: it
    sets the destination and asks for PLAYING again. *)
Theorem video_running_is_never_read (sgn : bool) (eng : Engine)
    (c : command) (b : bool) (w : world) :
  let r1 := run_command sgn eng c w in
  let r2 := run_command sgn eng c (set_video_running b w) in
  returned r2 = returned r1 /\
  log (world_of r2) = log (world_of r1) /\
  var (world_of r2) = var (world_of r1) /\
  first_time_video (world_of r2) = first_time_video (world_of r1) /\
  next_element (world_of r2) = next_element (world_of r1).
Proof.
  intros r1 r2. subst r1 r2. open_world w. unfold set_video_running.
  cbn [first_time_video first_time_audio video_running var next_element
       peers log].
  destruct c as [b0 b1 b2 b3|]; unfold run_command; paths;
    cbn [returned world_of log var first_time_video next_element];
    repeat (match goal with |- _ /\ _ => split end); reflexivity.
Qed.

(** ** The JNI environment *)

Ltac jni_run :=
  cbv [Jni.set_ui_message Jni.check_initialization_complete Jni.get_jni_env
       Jni.attach_current_thread Jni.record Jni.pthread_setspecific
       Jni.set_pending Jni.current_jni_env Jni.exception_pending Jni.calls
       Jni.attach_code Jni.attach_env Jni.method_throws].

Ltac jni_trace :=
  eexists; split; [repeat (eapply rev_snoc_app); apply rev_nil_app|];
  intros w;
  unfold logged_use, set_ui_message, check_initialization_complete, bind,
    GST_DEBUG, do_emit, ret;
  cbn [CustomData.initialized CustomData.main_loop negb andb];
  eexists _, _; (split; [reflexivity|]);
  (split; [unfold emitted; cbn [log emit];
           repeat (eapply rev_snoc_app); apply rev_nil_app|]);
  reflexivity.

Ltac jni_counts Ec :=
  cbn [Jni.current_jni_env Jni.exception_pending Jni.calls filter
       Jni.makes_ref Jni.drops_ref Jni.is_detach Jni.attached
       List.length negb];
  try rewrite Ec; cbn [negb List.length];
  repeat (match goal with |- _ /\ _ => split end);
  first [reflexivity | assumption | lia | congruence].

Lemma use_keeps_inv (u : Jni.use) (t t' : Jni.thread) :
  jni_inv t ->
  Jni.run_uses [u] t = Jni.Done tt t' ->
  jni_inv t' /\
  exists tr,
    Jni.calls t' = (rev tr ++ Jni.calls t)%list /\
    forall w, exists w' etr,
      logged_use u w = Ret tt w' /\
      emitted w w' etr /\
      filter is_callback etr = controller_calls tr.
Proof.
  intros (Hp & Hr & Hd & Ha) E. destruct t as [slot pend cs].
  unfold jni_inv, Jni.count in *.
  cbn [Jni.current_jni_env Jni.exception_pending Jni.calls] in *. subst pend.
  destruct u as [[code env throws] m d|[code env throws] [ap pl cx ml ini]];
    cbn [Jni.run_uses] in E; revert E; jni_run.
  - destruct slot as [e|]; [|destruct (code <? 0) eqn:Ec];
      destruct throws; cbn [orb]; intros [= <-];
      (split; [jni_counts Ec | jni_trace]).
  - cbn [CustomData.initialized CustomData.main_loop].
    destruct slot as [e|]; [|destruct (code <? 0) eqn:Ec];
      destruct ini, ml, throws; cbn [negb andb orb]; intros [= <-];
      (split; [jni_counts Ec | jni_trace]).
Qed.

Lemma run_uses_cons (u : Jni.use) (rest : list Jni.use) (t : Jni.thread) :
  Jni.run_uses (u :: rest) t
  = match Jni.run_uses [u] t with
    | Jni.Done _ t1 => Jni.run_uses rest t1
    | Jni.Fault t1 => Jni.Fault t1
    end.
Proof.
  destruct u as [vm m d|vm d]; cbn [Jni.run_uses].
  - destruct (Jni.set_ui_message vm m d t); reflexivity.
  - destruct (Jni.check_initialization_complete vm d t); reflexivity.
Qed.

Lemma controller_calls_app (l1 l2 : list Jni.call) :
  controller_calls (l1 ++ l2) = (controller_calls l1 ++ controller_calls l2)%list.
Proof. apply flat_map_app. Qed.

Lemma uses_keep_inv (us : list Jni.use) :
  forall t t',
    jni_inv t ->
    Jni.run_uses us t = Jni.Done tt t' ->
    jni_inv t' /\
    exists tr,
      Jni.calls t' = (rev tr ++ Jni.calls t)%list /\
      forall w, exists w' etr,
        logged_uses us w = Ret tt w' /\
        emitted w w' etr /\
        filter is_callback etr = controller_calls tr.
Proof.
  induction us as [|u rest IH]; intros t t' Hinv E.
  - injection E as <-. split; [exact Hinv|]. exists []. split; [reflexivity|].
    intros w. exists w, []. repeat split; reflexivity.
  - rewrite run_uses_cons in E.
    destruct (Jni.run_uses [u] t) as [[] t1|t1] eqn:E1; [|discriminate E].
    destruct (use_keeps_inv u t t1 Hinv E1) as (Hinv1 & tr1 & Hc1 & Hl1).
    destruct (IH t1 t' Hinv1 E) as (Hinv' & tr2 & Hc2 & Hl2).
    split; [exact Hinv'|]. exists (tr1 ++ tr2)%list. split.
    + rewrite Hc2, Hc1, rev_app_distr, app_assoc. reflexivity.
    + intros w. destruct (Hl1 w) as (w1 & e1 & L1 & Em1 & F1).
      destruct (Hl2 w1) as (w2 & e2 & L2 & Em2 & F2).
      exists w2, (e1 ++ e2)%list. cbn [logged_uses]. unfold bind.
      rewrite L1. split; [exact L2|].
      split; [eapply emitted_trans; eassumption|].
      rewrite filter_app, controller_calls_app, F1, F2. reflexivity.
Qed.

Lemma jni_inv_new : jni_inv Jni.new_thread.
Proof. repeat split. Qed.

(** X18.  On every run of the application thread that does not fault, the
    thread is attached to the VM at most once, however often the
    environment is asked for and however many attachments failed before;
    at its end the destructor of the key detaches it exactly if it was
    attached.  No Java exception is left pending, and every local
    reference made by [NewStringUTF] has been deleted. *)
Theorem thread_attaches_once_and_detaches (us : list Jni.use)
    (t : Jni.thread) :
  Jni.run_uses us Jni.new_thread = Jni.Done tt t ->
  let t' := Jni.thread_exit t in
  Jni.count Jni.attached t' = Jni.count Jni.is_detach t' /\
  (Jni.count Jni.attached t' <= 1)%nat /\
  Jni.count Jni.makes_ref t' = Jni.count Jni.drops_ref t' /\
  Jni.exception_pending t' = false /\
  Jni.current_jni_env t' = None.
Proof.
  intros E t'. subst t'.
  destruct (uses_keep_inv us _ _ jni_inv_new E) as ((Hp & Hr & Hd & Ha) & _).
  destruct t as [slot pend cs]. unfold Jni.count, Jni.thread_exit in *.
  cbn [Jni.current_jni_env Jni.exception_pending Jni.calls] in *.
  destruct slot as [e|];
    cbn [Jni.detach_current_thread Jni.pthread_setspecific Jni.record
         Jni.current_jni_env Jni.exception_pending Jni.calls filter
         Jni.attached Jni.is_detach Jni.makes_ref Jni.drops_ref List.length];
    repeat (match goal with |- _ /\ _ => split end);
    first [reflexivity | assumption | lia].
Qed.

Lemma thread_attaches_once_and_detaches_witness :
  exists t,
    Jni.run_uses sample_uses Jni.new_thread = Jni.Done tt t /\
    Jni.count Jni.attached (Jni.thread_exit t) = 1%nat /\
    Jni.count Jni.is_detach (Jni.thread_exit t) = 1%nat.
Proof.
  eexists. split; [vm_compute; reflexivity|].
  split; [vm_compute; reflexivity|].
  eapply eq_trans;
    [symmetry; eapply (thread_attaches_once_and_detaches sample_uses);
     vm_compute; reflexivity
    | vm_compute; reflexivity].
Defined.

(** X19.  The log of the embedding is what the JNI calls amount to: on
    every run of the application thread that does not fault, the calls on
    the controller made through JNI are, in order, the entries that
    [set_ui_message] and [check_initialization_complete] write to the
    log. *)
Theorem jni_calls_refine_the_log (us : list Jni.use) (t : Jni.thread)
    (w : world) :
  Jni.run_uses us Jni.new_thread = Jni.Done tt t ->
  exists w',
    logged_uses us w = Ret tt w' /\
    filter is_callback (since w w') = controller_calls (rev (Jni.calls t)).
Proof.
  intros E.
  destruct (uses_keep_inv us _ _ jni_inv_new E) as (_ & tr & Hc & Hl).
  destruct (Hl w) as (w' & etr & L & Em & F).
  exists w'. split; [exact L|].
  rewrite (since_emitted _ _ _ Em), F, Hc.
  cbn [Jni.new_thread Jni.calls]. rewrite app_nil_r, rev_involutive.
  reflexivity.
Qed.

Lemma jni_calls_refine_the_log_witness :
  exists w',
    logged_uses sample_uses initial_world = Ret tt w' /\
    filter is_callback (since initial_world w')
    = [ EOnInitialized; ESetMessage "State changed to READY";
        ESetMessage "State changed to PAUSED" ].
Proof.
  destruct (jni_calls_refine_the_log sample_uses
              (Jni.thread_of (Jni.run_uses sample_uses Jni.new_thread))
              initial_world) as (w' & L & F).
  - vm_compute. reflexivity.
  - exists w'. split; [exact L|]. rewrite F. vm_compute. reflexivity.
Defined.

(** X20.  Nothing checks the environment for [NULL]: when the thread is
    not attached and [AttachCurrentThread] fails, [set_ui_message]
    dereferences a [NULL] environment right after its debug line, with
    nothing told to the controller and the key still unset;
    [check_initialization_complete] does the same exactly when it would
    notify, and otherwise returns with the key unset, so that the next
    use tries to attach again. *)
Theorem failed_attach_faults (vm : Jni.JavaVM) (message : string)
    (data : CustomData.t) (t : Jni.thread) :
  Jni.current_jni_env t = None ->
  Jni.attach_code vm < 0 ->
  let attempt :=
    [ Jni.GstError "Failed to attach current thread";
      Jni.AttachCurrentThread (Jni.attach_code vm);
      Jni.GstDebug "Attaching thread %p" ] in
  Jni.set_ui_message vm message data t
    = Jni.Fault
        (Jni.mkThread None (Jni.exception_pending t)
           (Jni.GstDebug ("Setting message to: " ++ message)
            :: attempt ++ Jni.calls t)%list) /\
  Jni.check_initialization_complete vm data t
    = if negb (CustomData.initialized data) && CustomData.main_loop data
      then Jni.Fault
             (Jni.mkThread None (Jni.exception_pending t)
                (Jni.GstDebug
                   "Initialization complete, notifying application. main_loop:%p"
                 :: attempt ++ Jni.calls t)%list)
      else Jni.Done data
             (Jni.mkThread None (Jni.exception_pending t)
                (attempt ++ Jni.calls t)%list).
Proof.
  intros Hs Hc attempt. subst attempt. apply Z.ltb_lt in Hc.
  destruct t as [slot pend cs]. cbn [Jni.current_jni_env] in Hs. subst slot.
  unfold Jni.set_ui_message, Jni.check_initialization_complete,
    Jni.get_jni_env, Jni.attach_current_thread.
  cbn [Jni.current_jni_env]. rewrite Hc.
  split; [reflexivity|].
  destruct (negb (CustomData.initialized data) && CustomData.main_loop data);
    reflexivity.
Qed.

Lemma failed_attach_faults_witness :
  Jni.thread_of
    (Jni.set_ui_message vm_refusing "Unable to build pipeline: no element"
       g_new0_CustomData Jni.new_thread)
  = Jni.mkThread None false
      [ Jni.GstDebug "Setting message to: Unable to build pipeline: no element";
        Jni.GstError "Failed to attach current thread";
        Jni.AttachCurrentThread (-1);
        Jni.GstDebug "Attaching thread %p" ].
Proof.
  destruct (failed_attach_faults vm_refusing
              "Unable to build pipeline: no element" g_new0_CustomData
              Jni.new_thread eq_refl eq_refl) as [H _].
  rewrite H. reflexivity.
Defined.

(** ** Connections, and the audio pipeline *)

Lemma command_wires_nothing (sgn : bool) (eng : Engine) (c : command)
    (w w' : world) :
  run_command sgn eng c w = Ret tt w' ->
  (exists tr, emitted w w' tr /\ existsb is_connection tr = false) /\
  first_time_audio w' = first_time_audio w /\
  forall x, var_kind x = audio -> var w' x = var w x.
Proof.
  destruct c as [b0 b1 b2 b3|]; open_world w; unfold run_command;
    paths; intros [= <-];
    (split; [eexists; split; [trace_eq | vm_compute; reflexivity]|]);
    (split; [reflexivity|]);
    intros x Hx; destruct x; try discriminate Hx; reflexivity.
Qed.

Lemma wiring_inv_start : wiring_inv process_start.
Proof. repeat split. Qed.

Ltac wiring_case :=
  unfold wiring_inv in *;
  cbn [first_time_audio var proc_world proc_data app_pc fin_pc log emit emits
       fold_left alloc filter is_connection watching session_connections
       rev app CustomData.pipeline set_main_loop set_initialized] in *;
  repeat match goal with
         | H : _ /\ _ |- _ => destruct H
         end;
  repeat match goal with |- _ /\ _ => split end;
  try assumption; try reflexivity.

Lemma wiring_inv_step (sgn : bool) (s s' : process) :
  step sgn s s' -> wiring_inv s -> wiring_inv s'.
Proof.
  intros [a Ha] Hinv. destruct s as [w d watch run pc f].
  destruct a; cbn [perform app_pc fin_pc proc_world proc_data proc_watch
                   loop_running] in Ha.
  - destruct pc; try discriminate; destruct f; try discriminate.
    injection Ha as <-. wiring_case.
  - destruct pc; try discriminate.
    unfold app_build, bind, set_ui_message, GST_DEBUG, do_emit, ret in Ha.
    destruct Hinv as (Hc & Hf & Hv). cbn [proc_world app_pc watching] in Hc.
    destruct error, launched; injection Ha as <-; wiring_case;
      rewrite Hc; reflexivity.
  - destruct pc; try discriminate. injection Ha as <-. wiring_case.
  - destruct pc; try discriminate.
    unfold check_initialization_complete, bind, GST_DEBUG, do_emit, ret
      in Ha.
    destruct (negb _ && _); injection Ha as <-; wiring_case.
  - destruct pc; try discriminate. injection Ha as <-. wiring_case.
  - destruct pc; try discriminate. destruct run; try discriminate.
    unfold dispatch, error_cb, state_changed_cb, bind, set_ui_message,
      GST_DEBUG, do_emit, gst_element_set_state, ret in Ha.
    destruct (opt_is watch bus); [destruct msg|];
      try destruct (opt_is _ _); injection Ha as <-; wiring_case.
  - destruct pc; try discriminate. destruct run; try discriminate.
    unfold app_leave, bind, GST_DEBUG, do_emit, gst_element_set_state, ret
      in Ha.
    injection Ha as <-. wiring_case.
  - destruct (run_command sgn eng c w) as [[] w'|] eqn:E; try discriminate.
    injection Ha as <-.
    destruct (command_wires_nothing sgn eng c w w' E)
      as ((tr & Em & Hn) & Hf' & Hv').
    destruct Hinv as (Hc & Hf & Hv). unfold wiring_inv.
    cbn [proc_world proc_data app_pc] in *.
    split; [|split].
    + rewrite Em, filter_past; [exact Hc|]. rewrite existsb_rev. exact Hn.
    + rewrite Hf'. exact Hf.
    + intros x Hx. rewrite (Hv' x Hx). exact (Hv x Hx).
  - destruct f; try discriminate. destruct pc; try discriminate;
      injection Ha as <-; wiring_case.
  - destruct f; try discriminate.
    destruct (thread_ended pc) eqn:Hpc; try discriminate.
    injection Ha as <-. wiring_case.
  - destruct f; try discriminate. injection Ha as <-. wiring_case.
  - destruct f; try discriminate. injection Ha as <-. wiring_case.
  - destruct f; try discriminate. injection Ha as <-. wiring_case.
Qed.

Lemma reachable_wiring (sgn : bool) (s : process) :
  reachable sgn s -> wiring_inv s.
Proof.
  intros H. unfold reachable in H.
  remember process_start as s0 eqn:E0.
  induction H as [|s1 s2 s3 H12 IH H23].
  - subst. apply wiring_inv_start.
  - eapply wiring_inv_step; [exact H23 | apply IH, E0].
Qed.

(** X22.  Nothing reachable from the native methods builds the audio
    pipeline: in every state the process reaches, [first_time_audio] is
    still set and every audio global is still [NULL]. *)
Theorem audio_is_never_built (sgn : bool) (s : process) :
  reachable sgn s ->
  first_time_audio (proc_world s) = true /\
  (forall x, var_kind x = audio -> var (proc_world s) x = None) /\
  stage_count audio (proc_world s) = 0%nat.
Proof.
  intros Hr. destruct (reachable_wiring sgn s Hr) as (_ & Hf & Hv).
  split; [exact Hf|]. split; [exact Hv|].
  unfold stage_count. cbn [pipeline_var]. rewrite (Hv pipeline_audio eq_refl).
  reflexivity.
Qed.

Lemma audio_is_never_built_witness :
  var (proc_world finished_process) audioudpsink = None.
Proof.
  destruct (audio_is_never_built false finished_process) as (_ & H & _).
  - apply (perform_all_steps false (streaming_actions ++ finalize_actions)).
    vm_compute. reflexivity.
  - apply H. reflexivity.
Defined.

(** ** The process with all its sessions *)

(** ** Lists changed in one place *)

Lemma nth_error_update_eq {A} (i : nat) (x y : A) (l : list A) :
  nth_error l i = Some y -> nth_error (update_nth i x l) i = Some x.
Proof.
  revert i. induction l as [|z l IH]; intros [|i] H; cbn in *;
    try discriminate; auto.
Qed.

Lemma nth_error_update_neq {A} (i j : nat) (x : A) (l : list A) :
  i <> j -> nth_error (update_nth i x l) j = nth_error l j.
Proof.
  revert i j. induction l as [|z l IH]; intros [|i] [|j] H; cbn; auto.
  - congruence.
Qed.

Lemma nth_error_update {A} (i j : nat) (x y : A) (l : list A) :
  nth_error l i = Some y ->
  nth_error (update_nth i x l) j
  = if Nat.eqb i j then Some x else nth_error l j.
Proof.
  intros H. destruct (Nat.eqb_spec i j) as [<-|Hn].
  - eapply nth_error_update_eq. exact H.
  - apply nth_error_update_neq. exact Hn.
Qed.

Lemma nth_error_snoc {A} (l : list A) (x : A) (j : nat) :
  nth_error (l ++ [x]) j
  = if Nat.eqb j (List.length l) then Some x else nth_error l j.
Proof.
  revert j. induction l as [|y l IH]; intros [|j]; cbn; auto.
  - destruct j; reflexivity.
Qed.

(** ** What one step does to the sessions *)

Lemma sys_perform_sessions (sgn : bool) (a : sys_action) (s s' : system) :
  sys_perform sgn a s = Some s' ->
  (forall i sess, nth_error (sys_sessions s) i = Some sess ->
     exists sess', nth_error (sys_sessions s') i = Some sess' /\
                   session_change a i (sys_world s) sess sess') /\
  (forall i sess', nth_error (sys_sessions s') i = Some sess' ->
     (exists sess, nth_error (sys_sessions s) i = Some sess /\
                   session_change a i (sys_world s) sess sess') \/
     (sess' = new_session /\ i = List.length (sys_sessions s) /\
      exists thiz, a = SInit thiz)).
Proof.
  intros H. destruct s as [w ss fld th fs cr]. unfold sys_perform in H.
  cbn [sys_crashed sys_world sys_sessions sys_field sys_app_thread
       sys_finalizers] in *.
  destruct cr; [discriminate|].
  assert (Hsame :
            (forall i sess, nth_error ss i = Some sess ->
               exists sess', nth_error ss i = Some sess' /\
                             session_change a i w sess sess') /\
            (forall i sess', nth_error ss i = Some sess' ->
               (exists sess, nth_error ss i = Some sess /\
                             session_change a i w sess sess') \/
               (sess' = new_session /\ i = List.length ss /\
                exists thiz, a = SInit thiz))).
  { split.
    - intros i sess Hi. exists sess. split; [exact Hi | apply change_none; auto].
    - intros i sess Hi. left. exists sess.
      split; [exact Hi | apply change_none; auto]. }
  assert (Hupd : forall j old new,
            nth_error ss j = Some old -> session_change a j w old new ->
            (forall i sess, nth_error ss i = Some sess ->
               exists sess', nth_error (update_nth j new ss) i = Some sess' /\
                             session_change a i w sess sess') /\
            (forall i sess', nth_error (update_nth j new ss) i = Some sess' ->
               (exists sess, nth_error ss i = Some sess /\
                             session_change a i w sess sess') \/
               (sess' = new_session /\ i = List.length ss /\
                exists thiz, a = SInit thiz))).
  { intros j old new Hj Hc. split.
    - intros i sess Hi. rewrite (nth_error_update j i new old ss Hj).
      destruct (Nat.eqb_spec j i) as [->|Hn].
      + exists new. split; [reflexivity|]. congruence.
      + exists sess. split; [exact Hi | apply change_none; auto].
    - intros i sess' Hi. rewrite (nth_error_update j i new old ss Hj) in Hi.
      left. destruct (Nat.eqb_spec j i) as [->|Hn].
      + injection Hi as <-. exists old. split; assumption.
      + exists sess'. split; [exact Hi | apply change_none; auto]. }
  destruct a as [thiz|j ta|eng c|eng el pad|thiz|k].
  - injection H as <-. cbn [sys_sessions sys_world]. split.
    + intros i sess Hi. exists sess. split; [|apply change_none; auto].
      rewrite nth_error_snoc.
      destruct (Nat.eqb_spec i (List.length ss)) as [->|_]; [|exact Hi].
      assert (Hlt : (List.length ss < List.length ss)%nat)
        by (apply nth_error_Some; congruence).
      lia.
    + intros i sess' Hi. rewrite nth_error_snoc in Hi.
      destruct (Nat.eqb_spec i (List.length ss)) as [->|_].
      * injection Hi as <-. right. split; [reflexivity|].
        split; [reflexivity|]. exists thiz. reflexivity.
      * left. exists sess'. split; [exact Hi | apply change_none; auto].
  - destruct (nth_error ss j) as [sess|] eqn:Hj; [|discriminate].
    destruct (thread_step ta sess w) as [n w'|n w'|] eqn:Ht;
      [| |discriminate]; injection H as <-; cbn [sys_sessions sys_world];
      apply (Hupd j sess n Hj).
    + eapply change_step; [reflexivity | exact Ht].
    + eapply change_fault; [reflexivity | exact Ht].
  - destruct (run_command sgn eng c w) as [[] w'|w'];
      injection H as <-; cbn [sys_sessions sys_world]; apply Hsame.
  - destruct (pad_added eng el pad w) as [[] w'|w'];
      injection H as <-; cbn [sys_sessions sys_world]; apply Hsame.
  - destruct (fld thiz) as [j|]; [|injection H as <-; apply Hsame].
    destruct (nth_error ss j) as [sess|] eqn:Hj; [|discriminate].
    destruct th as [t|]; [|discriminate].
    injection H as <-. cbn [sys_sessions sys_world].
    apply (Hupd j sess _ Hj). eapply change_quit; reflexivity.
  - destruct (nth_error fs k) as [f|]; [|discriminate].
    destruct (fin_at f); try discriminate.
    + destruct (nth_error ss (fin_thread f)) as [joined|]; [|discriminate].
      destruct (thread_ended (sess_pc joined)); [|discriminate].
      injection H as <-. apply Hsame.
    + injection H as <-. apply Hsame.
    + destruct (nth_error ss (fin_data f)) as [sess|] eqn:Hj; [|discriminate].
      injection H as <-. cbn [sys_sessions sys_world].
      apply (Hupd _ sess _ Hj). eapply change_free; reflexivity.
    + injection H as <-. apply Hsame.
Qed.

Lemma sessions_invariant (sgn : bool) (P : session -> Prop) :
  P new_session ->
  (forall a i w sess sess',
     P sess -> session_change a i w sess sess' -> P sess') ->
  forall s, sys_reachable sgn s ->
  forall i sess, nth_error (sys_sessions s) i = Some sess -> P sess.
Proof.
  intros Hnew Hstep s Hr. unfold sys_reachable, sys_steps in Hr.
  remember sys_start as s0 eqn:E0.
  induction Hr as [|s1 s2 s3 a H12 IH _ H23].
  - subst. intros [|i] sess H; discriminate H.
  - intros i sess' Hi.
    destruct (sys_perform_sessions sgn a s2 s3 H23) as [_ Hback].
    destruct (Hback i sess' Hi) as [(sess & Hs & Hc)|(-> & _)].
    + eapply Hstep; [eapply IH; eauto | exact Hc].
    + exact Hnew.
Qed.

(** ** The notification *)

Lemma set_ui_message_notifies_nothing (vm : Jni.JavaVM) (m : string)
    (d : CustomData.t) (t : Jni.thread) :
  Jni.count is_notify_call
    (Jni.thread_of (Jni.set_ui_message vm m d t))
  = Jni.count is_notify_call t.
Proof.
  destruct t as [slot pend cs], vm as [code env throws]. unfold Jni.count.
  jni_run.
  destruct slot as [e|]; [|destruct (code <? 0)];
    destruct pend, throws; reflexivity.
Qed.

Lemma thread_exit_calls (f : Jni.call -> bool) (t : Jni.thread) :
  f (Jni.GstDebug "Detaching thread %p") = false ->
  f Jni.DetachCurrentThread = false ->
  Jni.count f (Jni.thread_exit t) = Jni.count f t.
Proof.
  intros H1 H2. destruct t as [[e|] pend cs]; [|reflexivity].
  unfold Jni.count, Jni.thread_exit, Jni.detach_current_thread, Jni.record,
    Jni.pthread_setspecific.
  cbn [Jni.current_jni_env Jni.calls filter]. rewrite H1, H2. reflexivity.
Qed.

Lemma check_initialization_outcome (vm : Jni.JavaVM) (d : CustomData.t)
    (t : Jni.thread) :
  let notify := negb (CustomData.initialized d) && CustomData.main_loop d in
  match Jni.check_initialization_complete vm d t with
  | Jni.Done d' t' =>
      d' = (if notify then set_initialized true d else d) /\
      Jni.count is_notify_call t'
      = (Jni.count is_notify_call t + (if notify then 1 else 0))%nat
  | Jni.Fault t' =>
      notify = true /\ Jni.current_jni_env t = None /\
      Jni.attach_code vm < 0 /\
      Jni.count is_controller_call t' = Jni.count is_controller_call t
  end.
Proof.
  destruct t as [slot pend cs], vm as [code env throws],
    d as [ap pl cx ml ini].
  unfold Jni.count. jni_run.
  cbn [CustomData.initialized CustomData.main_loop].
  destruct slot as [e|]; [|destruct (code <? 0) eqn:Ec];
    destruct ini, ml; cbn [negb andb];
    try (destruct pend, throws; cbn [orb filter is_notify_call String.eqb
           Ascii.eqb Bool.eqb List.length];
         split; first [reflexivity | lia]).
  all: try (split; [reflexivity|]; cbn [filter is_notify_call List.length];
            lia).
  all: split; [reflexivity|]; split; [reflexivity|];
    split; [apply Z.ltb_lt; exact Ec | reflexivity].
Qed.

Lemma check_initialization_fault (vm : Jni.JavaVM) (d : CustomData.t)
    (t t' : Jni.thread) :
  Jni.check_initialization_complete vm d t = Jni.Fault t' ->
  Jni.count is_notify_call t' = Jni.count is_notify_call t.
Proof.
  destruct t as [slot pend cs], vm as [code env throws],
    d as [ap pl cx ml ini].
  unfold Jni.count. jni_run.
  cbn [CustomData.initialized CustomData.main_loop].
  destruct slot as [e|]; [|destruct (code <? 0) eqn:Ec];
    destruct ini, ml; cbn [negb andb]; try discriminate;
    try (destruct pend, throws; discriminate);
    intros [= <-]; reflexivity.
Qed.

Ltac use_message_count E :=
  match type of E with
  | Jni.set_ui_message ?vm ?m ?d ?t = _ =>
      let H := fresh "Hcount" in
      pose proof (set_ui_message_notifies_nothing vm m d t) as H;
      rewrite E in H; cbn [Jni.thread_of] in H
  end.

Ltac ok_fin :=
  repeat (match goal with |- _ /\ _ => split end);
  first [ congruence | assumption | reflexivity
        | intros; discriminate | intros; congruence | auto ].

Lemma session_change_ok (a : sys_action) (i : nat) (w : world)
    (sess sess' : session) :
  session_ok sess -> session_change a i w sess sess' -> session_ok sess'.
Proof.
  intros (Hn & Hi & Hm) Hc.
  destruct sess as [d fr wa run pc jni]. unfold session_ok, notifications in *.
  cbn [sess_data sess_pc sess_jni] in *.
  destruct Hc as [->|thiz _ ->|k _ ->|ta w' _ Ht|ta w' _ Ht];
    try (cbn; auto; fail).
  - (* a step of the thread *)
    unfold thread_step, tell_controller, with_jni in Ht.
    cbn [sess_data sess_pc sess_jni sess_freed sess_watch sess_loop_running]
      in Ht.
    destruct ta as [launched error vm| |vm| |eng vm bus msg|eng];
      destruct pc; try discriminate Ht.
    + destruct error as [err|].
      * destruct (Jni.set_ui_message _ _ _ _) as [[] t|t] eqn:E;
          [|discriminate Ht].
        use_message_count E. injection Ht as <- <-.
        cbn [sess_data sess_pc sess_jni CustomData.initialized
             past_notification] in *.
        rewrite thread_exit_calls by reflexivity.
        ok_fin.
      * injection Ht as <- <-. cbn in *. ok_fin.
    + injection Ht as <- <-. cbn in *. ok_fin.
    + pose proof (check_initialization_outcome vm d jni) as Ho.
      cbv zeta in Ho. cbn [past_notification] in Hi.
      rewrite Hi, (Hm eq_refl) in Ho. cbn [negb andb] in Ho.
      destruct (Jni.check_initialization_complete vm d jni) as [d' t|t];
        [|discriminate Ht].
      destruct Ho as [-> Hcnt]. injection Ht as <- <-.
      cbn [sess_data sess_pc sess_jni past_notification] in *.
      rewrite Hcnt, Hn. ok_fin.
    + injection Ht as <- <-. cbn in *. ok_fin.
    + destruct run; [|discriminate Ht].
      destruct (opt_is wa bus).
      * destruct msg as [src n e|src o st p|src].
        -- destruct (Jni.set_ui_message _ _ _ _) as [[] t|t] eqn:E;
             [|discriminate Ht].
           use_message_count E. injection Ht as <- <-.
           cbn in *. ok_fin.
        -- destruct (opt_is (CustomData.pipeline d) src).
           ++ destruct (Jni.set_ui_message _ _ _ _) as [[] t|t] eqn:E;
                [|discriminate Ht].
              use_message_count E. injection Ht as <- <-.
              cbn in *. ok_fin.
           ++ injection Ht as <- <-. cbn in *. ok_fin.
        -- injection Ht as <- <-. cbn in *. ok_fin.
      * injection Ht as <- <-. cbn in *. ok_fin.
    + destruct run; [discriminate Ht|]. injection Ht as <- <-.
      cbn [sess_data sess_pc sess_jni past_notification set_main_loop
           CustomData.initialized] in *.
      rewrite thread_exit_calls by reflexivity.
      ok_fin.
  - (* a fault of the thread *)
    unfold thread_step, tell_controller, with_jni in Ht.
    cbn [sess_data sess_pc sess_jni sess_freed sess_watch sess_loop_running]
      in Ht.
    destruct ta as [launched error vm| |vm| |eng vm bus msg|eng];
      destruct pc; try discriminate Ht.
    + destruct error as [err|]; [|discriminate Ht].
      destruct (Jni.set_ui_message _ _ _ _) as [[] t|t] eqn:E;
        [discriminate Ht|].
      use_message_count E. injection Ht as <- <-.
      cbn in *. ok_fin.
    + destruct (Jni.check_initialization_complete vm d jni) as [d' t|t] eqn:E;
        [discriminate Ht|].
      apply check_initialization_fault in E. injection Ht as <- <-.
      cbn in *. ok_fin.
    + destruct run; [|discriminate Ht].
      destruct (opt_is wa bus); [|discriminate Ht].
      destruct msg as [src n e|src o st p|src]; try discriminate Ht.
      * destruct (Jni.set_ui_message _ _ _ _) as [[] t|t] eqn:E;
          [discriminate Ht|].
        use_message_count E. injection Ht as <- <-.
        cbn in *. ok_fin.
      * destruct (opt_is (CustomData.pipeline d) src); [|discriminate Ht].
        destruct (Jni.set_ui_message _ _ _ _) as [[] t|t] eqn:E;
          [discriminate Ht|].
        use_message_count E. injection Ht as <- <-.
        cbn in *. ok_fin.
    + destruct run; discriminate Ht.
Qed.

Lemma session_ok_new : session_ok new_session.
Proof. repeat split. discriminate. Qed.

(** C4, as amended.  In every state the process reaches, with any number
    of sessions, the controller's [onGStreamerInitialized] has been called
    for a session once if its thread has gone past line 176 and not at
    all otherwise, and the [initialized] flag of its [CustomData] says
    which; so it is never called twice for one session, whatever
    messages, commands, new pads or other sessions come later, and never
    for a session whose launch failed.  [check_initialization_complete]
    itself, on any data and thread: it calls the method exactly when the
    loop is there and the flag is clear, and sets the flag right after;
    otherwise it calls nothing and leaves the data as they are.  It
    faults, calling nothing on the controller, exactly when it would
    notify and the thread has no environment and cannot attach. *)
Theorem initialization_notified_once (sgn : bool) (s : system) (i : nat)
    (sess : session) :
  sys_reachable sgn s ->
  nth_error (sys_sessions s) i = Some sess ->
  notifications sess
    = (if past_notification (sess_pc sess) then 1 else 0)%nat /\
  CustomData.initialized (sess_data sess) = past_notification (sess_pc sess) /\
  forall vm d t,
    let notify :=
      negb (CustomData.initialized d) && CustomData.main_loop d in
    match Jni.check_initialization_complete vm d t with
    | Jni.Done d' t' =>
        d' = (if notify then set_initialized true d else d) /\
        Jni.count is_notify_call t'
        = (Jni.count is_notify_call t + (if notify then 1 else 0))%nat
    | Jni.Fault t' =>
        notify = true /\ Jni.current_jni_env t = None /\
        Jni.attach_code vm < 0 /\
        Jni.count is_controller_call t' = Jni.count is_controller_call t
    end.
Proof.
  intros Hr Hi.
  destruct (sessions_invariant sgn session_ok session_ok_new
              session_change_ok s Hr i sess Hi) as (Hn & Hf & _).
  split; [exact Hn|]. split; [exact Hf|].
  intros vm d t. apply check_initialization_outcome.
Qed.

(** ** The calls of [gst_native_finalize] *)

(** A thread that has ended does nothing more. *)
Lemma ended_session_stays (a : sys_action) (i : nat) (w : world)
    (sess sess' : session) :
  thread_ended (sess_pc sess) = true ->
  session_change a i w sess sess' ->
  sess_pc sess' = sess_pc sess /\ sess_jni sess' = sess_jni sess /\
  sess_data sess' = sess_data sess.
Proof.
  intros He Hc.
  destruct Hc as [->|thiz _ ->|k _ ->|ta w' _ Ht|ta w' _ Ht];
    try (repeat split; reflexivity).
  - exfalso. unfold thread_step in Ht.
    destruct ta, (sess_pc sess); try discriminate Ht; discriminate He.
  - exfalso. unfold thread_step in Ht.
    destruct ta, (sess_pc sess); try discriminate Ht; discriminate He.
Qed.

(** How the calls of [gst_native_finalize] differ after a step: each goes
    on with the session and the thread it has read, and a new one starts
    at its [pthread_join]. *)
Lemma sys_perform_finalizers (sgn : bool) (a : sys_action) (s s' : system) :
  sys_perform sgn a s = Some s' ->
  (forall k f, nth_error (sys_finalizers s) k = Some f ->
     exists f', nth_error (sys_finalizers s') k = Some f' /\
       fin_thiz f' = fin_thiz f /\ fin_data f' = fin_data f /\
       fin_thread f' = fin_thread f /\
       (fin_at f' = fin_at f \/
        a = SFinalizer k /\
        finalize_progress (fin_at f') = S (finalize_progress (fin_at f)) /\
        (fin_at f = FinQuit ->
         exists joined,
           nth_error (sys_sessions s) (fin_thread f) = Some joined /\
           thread_ended (sess_pc joined) = true))) /\
  (forall k f', nth_error (sys_finalizers s') k = Some f' ->
     (exists f, nth_error (sys_finalizers s) k = Some f) \/
     (k = List.length (sys_finalizers s) /\ fin_at f' = FinQuit /\
      a = SFinalize (fin_thiz f') /\
      sys_field s (fin_thiz f') = Some (fin_data f') /\
      sys_app_thread s = Some (fin_thread f'))).
Proof.
  intros H. destruct s as [w ss fld th fs cr]. unfold sys_perform in H.
  cbn [sys_crashed sys_world sys_sessions sys_field sys_app_thread
       sys_finalizers] in *.
  destruct cr; [discriminate|].
  assert (Hsame :
            (forall k f, nth_error fs k = Some f ->
               exists f', nth_error fs k = Some f' /\
                 fin_thiz f' = fin_thiz f /\ fin_data f' = fin_data f /\
                 fin_thread f' = fin_thread f /\
                 (fin_at f' = fin_at f \/
                  a = SFinalizer k /\
                  finalize_progress (fin_at f')
                  = S (finalize_progress (fin_at f)) /\
                  (fin_at f = FinQuit ->
                   exists joined,
                     nth_error ss (fin_thread f) = Some joined /\
                     thread_ended (sess_pc joined) = true))) /\
            (forall k f', nth_error fs k = Some f' ->
               (exists f, nth_error fs k = Some f) \/
               (k = List.length fs /\ fin_at f' = FinQuit /\
                a = SFinalize (fin_thiz f') /\
                fld (fin_thiz f') = Some (fin_data f') /\
                th = Some (fin_thread f')))).
  { split.
    - intros k f Hk. exists f. split; [exact Hk|]. split; [reflexivity|].
      split; [reflexivity|]. split; [reflexivity|]. left. reflexivity.
    - intros k f Hk. left. exists f. exact Hk. }
  assert (Hadv : forall k f pc,
            a = SFinalizer k ->
            nth_error fs k = Some f ->
            finalize_progress pc = S (finalize_progress (fin_at f)) ->
            (fin_at f = FinQuit ->
             exists joined,
               nth_error ss (fin_thread f) = Some joined /\
               thread_ended (sess_pc joined) = true) ->
            (forall k0 f0, nth_error fs k0 = Some f0 ->
               exists f', nth_error (update_nth k (at_pc pc f) fs) k0
                          = Some f' /\
                 fin_thiz f' = fin_thiz f0 /\ fin_data f' = fin_data f0 /\
                 fin_thread f' = fin_thread f0 /\
                 (fin_at f' = fin_at f0 \/
                  a = SFinalizer k0 /\
                  finalize_progress (fin_at f')
                  = S (finalize_progress (fin_at f0)) /\
                  (fin_at f0 = FinQuit ->
                   exists joined,
                     nth_error ss (fin_thread f0) = Some joined /\
                     thread_ended (sess_pc joined) = true))) /\
            (forall k0 f', nth_error (update_nth k (at_pc pc f) fs) k0
                           = Some f' ->
               (exists f0, nth_error fs k0 = Some f0) \/
               (k0 = List.length fs /\ fin_at f' = FinQuit /\
                a = SFinalize (fin_thiz f') /\
                fld (fin_thiz f') = Some (fin_data f') /\
                th = Some (fin_thread f')))).
  { intros k f pc Ha Hk Hp Hj. split.
    - intros k0 f0 Hk0. rewrite (nth_error_update k k0 _ f fs Hk).
      destruct (Nat.eqb_spec k k0) as [<-|Hn].
      + exists (at_pc pc f). assert (f0 = f) by congruence. subst f0.
        split; [reflexivity|]. split; [reflexivity|]. split; [reflexivity|].
        split; [reflexivity|]. right. split; [exact Ha|].
        split; [exact Hp | exact Hj].
      + exists f0. split; [exact Hk0|]. split; [reflexivity|].
        split; [reflexivity|]. split; [reflexivity|]. left. reflexivity.
    - intros k0 f' Hk0. left.
      rewrite (nth_error_update k k0 _ f fs Hk) in Hk0.
      destruct (Nat.eqb_spec k k0) as [<-|Hn]; eauto. }
  destruct a as [thiz|j ta|eng c|eng el pad|thiz|k].
  - injection H as <-. apply Hsame.
  - destruct (nth_error ss j) as [sess|]; [|discriminate].
    destruct (thread_step ta sess w) as [n w'|n w'|];
      [| |discriminate]; injection H as <-; apply Hsame.
  - destruct (run_command sgn eng c w) as [[] w'|w'];
      injection H as <-; apply Hsame.
  - destruct (pad_added eng el pad w) as [[] w'|w'];
      injection H as <-; apply Hsame.
  - destruct (fld thiz) as [j|] eqn:Hf; [|injection H as <-; apply Hsame].
    destruct (nth_error ss j) as [sess|] eqn:Hj; [|discriminate].
    destruct th as [t|]; [|discriminate].
    injection H as <-. cbn [sys_finalizers sys_sessions]. split.
    + intros k f Hk. exists f.
      split; [|split; [reflexivity|]; split; [reflexivity|];
               split; [reflexivity|]; left; reflexivity].
      rewrite nth_error_snoc.
      destruct (Nat.eqb_spec k (List.length fs)) as [->|_]; [|exact Hk].
      assert (Hlt : (List.length fs < List.length fs)%nat)
        by (apply nth_error_Some; congruence).
      lia.
    + intros k f' Hk. rewrite nth_error_snoc in Hk.
      destruct (Nat.eqb_spec k (List.length fs)) as [->|_].
      * injection Hk as <-. right. cbn. repeat split; auto.
      * left. eauto.
  - destruct (nth_error fs k) as [f|] eqn:Hk; [|discriminate].
    destruct (fin_at f) eqn:Hat; try discriminate.
    + destruct (nth_error ss (fin_thread f)) as [joined|] eqn:Hj;
        [|discriminate].
      destruct (thread_ended (sess_pc joined)) eqn:He; [|discriminate].
      injection H as <-. cbn [sys_finalizers sys_sessions].
      apply (Hadv k f FinJoined);
        [reflexivity | exact Hk | rewrite Hat; reflexivity | intros _; eauto].
    + injection H as <-. cbn [sys_finalizers sys_sessions].
      apply (Hadv k f FinRefDeleted);
        [reflexivity | exact Hk | rewrite Hat; reflexivity
        | rewrite Hat; discriminate].
    + destruct (nth_error ss (fin_data f)) as [sess|]; [|discriminate].
      injection H as <-. cbn [sys_finalizers sys_sessions].
      apply (Hadv k f FinFreed);
        [reflexivity | exact Hk | rewrite Hat; reflexivity
        | rewrite Hat; discriminate].
    + injection H as <-. cbn [sys_finalizers sys_sessions].
      apply (Hadv k f FinReturned);
        [reflexivity | exact Hk | rewrite Hat; reflexivity
        | rewrite Hat; discriminate].
Qed.

Lemma joined_inv_step (sgn : bool) (a : sys_action) (s s' : system) :
  sys_perform sgn a s = Some s' -> joined_inv s -> joined_inv s'.
Proof.
  intros H Hinv k f' Hk Hp.
  destruct (sys_perform_finalizers sgn a s s' H) as [Hfwd Hback].
  destruct (sys_perform_sessions sgn a s s' H) as [Hsess _].
  assert (Hkeep : forall i sess,
            nth_error (sys_sessions s) i = Some sess ->
            thread_ended (sess_pc sess) = true ->
            exists sess', nth_error (sys_sessions s') i = Some sess' /\
                          thread_ended (sess_pc sess') = true).
  { intros i sess Hi He. destruct (Hsess i sess Hi) as (sess' & Hi' & Hc).
    exists sess'. split; [exact Hi'|].
    destruct (ended_session_stays a i _ sess sess' He Hc) as (-> & _).
    exact He. }
  destruct (Hback k f' Hk) as [[f Hf]|(_ & Hq & _)].
  - destruct (Hfwd k f Hf) as (f2 & Hk2 & _ & _ & Ht & Hat).
    assert (f2 = f') by congruence. subst f2. rewrite Ht.
    destruct Hat as [Hat|(_ & Hs & Hj)].
    + rewrite Hat in Hp. destruct (Hinv k f Hf Hp) as (sess & Hi & He).
      eapply Hkeep; eassumption.
    + destruct (fin_at f) eqn:Ef.
      * cbn in Hs. rewrite Hs in Hp. lia.
      * destruct (Hj eq_refl) as (joined & Hi & He).
        eapply Hkeep; eassumption.
      * destruct (Hinv k f Hf) as (sess & Hi & He);
          [rewrite Ef; cbn; lia | eapply Hkeep; eassumption].
      * destruct (Hinv k f Hf) as (sess & Hi & He);
          [rewrite Ef; cbn; lia | eapply Hkeep; eassumption].
      * destruct (Hinv k f Hf) as (sess & Hi & He);
          [rewrite Ef; cbn; lia | eapply Hkeep; eassumption].
      * destruct (Hinv k f Hf) as (sess & Hi & He);
          [rewrite Ef; cbn; lia | eapply Hkeep; eassumption].
  - rewrite Hq in Hp. cbn in Hp. lia.
Qed.

Lemma sys_run_inv (sgn : bool) (allowed : sys_action -> bool)
    (P : system -> Prop) :
  (forall a s s', sys_perform sgn a s = Some s' -> P s -> P s') ->
  forall s s', sys_run sgn allowed s s' -> P s -> P s'.
Proof.
  intros Hstep s s' Hr. induction Hr as [|s1 s2 s3 a H12 IH _ H23]; auto.
  intros H1. eapply Hstep; [exact H23 | apply IH, H1].
Qed.

Lemma reachable_joined (sgn : bool) (s : system) :
  sys_reachable sgn s -> joined_inv s.
Proof.
  intros Hr. eapply (sys_run_inv sgn _ joined_inv); [|exact Hr|].
  - intros a s1 s2. apply joined_inv_step.
  - intros k f Hk. destruct k; discriminate Hk.
Qed.

Lemma ended_session_later (sgn : bool) (allowed : sys_action -> bool)
    (s s' : system) (i : nat) (sess : session) :
  sys_run sgn allowed s s' ->
  nth_error (sys_sessions s) i = Some sess ->
  thread_ended (sess_pc sess) = true ->
  exists sess',
    nth_error (sys_sessions s') i = Some sess' /\
    sess_pc sess' = sess_pc sess /\ sess_jni sess' = sess_jni sess /\
    sess_data sess' = sess_data sess.
Proof.
  intros Hr Hi He. induction Hr as [|s1 s2 s3 a H12 IH _ H23].
  - exists sess. repeat split; auto.
  - destruct (IH Hi) as (sess2 & Hi2 & Hp & Hj & Hd).
    destruct (sys_perform_sessions sgn a s2 s3 H23) as [Hsess _].
    destruct (Hsess i sess2 Hi2) as (sess3 & Hi3 & Hc).
    assert (He2 : thread_ended (sess_pc sess2) = true) by congruence.
    destruct (ended_session_stays a i _ sess2 sess3 He2 Hc) as (P3 & J3 & D3).
    exists sess3. repeat split; congruence.
Qed.

(** X23.  [gst_native_finalize] waits for the thread named by
    [gst_app_thread].  Where that is the thread of the session it has
    read from the native field, the session's thread has ended before
    the controller reference is deleted, the [CustomData] freed and the
    field cleared; and from the return of [pthread_join] on, whatever the
    process does, that thread makes no JNI call: nothing is called on the
    controller for that session again. *)
Theorem joined_session_stays_silent (sgn : bool) (s s' : system) (k : nat)
    (f : finalizer) (sess : session) :
  sys_reachable sgn s -> sys_steps sgn s s' ->
  nth_error (sys_finalizers s) k = Some f ->
  (2 <= finalize_progress (fin_at f))%nat ->
  fin_thread f = fin_data f ->
  nth_error (sys_sessions s) (fin_data f) = Some sess ->
  thread_ended (sess_pc sess) = true /\
  exists sess',
    nth_error (sys_sessions s') (fin_data f) = Some sess' /\
    sess_jni sess' = sess_jni sess /\
    sess_pc sess' = sess_pc sess.
Proof.
  intros Hr Hs Hk Hp Ht Hi.
  destruct (reachable_joined sgn s Hr k f Hk Hp) as (joined & Hj & He).
  rewrite Ht in Hj. assert (joined = sess) by congruence. subst joined.
  split; [exact He|].
  destruct (ended_session_later sgn _ s s' _ sess Hs Hi He)
    as (sess' & Hi' & P & J & _).
  exists sess'. repeat split; assumption.
Qed.

(** C9 at its failing input.  [gst_native_finalize] joins the thread
    named by the global [gst_app_thread], which is the thread of the
    latest [gst_native_init], not the thread of the session it has read
    from the native field.  Two controller objects: the thread of the
    first session has launched its pipeline, the second session's launch
    fails and its thread ends, and the first object is finalized.  The
    call makes its five calls in order and returns, having joined the
    second thread: the first session's controller reference is deleted,
    its [CustomData] freed and the field cleared while its own thread is
    still before its main loop.  That thread goes on; it calls
    [onGStreamerInitialized] and, on the next state change of its
    pipeline, [setMessage], for the session that was finalized. *)
Theorem finalize_joins_the_latest_thread :
  let s := sys_after overlapping_sessions in
  let s' := sys_after (overlapping_sessions ++ freed_session_goes_on) in
  sys_perform_all false overlapping_sessions sys_start = Some s /\
  map (fun f => (fin_data f, fin_thread f, fin_at f)) (sys_finalizers s)
    = [(0%nat, 1%nat, FinReturned)] /\
  map sess_pc (sys_sessions s) = [AppBuilt; AppFailed] /\
  map sess_freed (sys_sessions s) = [true; false] /\
  sys_field s 0%nat = None /\
  filter is_finalize_call (rev (log (sys_world s))) = finalize_calls /\
  controller_calls_of s 0 = [] /\
  sys_perform_all false freed_session_goes_on s = Some s' /\
  sys_crashed s' = false /\
  controller_calls_of s' 0
    = [ Jni.CallVoidMethod "onGStreamerInitialized" None;
        Jni.CallVoidMethod "setMessage" (Some "State changed to READY") ].
Proof.
  intros s s'. subst s s'.
  repeat (match goal with |- _ /\ _ => split end); vm_compute; reflexivity.
Qed.

(** ** Finalizing before the main loop runs *)

Lemma join_waits_change (a : sys_action) (i : nat) (w : world)
    (sess sess' : session) :
  not_finalize_call a = true ->
  session_change a i w sess sess' ->
  early_quit (sess_pc sess) = true \/
  (sess_pc sess = AppRunning /\ sess_loop_running sess = true) ->
  early_quit (sess_pc sess') = true \/
  (sess_pc sess' = AppRunning /\ sess_loop_running sess' = true).
Proof.
  intros Ha Hc Hp.
  destruct Hc as [->|thiz -> _|k _ ->|ta w' _ Ht|ta w' _ Ht];
    try exact Hp; try discriminate Ha.
  - destruct sess as [d fr wa run pc jni].
    unfold thread_step, tell_controller, with_jni in Ht.
    cbn [sess_data sess_pc sess_jni sess_freed sess_watch sess_loop_running]
      in *.
    destruct Hp as [Hp|[-> ->]].
    + destruct pc; try discriminate Hp; destruct ta; try discriminate Ht.
      * injection Ht as <- <-. left. reflexivity.
      * destruct (Jni.check_initialization_complete _ _ _);
          [|discriminate Ht].
        injection Ht as <- <-. left. reflexivity.
      * injection Ht as <- <-. right. split; reflexivity.
    + destruct ta; try discriminate Ht. right.
      destruct (opt_is wa bus); [|injection Ht as <- <-; auto].
      destruct msg as [src n e|src o st p|src].
      * destruct (Jni.set_ui_message _ _ _ _); [|discriminate Ht].
        injection Ht as <- <-. auto.
      * destruct (opt_is _ src); [|injection Ht as <- <-; auto].
        destruct (Jni.set_ui_message _ _ _ _); [|discriminate Ht].
        injection Ht as <- <-. auto.
      * injection Ht as <- <-. auto.
  - destruct sess as [d fr wa run pc jni].
    unfold thread_step, tell_controller, with_jni in Ht.
    cbn [sess_data sess_pc sess_jni sess_freed sess_watch sess_loop_running]
      in *.
    destruct Hp as [Hp|[-> ->]].
    + destruct pc; try discriminate Hp; destruct ta; try discriminate Ht.
      destruct (Jni.check_initialization_complete _ _ _);
        [discriminate Ht|].
      injection Ht as <- <-. left. reflexivity.
    + destruct ta; try discriminate Ht. right.
      destruct (opt_is wa bus); [|discriminate Ht].
      destruct msg as [src n e|src o st p|src]; try discriminate Ht.
      * destruct (Jni.set_ui_message _ _ _ _); [discriminate Ht|].
        injection Ht as <- <-. auto.
      * destruct (opt_is _ src); [|discriminate Ht].
        destruct (Jni.set_ui_message _ _ _ _); [discriminate Ht|].
        injection Ht as <- <-. auto.
Qed.

Lemma waiting_thread_not_ended (sess : session) :
  early_quit (sess_pc sess) = true \/
  (sess_pc sess = AppRunning /\ sess_loop_running sess = true) ->
  thread_ended (sess_pc sess) = false.
Proof.
  intros [H|[-> _]]; [|reflexivity].
  destruct (sess_pc sess); try discriminate H; reflexivity.
Qed.

Lemma join_waits_step (sgn : bool) (a : sys_action) (k i : nat)
    (s s' : system) :
  not_finalize_call a = true ->
  sys_perform sgn a s = Some s' -> join_waits k i s -> join_waits k i s'.
Proof.
  intros Ha H (f & sess & Hk & Hat & Ht & Hi & Hp).
  destruct (sys_perform_finalizers sgn a s s' H) as [Hfwd _].
  destruct (sys_perform_sessions sgn a s s' H) as [Hsess _].
  destruct (Hfwd k f Hk) as (f' & Hk' & _ & _ & Ht' & Hat').
  destruct (Hsess i sess Hi) as (sess' & Hi' & Hc).
  exists f', sess'. split; [exact Hk'|].
  split; [|split; [congruence|split; [exact Hi'|]]].
  - destruct Hat' as [E|(_ & _ & Hj)]; [congruence|].
    exfalso. destruct (Hj Hat) as (joined & Hj1 & Hj2).
    rewrite Ht in Hj1. assert (joined = sess) by congruence. subst joined.
    rewrite (waiting_thread_not_ended sess Hp) in Hj2. discriminate Hj2.
  - eapply join_waits_change; eassumption.
Qed.

(** X15.  A [gst_native_finalize] called for a session whose thread
    is named by [gst_app_thread] and has launched its pipeline but is not
    yet inside [g_main_loop_run] does not return as long as
    [gst_native_finalize] is not called again: its [g_main_loop_quit] is
    lost (the loop is still [NULL], or is marked running again by
    [g_main_loop_run]), the thread does not end, and in every later state
    the call is still at its [pthread_join], which cannot return there.
    Sessions started, commands, bus messages and new pads in between
    change nothing of it. *)
Theorem early_finalize_never_returns (sgn : bool) (s s1 s2 : system)
    (thiz i : nat) (sess : session) :
  sys_field s thiz = Some i ->
  sys_app_thread s = Some i ->
  nth_error (sys_sessions s) i = Some sess ->
  early_quit (sess_pc sess) = true ->
  sys_perform sgn (SFinalize thiz) s = Some s1 ->
  sys_run sgn not_finalize_call s1 s2 ->
  let k := List.length (sys_finalizers s) in
  exists f sess2,
    nth_error (sys_finalizers s2) k = Some f /\
    fin_data f = i /\ fin_at f = FinQuit /\
    nth_error (sys_sessions s2) i = Some sess2 /\
    thread_ended (sess_pc sess2) = false /\
    sys_perform sgn (SFinalizer k) s2 = None.
Proof.
  intros Hf Ht Hi Hp H1 Hr k. subst k.
  assert (W1 : join_waits (List.length (sys_finalizers s)) i s1 /\
               exists f, nth_error (sys_finalizers s1)
                           (List.length (sys_finalizers s)) = Some f /\
                         fin_data f = i).
  { destruct s as [w ss fld th fs cr]. unfold sys_perform in H1.
    cbn [sys_crashed sys_world sys_sessions sys_field sys_app_thread
         sys_finalizers] in *.
    destruct cr; [discriminate|]. rewrite Hf, Hi, Ht in H1.
    injection H1 as <-. unfold join_waits. cbn [sys_finalizers sys_sessions].
    rewrite nth_error_snoc, Nat.eqb_refl.
    rewrite (nth_error_update_eq i _ sess ss Hi).
    split; [|eexists; split; reflexivity].
    eexists _, _. split; [reflexivity|]. split; [reflexivity|].
    split; [reflexivity|]. split; [reflexivity|]. left. exact Hp. }
  destruct W1 as [W1 (f1 & Hk1 & Hd1)].
  assert (W2 : join_waits (List.length (sys_finalizers s)) i s2 /\
               exists f, nth_error (sys_finalizers s2)
                           (List.length (sys_finalizers s)) = Some f /\
                         fin_data f = i).
  { clear H1. induction Hr as [|sa sb sc a Hab IH Hok Hbc].
    - split; [exact W1 | eauto].
    - destruct (IH W1 Hk1) as [Wb (fb & Hkb & Hdb)].
      split; [eapply join_waits_step; eassumption|].
      destruct (sys_perform_finalizers sgn a sb sc Hbc) as [Hfwd _].
      destruct (Hfwd _ fb Hkb) as (fc & Hkc & _ & Hdc & _).
      exists fc. split; [exact Hkc | congruence]. }
  destruct W2 as [(f & sess2 & Hk & Hat & Hth & Hi2 & Hp2) (f' & Hk' & Hd')].
  assert (f' = f) by congruence. subst f'.
  pose proof (waiting_thread_not_ended sess2 Hp2) as He.
  exists f, sess2. repeat (split; [assumption|]).
  unfold sys_perform. destruct (sys_crashed s2); [reflexivity|].
  rewrite Hk, Hat, Hth, Hi2, He. reflexivity.
Qed.

Lemma sys_perform_all_run (sgn : bool) (allowed : sys_action -> bool)
    (acts : list sys_action) :
  forallb allowed acts = true ->
  forall s s', sys_perform_all sgn acts s = Some s' ->
               sys_run sgn allowed s s'.
Proof.
  induction acts as [|a acts IH]; intros Hok s s' H; cbn in H.
  - injection H as <-. apply sys_run_refl.
  - cbn in Hok. apply andb_prop in Hok. destruct Hok as [Ha Hok].
    destruct (sys_perform sgn a s) as [s1|] eqn:E; [|discriminate].
    assert (R1 : sys_run sgn allowed s s1).
    { eapply sys_run_step; [apply sys_run_refl | exact Ha | exact E]. }
    specialize (IH Hok s1 s' H).
    clear -R1 IH. induction IH as [|sa sb sc b Hab IHr Hb Hbc]; [exact R1|].
    eapply sys_run_step; [apply IHr; exact R1 | exact Hb | exact Hbc].
Qed.

Lemma early_finalize_never_returns_witness :
  map sess_pc (sys_sessions early_finalized_later) = [AppRunning] /\
  map fin_at (sys_finalizers early_finalized_later) = [FinQuit] /\
  sys_perform false (SFinalizer 0) early_finalized_later = None.
Proof.
  split; [vm_compute; reflexivity|]. split; [vm_compute; reflexivity|].
  edestruct (early_finalize_never_returns false (sys_after early_finalize)
               early_finalized early_finalized_later 0%nat 0%nat)
    as (f & sess2 & _ & _ & _ & _ & _ & H).
  - vm_compute. reflexivity.
  - vm_compute. reflexivity.
  - vm_compute. reflexivity.
  - reflexivity.
  - vm_compute. reflexivity.
  - apply (sys_perform_all_run false not_finalize_call thread_goes_on).
    + reflexivity.
    + vm_compute. reflexivity.
  - exact H.
Defined.

(** ** Connections *)

Lemma command_connects_nothing (sgn : bool) (eng : Engine) (c : command)
    (w : world) :
  exists tr,
    emitted w (world_of (run_command sgn eng c w)) tr /\
    existsb is_connection tr = false /\
    existsb is_pad_call tr = false.
Proof.
  destruct c as [b0 b1 b2 b3|]; open_world w; unfold run_command;
    paths; cbn [world_of];
    (eexists; split; [trace_eq|]); split; vm_compute; reflexivity.
Qed.

(** What a step of a thread adds to the log: the three connections of
    lines 165-170 when it is the launch and the launch succeeds, no
    connection otherwise. *)
Lemma thread_step_connections (ta : thread_action) (sess sess' : session)
    (w w' : world) :
  thread_step ta sess w = Stepped sess' w' \/
  thread_step ta sess w = Faulted sess' w' ->
  exists tr,
    emitted w w' tr /\
    existsb is_pad_call tr = false /\
    ((filter is_connection tr = [] /\
      has_launched sess' = has_launched sess /\
      (has_launched sess = true ->
       CustomData.pipeline (sess_data sess')
       = CustomData.pipeline (sess_data sess))) \/
     (has_launched sess = false /\ has_launched sess' = true /\
      filter is_connection tr
      = session_connections (CustomData.pipeline (sess_data sess')))).
Proof.
  intros Ht. destruct sess as [d fr wa run pc jni].
  unfold thread_step, tell_controller, with_jni, has_launched in *.
  cbn [sess_data sess_pc sess_jni sess_freed sess_watch sess_loop_running]
    in *.
  assert (Hnone : forall s0 : session,
            sess_pc s0 = pc -> sess_data s0 = d ->
            exists tr, emitted w w tr /\ existsb is_pad_call tr = false /\
              ((filter is_connection tr = [] /\
                watching (sess_pc s0) = watching pc /\
                (watching pc = true ->
                 CustomData.pipeline (sess_data s0) = CustomData.pipeline d))
               \/
               (watching pc = false /\ watching (sess_pc s0) = true /\
                filter is_connection tr
                = session_connections (CustomData.pipeline (sess_data s0))))).
  { intros s0 Hp Hd. exists []. split; [reflexivity|].
    split; [reflexivity|]. left. rewrite Hp, Hd. auto. }
  destruct ta as [ok error vm| |vm| |eng vm bus msg|eng];
    destruct pc; try (destruct Ht as [Ht|Ht]; discriminate Ht).
  - (* the launch *)
    open_world w. destruct ok; (destruct error as [err|];
      [ destruct (Jni.set_ui_message _ _ _ _) as [[] t|t];
        destruct Ht as [Ht|Ht]; try discriminate Ht;
        injection Ht as <- <-; (eexists; split; [solve_emitted|]);
        (split; [reflexivity|]); left; cbn;
        (split; [reflexivity|]); (split; [reflexivity|]);
        intros Hw; discriminate Hw
      | destruct Ht as [Ht|Ht]; [|discriminate Ht];
        injection Ht as <- <-; (eexists; split; [solve_emitted|]);
        (split; [reflexivity|]); right; cbn; auto ]).
  - destruct Ht as [Ht|Ht]; [|discriminate Ht].
    injection Ht as <- <-. eexists. split; [solve_emitted|].
    split; [reflexivity|]. left. cbn. auto.
  - destruct (Jni.check_initialization_complete vm d jni) as [d' t|t] eqn:E;
      destruct Ht as [Ht|Ht]; try discriminate Ht; injection Ht as <- <-.
    + pose proof (check_initialization_outcome vm d jni) as Ho.
      rewrite E in Ho. cbv zeta in Ho. destruct Ho as [-> _].
      exists []. split; [reflexivity|]. split; [reflexivity|]. left.
      cbn. destruct (negb _ && _); auto.
    + apply (Hnone (mkSession d fr wa run AppLoopNew t)); reflexivity.
  - destruct Ht as [Ht|Ht]; [|discriminate Ht].
    injection Ht as <- <-. eexists. split; [solve_emitted|].
    split; [reflexivity|]. left. cbn. auto.
  - destruct run; [|destruct Ht as [Ht|Ht]; discriminate Ht].
    destruct (opt_is wa bus).
    + destruct msg as [src n e|src o st p|src].
      * destruct (Jni.set_ui_message _ _ _ _) as [[] t|t];
          destruct Ht as [Ht|Ht]; try discriminate Ht;
          injection Ht as <- <-.
        -- eexists. split; [solve_emitted|]. split; [reflexivity|].
           left. cbn. auto.
        -- apply (Hnone (mkSession d fr wa true AppRunning t)); reflexivity.
      * destruct (opt_is (CustomData.pipeline d) src).
        -- destruct (Jni.set_ui_message _ _ _ _) as [[] t|t];
             destruct Ht as [Ht|Ht]; try discriminate Ht;
             injection Ht as <- <-;
             apply (Hnone (mkSession d fr wa true AppRunning t));
             reflexivity.
        -- destruct Ht as [Ht|Ht]; [|discriminate Ht].
           injection Ht as <- <-.
           apply (Hnone (mkSession d fr wa true AppRunning jni)); reflexivity.
      * destruct Ht as [Ht|Ht]; [|discriminate Ht].
        injection Ht as <- <-.
        apply (Hnone (mkSession d fr wa true AppRunning jni)); reflexivity.
    + destruct Ht as [Ht|Ht]; [|discriminate Ht].
      injection Ht as <- <-.
      apply (Hnone (mkSession d fr wa true AppRunning jni)); reflexivity.
  - destruct run; destruct Ht as [Ht|Ht]; try discriminate Ht.
    injection Ht as <- <-. eexists. split; [solve_emitted|].
    split; [reflexivity|]. left. cbn. auto.
Qed.

Lemma flat_map_update_same {A B} (f : A -> list B) (i : nat) (old new : A)
    (l : list A) :
  nth_error l i = Some old -> f new = f old ->
  flat_map f (update_nth i new l) = flat_map f l.
Proof.
  revert i. induction l as [|y r IH]; intros [|j] Hi Hf; try discriminate.
  - injection Hi as ->. cbn. rewrite Hf. reflexivity.
  - cbn. rewrite (IH j Hi Hf). reflexivity.
Qed.

Lemma flat_map_update_new {A B} (f : A -> list B) (i : nat) (old new : A)
    (l : list A) :
  nth_error l i = Some old -> f old = [] ->
  Permutation (f new ++ flat_map f l) (flat_map f (update_nth i new l)).
Proof.
  revert i. induction l as [|y r IH]; intros [|j] Hi Hf; try discriminate.
  - injection Hi as ->. cbn. rewrite Hf. apply Permutation_refl.
  - cbn. eapply Permutation_trans; [apply Permutation_app_swap_app|].
    apply Permutation_app_head. apply (IH j Hi Hf).
Qed.

Lemma connections_grow (w w' : world) (tr : list event)
    (ss ss' : list session) :
  emitted w w' tr -> existsb is_pad_call tr = false ->
  Permutation (filter is_connection tr ++ flat_map connections_of ss)
              (flat_map connections_of ss') ->
  existsb is_pad_call (log w) = false /\
  Permutation (filter is_connection (log w)) (flat_map connections_of ss) ->
  existsb is_pad_call (log w') = false /\
  Permutation (filter is_connection (log w')) (flat_map connections_of ss').
Proof.
  unfold emitted. intros -> Hp Hg [Hl Hc]. split.
  - rewrite existsb_app, existsb_rev, Hp, Hl. reflexivity.
  - rewrite filter_app, filter_rev.
    eapply Permutation_trans; [|exact Hg].
    apply Permutation_app; [|exact Hc].
    apply Permutation_sym, Permutation_rev.
Qed.

Lemma connections_signal (s : system) (o : option GstElement)
    (signal : string) :
  connections_inv s ->
  In (ESignalConnect o signal) (log (sys_world s)) ->
  signal = "message::error" \/ signal = "message::state-changed".
Proof.
  intros [_ Hc] Hin.
  assert (H : In (ESignalConnect o signal)
                 (flat_map connections_of (sys_sessions s))).
  { eapply Permutation_in; [exact Hc|]. apply filter_In. auto. }
  apply in_flat_map in H. destruct H as (sess & _ & H).
  unfold connections_of, session_connections in H.
  destruct (has_launched sess); [|contradiction].
  destruct H as [H|[H|[H|[]]]]; try discriminate H;
    injection H as _ <-; auto.
Qed.

Lemma no_pad_handler (s : system) (el : GstElement) :
  connections_inv s -> connected (log (sys_world s)) el "pad-added" = false.
Proof.
  intros Hi. unfold connected.
  destruct (existsb _ _) eqn:E; [|reflexivity].
  apply existsb_exists in E. destruct E as (e & Hin & He).
  destruct e; try discriminate He.
  apply andb_true_iff in He. destruct He as [_ He].
  apply String.eqb_eq in He. subst.
  destruct (connections_signal s _ _ Hi Hin) as [H|H]; discriminate H.
Qed.

Lemma connections_inv_step (sgn : bool) (a : sys_action) (s s' : system) :
  connections_inv s -> sys_perform sgn a s = Some s' -> connections_inv s'.
Proof.
  intros Hi H. pose proof (no_pad_handler s) as Hno.
  destruct s as [w ss fld th fs cr]. unfold connections_inv in *.
  unfold sys_perform in H.
  cbn [sys_crashed sys_world sys_sessions sys_field sys_app_thread
       sys_finalizers] in *.
  destruct cr; [discriminate|].
  assert (Hquiet : forall w' evs,
            emitted w w' evs ->
            existsb is_pad_call evs = false ->
            filter is_connection evs = [] ->
            existsb is_pad_call (log w') = false /\
            Permutation (filter is_connection (log w'))
                        (flat_map connections_of ss)).
  { intros w' evs Em Hp Hf.
    apply (connections_grow w w' evs ss ss Em Hp); [|exact Hi].
    rewrite Hf. apply Permutation_refl. }
  destruct a as [thiz|j ta|eng c|eng el pad|thiz|k].
  - injection H as <-. cbn [sys_sessions sys_world].
    eapply connections_grow; [solve_emitted | reflexivity | | exact Hi].
    rewrite flat_map_app. cbn. rewrite app_nil_r. apply Permutation_refl.
  - destruct (nth_error ss j) as [sess|] eqn:Hj; [|discriminate].
    assert (Hstep : forall n w',
              thread_step ta sess w = Stepped n w' \/
              thread_step ta sess w = Faulted n w' ->
              existsb is_pad_call (log w') = false /\
              Permutation (filter is_connection (log w'))
                          (flat_map connections_of (update_nth j n ss))).
    { intros n w' Ht.
      destruct (thread_step_connections ta sess n w w' Ht)
        as (tr & Em & Hp & Hc).
      apply (connections_grow w w' tr ss _ Em Hp); [|exact Hi].
      destruct Hc as [(Hf & Hl & Hd)|(Hl & Hl' & Hf)].
      - rewrite Hf. cbn [app].
        rewrite (flat_map_update_same connections_of j sess n ss Hj);
          [apply Permutation_refl|].
        unfold connections_of. rewrite Hl.
        destruct (has_launched sess); [|reflexivity]. rewrite Hd; reflexivity.
      - rewrite Hf.
        replace (session_connections (CustomData.pipeline (sess_data n)))
          with (connections_of n)
          by (unfold connections_of; rewrite Hl'; reflexivity).
        apply (flat_map_update_new connections_of j sess n ss Hj).
        unfold connections_of. rewrite Hl. reflexivity. }
    destruct (thread_step ta sess w) as [n w'|n w'|] eqn:Ht;
      [| |discriminate]; injection H as <-; cbn [sys_sessions sys_world];
      apply Hstep; auto.
  - destruct (command_connects_nothing sgn eng c w) as (tr & Em & Hc & Hp).
    assert (Hw : existsb is_pad_call
                   (log (world_of (run_command sgn eng c w))) = false /\
                 Permutation
                   (filter is_connection
                      (log (world_of (run_command sgn eng c w))))
                   (flat_map connections_of ss)).
    { apply (connections_grow w _ tr ss ss Em Hp); [|exact Hi].
      assert (Hf : filter is_connection tr = []).
      { clear - Hc. induction tr as [|e r IH]; [reflexivity|].
        cbn in *. apply orb_false_iff in Hc. destruct Hc as [-> Hc].
        apply IH, Hc. }
      rewrite Hf. apply Permutation_refl. }
    destruct (run_command sgn eng c w) as [[] w'|w'];
      injection H as <-; exact Hw.
  - unfold pad_added in H. rewrite (Hno el Hi) in H.
    injection H as <-. exact Hi.
  - destruct (fld thiz) as [j|]; [|injection H as <-; exact Hi].
    destruct (nth_error ss j) as [sess|] eqn:Hj; [|discriminate].
    destruct th as [t|]; [|discriminate].
    injection H as <-. cbn [sys_sessions sys_world].
    rewrite (flat_map_update_same connections_of j sess _ ss Hj)
      by (destruct sess; reflexivity).
    eapply Hquiet; [solve_emitted | reflexivity | reflexivity].
  - destruct (nth_error fs k) as [f|]; [|discriminate].
    destruct (fin_at f); try discriminate.
    + destruct (nth_error ss (fin_thread f)) as [joined|]; [|discriminate].
      destruct (thread_ended (sess_pc joined)); [|discriminate].
      injection H as <-. cbn [sys_sessions sys_world].
      eapply Hquiet; [solve_emitted | reflexivity | reflexivity].
    + injection H as <-. cbn [sys_sessions sys_world].
      eapply Hquiet; [solve_emitted | reflexivity | reflexivity].
    + destruct (nth_error ss (fin_data f)) as [sess|] eqn:Hj; [|discriminate].
      injection H as <-. cbn [sys_sessions sys_world].
      rewrite (flat_map_update_same connections_of _ sess _ ss Hj)
        by (destruct sess; reflexivity).
      eapply Hquiet; [solve_emitted | reflexivity | reflexivity].
    + injection H as <-. cbn [sys_sessions sys_world].
      eapply Hquiet; [solve_emitted | reflexivity | reflexivity].
Qed.

Lemma reachable_connections (sgn : bool) (s : system) :
  sys_reachable sgn s -> connections_inv s.
Proof.
  intros Hr. eapply (sys_run_inv sgn _ connections_inv); [|exact Hr|].
  - intros a s1 s2 H Hi. eapply connections_inv_step; eassumption.
  - split; [reflexivity | apply Permutation_refl].
Qed.

Lemma connections_count (ss : list session) :
  List.length (flat_map connections_of ss)
  = (3 * List.length (filter has_launched ss))%nat.
Proof.
  induction ss as [|sess r IH]; [reflexivity|].
  cbn [flat_map filter]. rewrite length_app, IH. unfold connections_of.
  destruct (has_launched sess); cbn [List.length session_connections]; lia.
Qed.

Lemma no_pad_call_no_link (l : list event) (sink : GstPad) :
  existsb is_pad_call l = false -> filter (is_connection_to sink) l = [].
Proof.
  induction l as [|e r IH]; intros H; [reflexivity|].
  cbn [existsb] in H. apply orb_false_iff in H. destruct H as [He H].
  cbn [filter]. rewrite (IH H).
  destruct e; try discriminate He; reflexivity.
Qed.

(** C7, as amended.  The dynamic-link handler is connected to no signal: in every
    state the process reaches, whatever sessions, commands and new pads
    came before, no handler is connected to "pad-added" of any element, a
    new pad changes nothing (it is not looked at, not linked), and no
    lookup, pad link or release of the handler has ever been made, so
    that no pad link onto any sink pad has been accepted.  Called
    directly for a new pad with the encoder as its data, the handler
    returns after exactly four calls: a line, the lookup of the encoder's
    static pad named "sink", the link of the new pad to what the lookup
    gave, and the release of that pad; the link is made when the pad is
    found and the engine accepts it, and when the pad is not found the
    link is refused and nothing is reported: no message to the
    controller, no diagnostic, no assertion. *)
Theorem pad_added_links_encoder_sink (sgn : bool) (s : system) :
  sys_reachable sgn s ->
  (forall eng element pad,
     connected (log (sys_world s)) element "pad-added" = false /\
     pad_added eng element pad (sys_world s) = Ret tt (sys_world s)) /\
  existsb is_pad_call (log (sys_world s)) = false /\
  (forall sink, filter (is_connection_to sink) (log (sys_world s)) = []) /\
  (forall eng element pad enc w0,
     let sinkpad := if has_static_pad eng enc "sink" then Some (enc, "sink")
                    else None in
     let res := pad_link_answer eng w0 pad sinkpad in
     let tr := [ EPrint "Dynamic pad created, linking\n";
                 EGetStaticPad (Some enc) "sink" sinkpad;
                 EPadLink pad sinkpad res;
                 EUnref sinkpad ] in
     exists w',
       on_pad_added eng element pad (Some enc) w0 = Ret tt w' /\
       emitted w0 w' tr /\
       peers w' = match res, sinkpad with
                  | GST_PAD_LINK_OK, Some k => (pad, k) :: peers w0
                  | _, _ => peers w0
                  end /\
       existsb is_report tr = false /\
       match sinkpad with
       | None => res = GST_PAD_LINK_REFUSED
       | Some _ => True
       end).
Proof.
  intros Hr. pose proof (reachable_connections sgn s Hr) as Hi.
  split; [|split; [|split]].
  - intros eng element pad. pose proof (no_pad_handler s element Hi) as Hn.
    split; [exact Hn|]. unfold pad_added. rewrite Hn. reflexivity.
  - apply Hi.
  - intros sink. apply no_pad_call_no_link, Hi.
  - intros eng element pad enc w0 sinkpad res tr.
    destruct (on_pad_added_trace eng element pad enc w0) as (w' & E & Em & P).
    exists w'. split; [exact E|]. split; [exact Em|]. split; [exact P|].
    split; [reflexivity|].
    subst res sinkpad. destruct (has_static_pad eng enc "sink"); reflexivity.
Qed.

Lemma two_sessions_reachable : sys_reachable false (sys_after two_sessions).
Proof.
  apply (sys_perform_all_run false (fun _ => true) two_sessions);
    vm_compute; reflexivity.
Qed.

Lemma pad_added_links_encoder_sink_witness :
  pad_added eng_ok 1%nat (1%nat, "src_0") (sys_world (sys_after two_sessions))
  = Ret tt (sys_world (sys_after two_sessions)) /\
  existsb is_pad_call (log (sys_world (sys_after two_sessions))) = false.
Proof.
  destruct (pad_added_links_encoder_sink false (sys_after two_sessions)
              two_sessions_reachable) as (H1 & H2 & _).
  split; [apply H1 | exact H2].
Defined.

(** C7 as stated fails: after a granted [streamStart] a new pad of the camera is announced.  Nothing is
    called and the pad stays without a peer, where the handler, had it
    been connected with the encoder as its data, would have linked the
    pad to the encoder's sink pad. *)
Lemma new_pad_reaches_no_handler :
  let w := after_granted_start in
  let pad := (0%nat, "src_0") in
  var w camera = Some 0%nat /\ var w encoder = Some 5%nat /\
  pad_added eng_ok 0%nat pad w = Ret tt w /\
  since w (world_of (pad_added eng_ok 0%nat pad w)) = [] /\
  has_peer (world_of (pad_added eng_ok 0%nat pad w)) pad = false /\
  since w (world_of (on_pad_added eng_ok 0%nat pad (Some 5%nat) w))
  = [ EPrint "Dynamic pad created, linking\n";
      EGetStaticPad (Some 5%nat) "sink" (Some (5%nat, "sink"));
      EPadLink pad (Some (5%nat, "sink")) GST_PAD_LINK_OK;
      EUnref (Some (5%nat, "sink")) ] /\
  has_peer (world_of (on_pad_added eng_ok 0%nat pad (Some 5%nat) w)) pad
  = true.
Proof.
  intros w pad. subst w pad.
  repeat (match goal with |- _ /\ _ => split end); vm_compute; reflexivity.
Qed.

(** X21.  Handlers are connected in one place only.  In every state the
    process reaches, with any number of sessions, the buses with a watch
    and the signal connections ever made are, each as often as it was
    made, those of lines 165-170 for the pipeline of every session whose
    launch has succeeded, once for each such session and none for a
    session before its launch or after a failed one.  So there are three
    connections for each launched session, every signal connected is
    "message::error" or "message::state-changed", and [on_pad_added] is
    connected to no signal. *)
Theorem only_the_session_bus_is_connected (sgn : bool) (s : system) :
  sys_reachable sgn s ->
  let made := filter is_connection (log (sys_world s)) in
  Permutation made (flat_map connections_of (sys_sessions s)) /\
  List.length made
  = (3 * List.length (filter has_launched (sys_sessions s)))%nat /\
  (forall o signal, In (ESignalConnect o signal) (log (sys_world s)) ->
     signal = "message::error" \/ signal = "message::state-changed") /\
  (forall el, connected (log (sys_world s)) el "pad-added" = false).
Proof.
  intros Hr made. subst made.
  pose proof (reachable_connections sgn s Hr) as Hi.
  split; [apply Hi|]. split.
  - rewrite (Permutation_length (proj2 Hi)). apply connections_count.
  - split.
    + intros o signal. apply connections_signal, Hi.
    + intros el. apply no_pad_handler, Hi.
Qed.

Lemma only_the_session_bus_is_connected_witness :
  Permutation
    (filter is_connection (log (sys_world (sys_after two_sessions))))
    (session_connections (Some 0%nat) ++ session_connections (Some 8%nat)).
Proof.
  destruct (only_the_session_bus_is_connected false (sys_after two_sessions)
              two_sessions_reachable) as (H & _).
  exact H.
Defined.

Lemma initialization_notified_once_witness :
  exists sess0 sess1,
    sys_sessions (sys_after two_sessions) = [sess0; sess1] /\
    sess_pc sess0 = AppExited /\ notifications sess0 = 1%nat /\
    sess_pc sess1 = AppBuilt /\ notifications sess1 = 0%nat.
Proof.
  eexists _, _. split; [vm_compute; reflexivity|].
  split; [reflexivity|]. split.
  - eapply (initialization_notified_once false (sys_after two_sessions) 0);
      [exact two_sessions_reachable | reflexivity].
  - split; [reflexivity|].
    eapply (initialization_notified_once false (sys_after two_sessions) 1);
      [exact two_sessions_reachable | reflexivity].
Defined.

(** C4 as stated fails: the launch of the session fails, its thread ends, the session is finalized, and
    [onGStreamerInitialized] has not been called, nor is it in any later
    state of the process. *)
Lemma failed_launch_never_notifies :
  let s := sys_after failed_launch in
  sys_perform_all false failed_launch sys_start = Some s /\
  map sess_pc (sys_sessions s) = [AppFailed] /\
  map fin_at (sys_finalizers s) = [FinReturned] /\
  sys_crashed s = false /\
  map notifications (sys_sessions s) = [0%nat] /\
  forall s', sys_steps false s s' ->
    exists sess', nth_error (sys_sessions s') 0 = Some sess' /\
                  notifications sess' = 0%nat.
Proof.
  intros s. subst s.
  repeat (match goal with |- _ /\ _ => split end);
    try (vm_compute; reflexivity).
  intros s' Hs.
  destruct (ended_session_later false _ _ s' 0%nat _ Hs eq_refl eq_refl)
    as (sess' & Hi & _ & J & _).
  exists sess'. split; [exact Hi|]. unfold notifications. rewrite J.
  vm_compute. reflexivity.
Qed.

Lemma joined_session_stays_silent_witness :
  exists sess sess',
    nth_error (sys_sessions (sys_after one_session)) 0 = Some sess /\
    nth_error (sys_sessions (sys_after two_sessions)) 0 = Some sess' /\
    thread_ended (sess_pc sess) = true /\
    sess_jni sess' = sess_jni sess.
Proof.
  eexists _.
  edestruct (joined_session_stays_silent false (sys_after one_session)
               (sys_after two_sessions) 0%nat)
    as (He & sess' & Hi & J & _).
  - apply (sys_perform_all_run false (fun _ => true) one_session);
      vm_compute; reflexivity.
  - apply (sys_perform_all_run false (fun _ => true) second_session);
      vm_compute; reflexivity.
  - vm_compute. reflexivity.
  - cbn. lia.
  - reflexivity.
  - vm_compute. reflexivity.
  - exists sess'. split; [vm_compute; reflexivity|].
    split; [exact Hi|]. split; [exact He | exact J].
Defined.
